(** * Point-of-sale core: sale commit, stock adjustment and the cart

    A shallow embedding of the transactional core of the POS application:
    [db/models.py], [core/auth.py], [db/repositories/product_repo.py],
    [db/repositories/sales_repo.py], [core/services/inventory_service.py]
    and [core/services/sales_service.py].

    The MySQL server is modelled by its tables, its auto-increment
    counters and a plan of storage faults; every repository function is
    written in a small state-and-exception monad over that world, so that
    [try ... except Exception] blocks and commits appear where the Python
    has them; a rollback is a connection dropped before its commit. *)

From Stdlib Require Import ZArith Lia.
From stdpp Require Import base option list gmap strings numbers sorting.

Open Scope Z_scope.

(** ** Amounts of money

    Prices are Python [float]s.  Their arithmetic is kept abstract: the
    development only uses the four operations the code applies to them. *)

Class Money (money : Type) := {
  (** the [float] an [int] is converted to (used for the literal [0]) *)
  money_of_int : Z → money;
  (** [a + b] *)
  money_add : money → money → money;
  (** [n * a] for an [int] [n] *)
  money_scale : Z → money → money;
  (** [a < b] *)
  money_ltb : money → money → bool;
  money_eq_dec :: EqDecision money
}.

(** Amounts counted in integral cents; used to run the model. *)
#[global] Instance cents : Money Z := {
  money_of_int := id;
  money_add := Z.add;
  money_scale := Z.mul;
  money_ltb := Z.ltb
}.

(** ** Collation

    [ORDER BY name] sorts by the collation of the column, which the
    sources do not fix: it is a parameter, any decidable relation on
    strings. *)

Class Collation := {
  name_le : relation string;
  name_le_dec :: RelDecision name_le
}.

(** ** db/models.py *)

Module User.
Record t := mk {
  id : Z;
  username : string;
  role : string;
  active : bool
}.
End User.

Module Product.
Record t {money : Type} := mk {
  id : option Z;
  barcode : option string;
  name : string;
  price : money;
  quantity : Z
}.
Arguments t : clear implicits.
Arguments mk {money}.
End Product.

Module SaleItem.
Record t {money : Type} := mk {
  id : option Z;
  sale_id : option Z;
  product_id : Z;
  product_name : string;
  quantity : Z;
  unit_price : money
}.
Arguments t : clear implicits.
Arguments mk {money}.

Section methods.
Context `{Money money}.

(** [SaleItem.total_price] *)
Definition total_price (self : t money) : money :=
  money_scale (quantity self) (unit_price self).

Definition set_quantity (self : t money) (q : Z) : t money :=
  mk (id self) (sale_id self) (product_id self) (product_name self)
     q (unit_price self).

Definition set_product_name (self : t money) (n : string) : t money :=
  mk (id self) (sale_id self) (product_id self) n
     (quantity self) (unit_price self).
End methods.
End SaleItem.

Module Sale.
Record t {money : Type} := mk {
  id : option Z;
  user_id : Z;
  total_amount : money;
  payment_method : string;
  items : list (SaleItem.t money)
}.
Arguments t : clear implicits.
Arguments mk {money}.

Section methods.
Context `{Money money}.

Definition set_items (self : t money) (l : list (SaleItem.t money)) : t money :=
  mk (id self) (user_id self) (total_amount self) (payment_method self) l.

Definition set_user_id (self : t money) (u : Z) : t money :=
  mk (id self) u (total_amount self) (payment_method self) (items self).

Definition set_total_amount (self : t money) (a : money) : t money :=
  mk (id self) (user_id self) a (payment_method self) (items self).

(** Python's [sum(xs)]: the additions start from the [int] [0] and go
    from left to right. *)
Definition py_sum (xs : list money) : money :=
  foldl money_add (money_of_int 0) xs.

(** The value [Sale.calculate_total] stores in [total_amount]. *)
Definition items_total (l : list (SaleItem.t money)) : money :=
  py_sum (SaleItem.total_price <$> l).

(** [Sale.calculate_total]: the sale after the assignment. *)
Definition calculate_total (self : t money) : t money :=
  set_total_amount self (items_total (items self)).
End methods.
End Sale.

(** ** core/auth.py *)

Module auth.
Module Permission.
Definition SALES_VIEW : string := "sales_view".
Definition SALES_CREATE : string := "sales_create".
Definition INVENTORY_VIEW : string := "inventory_view".
Definition INVENTORY_EDIT : string := "inventory_edit".
Definition USER_MANAGE : string := "user_manage".
Definition SETTINGS_EDIT : string := "settings_edit".
End Permission.

Record Session := {
  user : User.t;
  permissions : list string
}.

(** [ROLE_PERMISSIONS.get(role, [])] *)
Definition ROLE_PERMISSIONS (role : string) : list string :=
  if decide (role = "cashier") then
    [Permission.SALES_VIEW; Permission.SALES_CREATE; Permission.INVENTORY_VIEW]
  else if decide (role = "manager") then
    [Permission.SALES_VIEW; Permission.SALES_CREATE;
     Permission.INVENTORY_VIEW; Permission.INVENTORY_EDIT]
  else if decide (role = "admin") then
    [Permission.SALES_VIEW; Permission.SALES_CREATE;
     Permission.INVENTORY_VIEW; Permission.INVENTORY_EDIT;
     Permission.USER_MANAGE; Permission.SETTINGS_EDIT]
  else [].

(** The session [login] stores in the global [current_session]. *)
Definition login (u : User.t) : Session :=
  {| user := u; permissions := ROLE_PERMISSIONS (User.role u) |}.

(** [check_permission], on the value of the global. *)
Definition check_permission (current_session : option Session)
    (permission : string) : bool :=
  match current_session with
  | None => false
  | Some s => bool_decide (permission ∈ permissions s)
  end.

(** [hash_password]: the password is stored as it is. *)
Definition hash_password (password : string) : string := password.

(** [verify_password]: [password == stored_password] *)
Definition verify_password (password stored_password : string) : bool :=
  bool_decide (password = stored_password).
End auth.

(** ** The storage server

    The MySQL tables behind the repositories, and the SQL statements the
    repositories send, each as a function on the rows. *)

Module storage.

Module products.
Record row {money : Type} := mk {
  barcode : option string;
  name : string;
  price : money;
  quantity : Z
}.
Arguments row : clear implicits.
Arguments mk {money}.

Definition set_quantity {money} (r : row money) (q : Z) : row money :=
  mk (barcode r) (name r) (price r) q.

#[global] Instance row_eq_dec `{EqDecision money} : EqDecision (row money).
Proof. solve_decision. Defined.
End products.

Module sales.
Record row {money : Type} := mk {
  user_id : Z;
  total_amount : money;
  payment_method : string
}.
Arguments row : clear implicits.
Arguments mk {money}.
End sales.

Module sale_items.
Record row {money : Type} := mk {
  sale_id : Z;
  product_id : Z;
  quantity : Z;
  unit_price : money
}.
Arguments row : clear implicits.
Arguments mk {money}.
End sale_items.

(** Modelled from the spec: [db/schema.sql], which declares the tables,
    is not among the sources.  The persisted schema of the spec is
    followed:

      products(id, barcode UNIQUE NULL, name, price, quantity)
      sales(id, user_id, total_amount, payment_method, created_at)
      sale_items(id, sale_id FK, product_id FK, quantity, unit_price)

    with the [id]s assigned by AUTO_INCREMENT.  The spec lists no range
    constraint on [products.quantity], so the column is a signed integer
    and an [UPDATE] may store a negative value.  Timestamps take no part
    in any function embedded here and are left out; a row holds the
    values its statement was given, the rounding of a column type is not
    modelled.

    The record holds the rows of the three tables, keyed by primary
    key. *)
Record Tables {money : Type} := mkTables {
  tbl_products : gmap Z (products.row money);
  tbl_sales : gmap Z (sales.row money);
  tbl_sale_items : gmap Z (sale_items.row money)
}.
Arguments Tables : clear implicits.
Arguments mkTables {money}.

(** The next AUTO_INCREMENT value of each table.  The counters are not
    transactional: a rolled-back insert keeps the value it consumed. *)
Record Counters := mkCounters {
  next_product_id : Z;
  next_sale_id : Z;
  next_sale_item_id : Z
}.

Section statements.
Context `{Money money}.

Definition set_products (t : Tables money)
    (m : gmap Z (products.row money)) : Tables money :=
  mkTables m (tbl_sales t) (tbl_sale_items t).

Definition set_sales (t : Tables money)
    (m : gmap Z (sales.row money)) : Tables money :=
  mkTables (tbl_products t) m (tbl_sale_items t).

Definition set_sale_items (t : Tables money)
    (m : gmap Z (sale_items.row money)) : Tables money :=
  mkTables (tbl_products t) (tbl_sales t) m.

(** [cursor.rowcount] after an [UPDATE] that matched one row.  MySQL
    counts the rows whose stored values changed, unless the connection
    was opened with the CLIENT_FOUND_ROWS flag, in which case it counts
    the rows matched by the [WHERE] clause. *)
Definition affected_rows (found_rows : bool)
    (old new : products.row money) : Z :=
  if found_rows then 1 else if decide (old = new) then 0 else 1.

(** UNIQUE(barcode): some row other than [self] carries [code]. *)
Definition barcode_taken (t : Tables money) (self : option Z)
    (code : option string) : bool :=
  match code with
  | None => false
  | Some c =>
      negb (bool_decide
        (map_Forall (λ k r, Some k = self ∨ products.barcode r ≠ Some c)
           (tbl_products t)))
  end.

(** [SELECT * FROM products WHERE id = %s], [fetchone()] *)
Definition select_product (product_id : Z) (t : Tables money)
    : option (products.row money) :=
  tbl_products t !! product_id.

(** [SELECT * FROM products WHERE barcode = %s], [fetchone()] *)
Definition select_product_by_barcode (code : string) (t : Tables money)
    : option (Z * products.row money) :=
  head (filter (λ kr, products.barcode kr.2 = Some code)
          (map_to_list (tbl_products t))).

(** [INSERT INTO products (barcode, name, price, quantity) VALUES ...]
    with primary key [new_id]; [None] when a key constraint rejects
    the row. *)
Definition insert_product (r : products.row money) (new_id : Z)
    (t : Tables money) : option (Tables money) :=
  if bool_decide (is_Some (tbl_products t !! new_id)) then None
  else if barcode_taken t None (products.barcode r) then None
  else Some (set_products t (<[new_id := r]> (tbl_products t))).

(** [UPDATE products SET barcode = %s, name = %s, price = %s,
    quantity = %s WHERE id = %s]: the new tables and the row count. *)
Definition update_product (found_rows : bool) (r : products.row money)
    (product_id : Z) (t : Tables money) : option (Tables money * Z) :=
  match tbl_products t !! product_id with
  | None => Some (t, 0)
  | Some old =>
      if barcode_taken t (Some product_id) (products.barcode r) then None
      else Some (set_products t (<[product_id := r]> (tbl_products t)),
                 affected_rows found_rows old r)
  end.

(** [SELECT quantity FROM products WHERE id = %s], [fetchone()] *)
Definition select_quantity (product_id : Z) (t : Tables money) : option Z :=
  products.quantity <$> tbl_products t !! product_id.

(** [UPDATE products SET quantity = %s WHERE id = %s] *)
Definition update_set_quantity (found_rows : bool) (new_quantity : Z)
    (product_id : Z) (t : Tables money) : option (Tables money * Z) :=
  match tbl_products t !! product_id with
  | None => Some (t, 0)
  | Some old =>
      let new := products.set_quantity old new_quantity in
      Some (set_products t (<[product_id := new]> (tbl_products t)),
            affected_rows found_rows old new)
  end.

(** [UPDATE products SET quantity = quantity - %s WHERE id = %s] *)
Definition update_sub_quantity (found_rows : bool) (n : Z)
    (product_id : Z) (t : Tables money) : option (Tables money * Z) :=
  match tbl_products t !! product_id with
  | None => Some (t, 0)
  | Some old =>
      let new := products.set_quantity old (products.quantity old - n) in
      Some (set_products t (<[product_id := new]> (tbl_products t)),
            affected_rows found_rows old new)
  end.

(** [INSERT INTO sales (user_id, total_amount, payment_method)
    VALUES ...] with primary key [new_id] *)
Definition insert_sale (r : sales.row money) (new_id : Z)
    (t : Tables money) : option (Tables money) :=
  if bool_decide (is_Some (tbl_sales t !! new_id)) then None
  else Some (set_sales t (<[new_id := r]> (tbl_sales t))).

(** [INSERT INTO sale_items (sale_id, product_id, quantity, unit_price)
    VALUES ...] with primary key [new_id]; both foreign keys must point
    at existing rows. *)
Definition insert_sale_item (r : sale_items.row money) (new_id : Z)
    (t : Tables money) : option (Tables money) :=
  if bool_decide (is_Some (tbl_sale_items t !! new_id)) then None
  else if bool_decide (is_Some (tbl_sales t !! sale_items.sale_id r)) then
    if bool_decide (is_Some (tbl_products t !! sale_items.product_id r))
    then Some (set_sale_items t (<[new_id := r]> (tbl_sale_items t)))
    else None
  else None.
End statements.

Section more_statements.
Context `{Money money} `{Collation}.

(** Some [sale_items] row points at the product. *)
Definition referenced (product_id : Z) (t : Tables money) : bool :=
  negb (bool_decide
    (map_Forall (λ _ r, sale_items.product_id r ≠ product_id)
       (tbl_sale_items t))).

(** [DELETE FROM products WHERE id = %s]: the new tables and the row
    count.

    Modelled from the spec: [sale_items.product_id] is the foreign key of
    the spec's schema; no [ON DELETE] action being named, the key has
    MySQL's default one and the server refuses to delete a product a
    [sale_items] row points at. *)
Definition delete_product (product_id : Z) (t : Tables money)
    : option (Tables money * Z) :=
  match tbl_products t !! product_id with
  | None => Some (t, 0)
  | Some _ =>
      if referenced product_id t then None
      else Some (set_products t (delete product_id (tbl_products t)), 1)
  end.

(** The order of [ORDER BY name] on fetched products. *)
Definition by_name (a b : Z * products.row money) : Prop :=
  name_le (products.name a.2) (products.name b.2).

#[global] Instance by_name_dec : RelDecision by_name.
Proof. intros a b. unfold by_name. apply _. Defined.

(** [SELECT * FROM products ORDER BY name], [fetchall()] *)
Definition select_products_by_name (t : Tables money)
    : list (Z * products.row money) :=
  merge_sort by_name (map_to_list (tbl_products t)).

(** [SELECT * FROM sales WHERE id = %s], [fetchone()] *)
Definition select_sale (sale_id : Z) (t : Tables money)
    : option (sales.row money) :=
  tbl_sales t !! sale_id.

(** [SELECT si.*, p.name as product_name FROM sale_items si
    JOIN products p ON si.product_id = p.id WHERE si.sale_id = %s],
    [fetchall()]: the lines of the sale whose product exists, each with
    the product's current name, in the order the server walks the table
    (the query asks for none). *)
Definition select_sale_items (sale_id : Z) (t : Tables money)
    : list (Z * sale_items.row money * string) :=
  omap (λ kr : Z * sale_items.row money,
          if decide (sale_items.sale_id kr.2 = sale_id)
          then (λ p, (kr.1, kr.2, products.name p))
                 <$> tbl_products t !! sale_items.product_id kr.2
          else None)
    (map_to_list (tbl_sale_items t)).
End more_statements.
End storage.

(** ** The running program: global state, exceptions, connections *)

Module runtime.
Import storage.

(** What the process can observe or change outside its local variables. *)
Record World {money : Type} := mkWorld {
  (** the committed rows *)
  tables : Tables money;
  counters : Counters;
  (** whether the pool's connections carry CLIENT_FOUND_ROWS
      ([db_config] of [config.py] passes no [client_flags], which leaves
      the flag off) *)
  found_rows : bool;
  (** the global [current_session] of [core/auth.py] *)
  current_session : option auth.Session;
  (** storage fault plan: the n-th call of the connector that goes to
      the server raises when the n-th entry is [true]; past the end of
      the plan none does *)
  faults : list bool
}.
Arguments World : clear implicits.
Arguments mkWorld {money}.

Inductive exn :=
| PermissionError
| DatabaseError
| AttributeError
| UnboundLocalError.

Inductive outcome (A : Type) :=
| Returned (a : A)
| Raised (e : exn).
Arguments Returned {A}.
Arguments Raised {A}.

(** A computation that may read and change the world and may raise. *)
Definition M (money A : Type) : Type :=
  World money → outcome A * World money.

#[global] Instance M_ret {money} : MRet (M money) :=
  λ A a w, (Returned a, w).

#[global] Instance M_bind {money} : MBind (M money) :=
  λ A B f m w,
    match m w with
    | (Returned a, w') => f a w'
    | (Raised e, w') => (Raised e, w')
    end.

Section primitives.
Context `{Money money}.

Definition raise {A} (e : exn) : M money A := λ w, (Raised e, w).

(** [try: body except Exception: handler] *)
Definition try_except {A} (body : M money A) (handler : exn → M money A)
    : M money A :=
  λ w,
    match body w with
    | (Returned a, w') => (Returned a, w')
    | (Raised e, w') => handler e w'
    end.

(** [try: body] with what follows on either side: [ok] goes on after a
    body that returned, [err] is the [except] block; neither is
    protected by the [try]. *)
Definition catch {A B} (body : M money A) (ok : A → M money B)
    (err : exn → M money B) : M money B :=
  λ w,
    match body w with
    | (Returned a, w') => ok a w'
    | (Raised e, w') => err e w'
    end.

Definition get_world : M money (World money) := λ w, (Returned w, w).

Definition set_tables (w : World money) (t : Tables money) : World money :=
  mkWorld t (counters w) (found_rows w) (current_session w) (faults w).

Definition set_counters (w : World money) (c : Counters) : World money :=
  mkWorld (tables w) c (found_rows w) (current_session w) (faults w).

Definition set_faults (w : World money) (f : list bool) : World money :=
  mkWorld (tables w) (counters w) (found_rows w) (current_session w) f.

(** One round trip to the server. *)
Definition storage_call : M money unit :=
  λ w,
    match faults w with
    | [] => (Returned (), w)
    | false :: rest => (Returned (), set_faults w rest)
    | true :: rest => (Raised DatabaseError, set_faults w rest)
    end.

(** A pooled connection: the rows as this connection sees them, its
    own uncommitted changes included.  A connection that goes out of
    scope without [commit] (by [rollback], [close] or loss of the link)
    simply drops them. *)
Record Conn := mkConn { view : Tables money }.

(** [db.connection.get_connection] *)
Definition get_connection : M money Conn :=
  storage_call ;; w ← get_world; mret (mkConn (tables w)).

(** [conn.cursor()]: the connector first checks that the server still
    answers, and raises when it does not. *)
Definition cursor (conn : Conn) : M money unit :=
  storage_call.

(** [conn.start_transaction()] *)
Definition start_transaction (conn : Conn) : M money unit :=
  storage_call.

(** [cursor.execute] of a [SELECT], followed by the fetch *)
Definition execute_query {A} (conn : Conn) (q : Tables money → A)
    : M money A :=
  storage_call ;; mret (q (view conn)).

(** [cursor.execute] of an [UPDATE]: the connection afterwards and
    [cursor.rowcount] *)
Definition execute_update (conn : Conn)
    (stmt : bool → Tables money → option (Tables money * Z))
    : M money (Conn * Z) :=
  storage_call ;;
  w ← get_world;
  match stmt (found_rows w) (view conn) with
  | Some (t, n) => mret (mkConn t, n)
  | None => raise DatabaseError
  end.

Inductive table := Products | Sales | SaleItems.

Definition next_id (tb : table) (c : Counters) : Z :=
  match tb with
  | Products => next_product_id c
  | Sales => next_sale_id c
  | SaleItems => next_sale_item_id c
  end.

Definition bump (tb : table) (c : Counters) : Counters :=
  match tb with
  | Products =>
      mkCounters (next_product_id c + 1) (next_sale_id c) (next_sale_item_id c)
  | Sales =>
      mkCounters (next_product_id c) (next_sale_id c + 1) (next_sale_item_id c)
  | SaleItems =>
      mkCounters (next_product_id c) (next_sale_id c) (next_sale_item_id c + 1)
  end.

(** The server hands out the next AUTO_INCREMENT value of [tb]. *)
Definition fresh_id (tb : table) : M money Z :=
  λ w, (Returned (next_id tb (counters w)),
        set_counters w (bump tb (counters w))).

(** [cursor.execute] of an [INSERT]: the connection afterwards and
    [cursor.lastrowid] *)
Definition execute_insert (conn : Conn) (tb : table)
    (stmt : Z → Tables money → option (Tables money))
    : M money (Conn * Z) :=
  storage_call ;;
  new_id ← fresh_id tb;
  match stmt new_id (view conn) with
  | Some t => mret (mkConn t, new_id)
  | None => raise DatabaseError
  end.

(** The server makes the rows [t] the committed ones. *)
Definition publish (t : Tables money) : M money unit :=
  λ w, (Returned (), set_tables w t).

(** [conn.commit()] *)
Definition commit (conn : Conn) : M money unit :=
  storage_call ;; publish (view conn).

(** [conn.rollback()] *)
Definition rollback (conn : Conn) : M money unit :=
  storage_call.

(** [cursor.close()]: what is left of the statement's result is taken
    from the server before the cursor is dropped. *)
Definition cursor_close (conn : Conn) : M money unit :=
  storage_call.

(** [conn.close()] of a pooled connection: the session is reset on the
    server and the connection goes back to the pool, whether or not the
    reset worked; what was not committed is dropped. *)
Definition close (conn : Conn) : M money unit :=
  storage_call.

(** [conn.is_connected()] of a connection that has not gone back to the
    pool: a ping; a ping that fails is answered [False]. *)
Definition is_connected (conn : Conn) : M money bool :=
  try_except (storage_call ;; mret true) (λ e, mret false).

(** The wrapper built by [auth.require_permission(permission)]. *)
Definition require_permission {A} (permission : string)
    (func : M money A) : M money A :=
  λ w,
    if auth.check_permission (current_session w) permission
    then func w
    else (Raised PermissionError, w).
End primitives.
Arguments Conn : clear implicits.

Section sessions.
Context `{Money money}.

Definition set_session (w : World money) (s : option auth.Session)
    : World money :=
  mkWorld (tables w) (counters w) (found_rows w) s (faults w).

(** [auth.login]: the session is stored in the global and returned. *)
Definition login (user : User.t) : M money auth.Session :=
  λ w, (Returned (auth.login user), set_session w (Some (auth.login user))).

(** [auth.logout] *)
Definition logout : M money unit :=
  λ w, (Returned (), set_session w None).
End sessions.
End runtime.

(** ** db/repositories/product_repo.py *)

Module product_repo.
Import storage runtime.

Section repo.
Context `{Money money}.

(** The [Product(...)] built from a fetched row. *)
Definition of_row (product_id : Z) (r : products.row money)
    : Product.t money :=
  Product.mk (Some product_id) (products.barcode r) (products.name r)
    (products.price r) (products.quantity r).

(** The column values an [INSERT] or [UPDATE] is given. *)
Definition to_row (product : Product.t money) : products.row money :=
  products.mk (Product.barcode product) (Product.name product)
    (Product.price product) (Product.quantity product).

Definition get_by_id (product_id : Z)
    : M money (option (Product.t money)) :=
  try_except
    (conn ← get_connection;
     cursor conn ;;
     result ← execute_query conn (select_product product_id);
     cursor_close conn ;;
     close conn ;;
     match result with
     | Some r => mret (Some (of_row product_id r))
     | None => mret None
     end)
    (λ e, mret None).

Definition get_by_barcode (barcode : string)
    : M money (option (Product.t money)) :=
  try_except
    (conn ← get_connection;
     cursor conn ;;
     result ← execute_query conn (select_product_by_barcode barcode);
     cursor_close conn ;;
     close conn ;;
     match result with
     | Some (k, r) => mret (Some (of_row k r))
     | None => mret None
     end)
    (λ e, mret None).

Definition create (product : Product.t money)
    : M money (bool * option Z) :=
  try_except
    (conn ← get_connection;
     cursor conn ;;
     '(conn, product_id) ←
       execute_insert conn Products (insert_product (to_row product));
     commit conn ;;
     cursor_close conn ;;
     close conn ;;
     mret (true, Some product_id))
    (λ e, mret (false, None)).

(** [not product.id]: the id is [None] or [0]. *)
Definition falsy_id (i : option Z) : bool :=
  match i with
  | None => true
  | Some k => bool_decide (k = 0)
  end.

Definition update (product : Product.t money) : M money bool :=
  try_except
    (match Product.id product with
     | None => mret false
     | Some product_id =>
         if falsy_id (Some product_id) then mret false
         else
           conn ← get_connection;
           cursor conn ;;
           '(conn, affected_rows) ←
             execute_update conn
               (λ fr, update_product fr (to_row product) product_id);
           commit conn ;;
           cursor_close conn ;;
           close conn ;;
           if bool_decide (0 < affected_rows) then mret true
           else mret false
     end)
    (λ e, mret false).

Definition update_quantity (product_id : Z) (quantity_change : Z)
    : M money bool :=
  try_except
    (conn ← get_connection;
     cursor conn ;;
     result ← execute_query conn (select_quantity product_id);
     match result with
     | None => cursor_close conn ;; close conn ;; mret false
     | Some current_quantity =>
         let new_quantity := current_quantity + quantity_change in
         if bool_decide (new_quantity < 0)
         then cursor_close conn ;; close conn ;; mret false
         else
           '(conn, affected_rows) ←
             execute_update conn
               (λ fr, update_set_quantity fr new_quantity product_id);
           commit conn ;;
           cursor_close conn ;;
           close conn ;;
           if bool_decide (0 < affected_rows) then mret true
           else mret false
     end)
    (λ e, mret false).
End repo.

Section more_repo.
Context `{Money money} `{Collation}.

Definition get_all : M money (list (Product.t money)) :=
  try_except
    (conn ← get_connection;
     cursor conn ;;
     results ← execute_query conn select_products_by_name;
     cursor_close conn ;;
     close conn ;;
     mret ((λ kr, of_row kr.1 kr.2) <$> results))
    (λ e, mret []).

Definition delete (product_id : Z) : M money bool :=
  try_except
    (conn ← get_connection;
     cursor conn ;;
     '(conn, affected_rows) ←
       execute_update conn (λ _, delete_product product_id);
     commit conn ;;
     cursor_close conn ;;
     close conn ;;
     if bool_decide (0 < affected_rows) then mret true
     else mret false)
    (λ e, mret false).
End more_repo.
End product_repo.

(** ** db/repositories/sales_repo.py *)

Module sales_repo.
Import storage runtime.

Section repo.
Context `{Money money}.

(** The body of [for item in sale.items]: the line's row is inserted,
    then the product's stock is decremented. *)
Fixpoint insert_items (sale_id : Z) (items : list (SaleItem.t money))
    (conn : Conn money) : M money (Conn money) :=
  match items with
  | [] => mret conn
  | item :: rest =>
      '(conn, _) ←
        execute_insert conn SaleItems
          (insert_sale_item
             (sale_items.mk sale_id (SaleItem.product_id item)
                (SaleItem.quantity item) (SaleItem.unit_price item)));
      '(conn, _) ←
        execute_update conn
          (λ fr, update_sub_quantity fr (SaleItem.quantity item)
                   (SaleItem.product_id item));
      insert_items sale_id rest conn
  end.

(** The statements of the [try] block from [conn.start_transaction()]
    to [cursor.close()]; the value is [sale_id]. *)
Definition transaction (sale : Sale.t money) (conn : Conn money)
    : M money Z :=
  start_transaction conn ;;
  '(conn, sale_id) ←
    execute_insert conn Sales
      (insert_sale
         (sales.mk (Sale.user_id sale) (Sale.total_amount sale)
            (Sale.payment_method sale)));
  conn ← insert_items sale_id (Sale.items sale) conn;
  commit conn ;;
  cursor_close conn ;;
  mret sale_id.

(** The [except] block, entered with [conn] bound and not yet handed
    back to the pool.  None of its calls is protected: what
    [conn.rollback()], [cursor.close()] or [conn.close()] raises reaches
    the caller, and so does the [UnboundLocalError] of [cursor.close()]
    when it was [conn.cursor()] that raised. *)
Definition on_error (conn : Conn money) (cursor_bound : bool)
    : M money (bool * option Z) :=
  connected ← is_connected conn;
  if (connected : bool) then
    rollback conn ;;
    (if cursor_bound then cursor_close conn else raise UnboundLocalError) ;;
    close conn ;;
    mret (false, None)
  else mret (false, None).

(** The one [try] of the source, unfolded by the place where it is
    left, since the [except] block looks at ['conn' in locals()] and at
    the connection:
    - [get_connection()] raised: [conn] is not bound, the answer is
      [(False, None)];
    - [conn.cursor()] or a statement up to [cursor.close()] raised:
      [on_error];
    - [conn.close()] raised: the pooled connection has let go of the
      connection it wrapped, and [conn.is_connected()] raises
      [AttributeError]. *)
Definition create_sale_with_items (sale : Sale.t money)
    : M money (bool * option Z) :=
  catch get_connection
    (λ conn,
       catch (cursor conn)
         (λ _,
            catch (transaction sale conn)
              (λ sale_id,
                 catch (close conn)
                   (λ _, mret (true, Some sale_id))
                   (λ e, raise AttributeError))
              (λ e, on_error conn true))
         (λ e, on_error conn false))
    (λ e, mret (false, None)).
End repo.

Section more_repo.
Context `{Money money}.

(** The [SaleItem(...)] built from a fetched line. *)
Definition item_of_row (kr : Z * sale_items.row money * string)
    : SaleItem.t money :=
  SaleItem.mk (Some kr.1.1) (Some (sale_items.sale_id kr.1.2))
    (sale_items.product_id kr.1.2) kr.2
    (sale_items.quantity kr.1.2) (sale_items.unit_price kr.1.2).

Definition get_by_id (sale_id : Z) : M money (option (Sale.t money)) :=
  try_except
    (conn ← get_connection;
     cursor conn ;;
     sale_result ← execute_query conn (select_sale sale_id);
     match sale_result with
     | None => cursor_close conn ;; close conn ;; mret None
     | Some r =>
         items_results ← execute_query conn (select_sale_items sale_id);
         cursor_close conn ;;
         close conn ;;
         mret (Some (Sale.mk (Some sale_id) (sales.user_id r)
                       (sales.total_amount r) (sales.payment_method r)
                       (item_of_row <$> items_results)))
     end)
    (λ e, mret None).
End more_repo.
End sales_repo.

(** ** core/services/inventory_service.py *)

Module inventory_service.
Import runtime.

Section service.
Context `{Money money}.

(** Truth value of an optional string: [None] and [""] are false. *)
Definition truthy (s : option string) : option string :=
  match s with
  | Some c => if decide (c = "") then None else Some c
  | None => None
  end.

Definition create_product (product : Product.t money)
    : M money (bool * option Z) :=
  require_permission auth.Permission.INVENTORY_EDIT
    (if decide (Product.name product = "") then mret (false, None)
     else if money_ltb (Product.price product) (money_of_int 0)
     then mret (false, None)
     else if bool_decide (Product.quantity product < 0)
     then mret (false, None)
     else
       match truthy (Product.barcode product) with
       | Some code =>
           existing ← product_repo.get_by_barcode code;
           match existing with
           | Some _ => mret (false, None)
           | None => product_repo.create product
           end
       | None => product_repo.create product
       end).

Definition update_product (product : Product.t money) : M money bool :=
  require_permission auth.Permission.INVENTORY_EDIT
    (if product_repo.falsy_id (Product.id product) then mret false
     else if decide (Product.name product = "") then mret false
     else if money_ltb (Product.price product) (money_of_int 0)
     then mret false
     else if bool_decide (Product.quantity product < 0) then mret false
     else
       match truthy (Product.barcode product) with
       | Some code =>
           existing ← product_repo.get_by_barcode code;
           match existing with
           | Some e =>
               if decide (Product.id e ≠ Product.id product)
               then mret false
               else product_repo.update product
           | None => product_repo.update product
           end
       | None => product_repo.update product
       end).

Definition update_stock (product_id : Z) (quantity_change : Z)
    : M money bool :=
  require_permission auth.Permission.INVENTORY_EDIT
    (product ← product_repo.get_by_id product_id;
     match product with
     | None => mret false
     | Some p =>
         if bool_decide (Product.quantity p + quantity_change < 0)
         then mret false
         else product_repo.update_quantity product_id quantity_change
     end).
End service.

Section more_service.
Context `{Money money} `{Collation}.

Definition get_all_products : M money (list (Product.t money)) :=
  require_permission auth.Permission.INVENTORY_VIEW product_repo.get_all.

Definition get_product_by_id (product_id : Z)
    : M money (option (Product.t money)) :=
  require_permission auth.Permission.INVENTORY_VIEW
    (product_repo.get_by_id product_id).

Definition get_product_by_barcode (barcode : string)
    : M money (option (Product.t money)) :=
  require_permission auth.Permission.INVENTORY_VIEW
    (product_repo.get_by_barcode barcode).

Definition delete_product (product_id : Z) : M money bool :=
  require_permission auth.Permission.INVENTORY_EDIT
    (product_repo.delete product_id).

Definition get_low_stock_products (threshold : Z)
    : M money (list (Product.t money)) :=
  require_permission auth.Permission.INVENTORY_VIEW
    (all_products ← product_repo.get_all;
     mret (filter (λ p, Product.quantity p ≤ threshold) all_products)).
End more_service.
End inventory_service.

(** ** core/services/sales_service.py

    The functions that change the draft they are given ([sale] is one
    shared Python object) return the draft as it is afterwards. *)

Module sales_service.
Import runtime.

Section service.
Context `{Money money}.

(** The loop [for item in sale.items] of [create_sale]: whether every
    line passed, and the lines as the loop leaves them (a line that
    passed carries the product's current name). *)
Fixpoint validate_items (items : list (SaleItem.t money))
    : M money (bool * list (SaleItem.t money)) :=
  match items with
  | [] => mret (true, [])
  | item :: rest =>
      product ← product_repo.get_by_id (SaleItem.product_id item);
      match product with
      | None => mret (false, item :: rest)
      | Some p =>
          if bool_decide (Product.quantity p < SaleItem.quantity item)
          then mret (false, item :: rest)
          else
            '(ok, rest') ← validate_items rest;
            mret (ok, SaleItem.set_product_name item (Product.name p)
                        :: rest')
      end
  end.

Definition create_sale (sale : Sale.t money)
    : M money ((bool * option Z) * Sale.t money) :=
  require_permission auth.Permission.SALES_CREATE
    (match Sale.items sale with
     | [] => mret ((false, None), sale)
     | _ :: _ =>
         w ← get_world;
         match current_session w with
         | None => mret ((false, None), sale)
         | Some session =>
             let sale :=
               Sale.set_user_id sale (User.id (auth.user session)) in
             let sale := Sale.calculate_total sale in
             '(ok, items) ← validate_items (Sale.items sale);
             let sale := Sale.set_items sale items in
             if (ok : bool) then
               r ← sales_repo.create_sale_with_items sale;
               mret (r, sale)
             else mret ((false, None), sale)
         end
     end).

(** The loop of [add_product_to_sale]: the lines after the first line
    of [product_id] was incremented, [None] when no line matches. *)
Fixpoint merge_line (items : list (SaleItem.t money))
    (product_id quantity : Z) : option (list (SaleItem.t money)) :=
  match items with
  | [] => None
  | item :: rest =>
      if decide (SaleItem.product_id item = product_id)
      then Some (SaleItem.set_quantity item
                   (SaleItem.quantity item + quantity) :: rest)
      else (item ::.) <$> merge_line rest product_id quantity
  end.

Definition add_product_to_sale (sale : Sale.t money)
    (product_id : Z) (quantity : Z) : M money (bool * Sale.t money) :=
  require_permission auth.Permission.SALES_CREATE
    (product ← product_repo.get_by_id product_id;
     match product with
     | None => mret (false, sale)
     | Some p =>
         if bool_decide (Product.quantity p < quantity)
         then mret (false, sale)
         else
           match merge_line (Sale.items sale) product_id quantity with
           | Some items => mret (true, Sale.set_items sale items)
           | None =>
               mret (true,
                     Sale.set_items sale
                       (Sale.items sale ++
                          [SaleItem.mk None None product_id
                             (Product.name p) quantity (Product.price p)]))
           end
     end).

(** The loop of [remove_product_from_sale]: the lines after the first
    line of [product_id] was popped or decremented, [None] when no line
    matches. *)
Fixpoint remove_line (items : list (SaleItem.t money))
    (product_id : Z) (quantity : option Z)
    : option (list (SaleItem.t money)) :=
  match items with
  | [] => None
  | item :: rest =>
      if decide (SaleItem.product_id item = product_id) then
        match quantity with
        | None => Some rest
        | Some q =>
            if bool_decide (SaleItem.quantity item ≤ q) then Some rest
            else Some (SaleItem.set_quantity item
                         (SaleItem.quantity item - q) :: rest)
        end
      else (item ::.) <$> remove_line rest product_id quantity
  end.

Definition remove_product_from_sale (sale : Sale.t money)
    (product_id : Z) (quantity : option Z)
    : M money (bool * Sale.t money) :=
  require_permission auth.Permission.SALES_CREATE
    (match remove_line (Sale.items sale) product_id quantity with
     | Some items => mret (true, Sale.set_items sale items)
     | None => mret (false, sale)
     end).
End service.

Section more_service.
Context `{Money money}.

Definition get_sale_by_id (sale_id : Z) : M money (option (Sale.t money)) :=
  require_permission auth.Permission.SALES_VIEW
    (sales_repo.get_by_id sale_id).
End more_service.
End sales_service.

(** ** Interleaved calls of [inventory_service.update_stock]

    Two terminals run [update_stock] on the same server.  A call talks to
    the server three times: the [SELECT] of [product_repo.get_by_id], the
    [SELECT] of [product_repo.update_quantity], and the [UPDATE] with its
    [commit].  Neither [SELECT] takes a lock, so the round trips of the
    two calls may interleave in any order; each round trip is atomic and
    sees the committed rows.  The storage is up and both callers hold the
    permission. *)

Module interleaving.
Import storage.

(** Where a call stands between two round trips. *)
Inductive progress :=
| AtGetById
| AtSelectQuantity
| AtUpdate (new_quantity : Z)
| Finished (result : bool).

Record call := mkCall {
  product_id : Z;
  quantity_change : Z;
  at_ : progress
}.

Definition start (product_id quantity_change : Z) : call :=
  mkCall product_id quantity_change AtGetById.

Inductive turn := First | Second.

Section machine.
Context `{Money money}.

Definition goto (c : call) (p : progress) : call :=
  mkCall (product_id c) (quantity_change c) p.

(** The next round trip of call [c] on the committed rows [t]. *)
Definition step (found_rows : bool) (t : Tables money) (c : call)
    : Tables money * call :=
  match at_ c with
  | AtGetById =>
      match select_product (product_id c) t with
      | None => (t, goto c (Finished false))
      | Some r =>
          if bool_decide (products.quantity r + quantity_change c < 0)
          then (t, goto c (Finished false))
          else (t, goto c AtSelectQuantity)
      end
  | AtSelectQuantity =>
      match select_quantity (product_id c) t with
      | None => (t, goto c (Finished false))
      | Some current_quantity =>
          let new_quantity := current_quantity + quantity_change c in
          if bool_decide (new_quantity < 0)
          then (t, goto c (Finished false))
          else (t, goto c (AtUpdate new_quantity))
      end
  | AtUpdate new_quantity =>
      match update_set_quantity found_rows new_quantity (product_id c) t with
      | Some (t', affected_rows) =>
          (t', goto c (Finished (bool_decide (0 < affected_rows))))
      | None => (t, goto c (Finished false))
      end
  | Finished _ => (t, c)
  end.

(** The server and the two calls. *)
Record system := mkSystem {
  rows : Tables money;
  first : call;
  second : call
}.

Definition system_step (found_rows : bool) (s : system) (who : turn)
    : system :=
  match who with
  | First =>
      let '(t, c) := step found_rows (rows s) (first s) in
      mkSystem t c (second s)
  | Second =>
      let '(t, c) := step found_rows (rows s) (second s) in
      mkSystem t (first s) c
  end.

Definition run (found_rows : bool) (schedule : list turn) (s : system)
    : system :=
  foldl (system_step found_rows) s schedule.

Definition succeeded (c : call) : bool :=
  match at_ c with
  | Finished true => true
  | _ => false
  end.

(** The quantity a call is about to write, if any, is not negative. *)
Definition pending_nonneg (c : call) : Prop :=
  match at_ c with
  | AtUpdate new_quantity => 0 ≤ new_quantity
  | _ => True
  end.
End machine.
Arguments system : clear implicits.
End interleaving.

(** ** Predicates of the statements *)

Module properties.
Import storage runtime.

Section predicates.
Context `{Money money}.

(** Every product's quantity-on-hand is at least zero. *)
Definition stock_nonneg (t : Tables money) : Prop :=
  map_Forall (λ _ r, 0 ≤ products.quantity r) (tbl_products t).

(** No storage fault is planned. *)
Definition storage_up (w : World money) : Prop :=
  Forall (λ b, b = false) (faults w).

(** No storage fault is planned after the first [n] calls that go to
    the server. *)
Definition storage_up_after (n : nat) (w : World money) : Prop :=
  Forall (λ b, b = false) (drop n (faults w)).

(** The calls of [create_sale_with_items] that go to the server up to
    and including [conn.commit()]: [get_connection], [conn.cursor()],
    [conn.start_transaction()], the insert of the sale, an insert and a
    decrement for every line, and the commit. *)
Definition calls_to_commit (sale : Sale.t money) : nat :=
  5 + 2 * length (Sale.items sale).

(** A run from [w] to [w'] on a storage that is up leaves it up. *)
Definition calm (w w' : World money) : Prop :=
  storage_up w → storage_up w'.

(** The session in force holds [permission]. *)
Definition permitted (permission : string) (w : World money) : Prop :=
  auth.check_permission (current_session w) permission = true.

(** The quantity-on-hand of a product, if it exists. *)
Definition stock (t : Tables money) (product_id : Z) : option Z :=
  products.quantity <$> tbl_products t !! product_id.

(** A line fails the checks of [create_sale] against the rows [t]:
    its product is missing or has less stock than the line asks. *)
Definition line_fails (t : Tables money) (item : SaleItem.t money) : Prop :=
  match stock t (SaleItem.product_id item) with
  | None => True
  | Some q => q < SaleItem.quantity item
  end.

(** The units of [product_id] sold by the lines [items]. *)
Definition sold (items : list (SaleItem.t money)) (product_id : Z) : Z :=
  foldr (λ item acc,
           if decide (SaleItem.product_id item = product_id)
           then SaleItem.quantity item + acc else acc)
    0 items.

(** The [sales] row and [sale_items] row a committed sale consists of. *)
Definition sale_row (sale : Sale.t money) : sales.row money :=
  sales.mk (Sale.user_id sale) (Sale.total_amount sale)
    (Sale.payment_method sale).

Definition line_row (sale_id : Z) (item : SaleItem.t money)
    : sale_items.row money :=
  sale_items.mk sale_id (SaleItem.product_id item)
    (SaleItem.quantity item) (SaleItem.unit_price item).

(** The rows [t'] are the rows [t] plus one [sale_items] row per line
    of [items], under the keys from [first_item] on and linked to
    [sale_id], and with every line's quantity taken off its product's
    stock. *)
Definition lines_recorded (sale_id first_item : Z)
    (items : list (SaleItem.t money)) (t t' : Tables money) : Prop :=
  (∀ (i : nat) item, items !! i = Some item →
     tbl_sale_items t !! (first_item + Z.of_nat i) = None
     ∧ tbl_sale_items t' !! (first_item + Z.of_nat i)
       = Some (line_row sale_id item))
  ∧ (∀ k, ¬ (first_item ≤ k < first_item + Z.of_nat (length items)) →
       tbl_sale_items t' !! k = tbl_sale_items t !! k)
  ∧ (∀ item, item ∈ items →
       is_Some (tbl_products t !! SaleItem.product_id item))
  ∧ (∀ product_id,
       tbl_products t' !! product_id
       = (λ r, products.set_quantity r
                 (products.quantity r - sold items product_id))
         <$> tbl_products t !! product_id).

(** The rows [t'] are the rows [t] plus the sale [sale]: its [sales]
    row under the new key [sale_id], and its lines recorded. *)
Definition sale_recorded (sale : Sale.t money) (sale_id first_item : Z)
    (t t' : Tables money) : Prop :=
  tbl_sales t !! sale_id = None
  ∧ tbl_sales t' = <[sale_id := sale_row sale]> (tbl_sales t)
  ∧ lines_recorded sale_id first_item (Sale.items sale) t t'.

(** [w'] differs from [w] at most in the counters and the fault plan:
    nothing was committed. *)
Definition nothing_committed (w w' : World money) : Prop :=
  tables w' = tables w
  ∧ found_rows w' = found_rows w
  ∧ current_session w' = current_session w.

(** [w'] differs from [w] at most in the fault plan: no statement that
    writes was even run. *)
Definition nothing_written (w w' : World money) : Prop :=
  nothing_committed w w' ∧ counters w' = counters w.

(** However the computation [m] ends, the world it leaves is related
    by [R] to the world it started in. *)
Definition keeps (R : relation (World money)) {A} (m : M money A) : Prop :=
  ∀ w r w', m w = (r, w') → R w w'.

(** The line [b] is the line [a] up to the displayed product name. *)
Definition renamed (a b : SaleItem.t money) : Prop :=
  b = SaleItem.set_product_name a (SaleItem.product_name b).

(** Quantity times unit price of a persisted line. *)
Definition row_total (r : sale_items.row money) : money :=
  money_scale (sale_items.quantity r) (sale_items.unit_price r).

(** What the caller is handed, the draft left aside. *)
Definition answer {A B} (r : outcome (A * B)) : outcome A :=
  match r with
  | Returned (a, _) => Returned a
  | Raised e => Raised e
  end.

(** The draft [create_sale] hands to the repository: the operator and
    the recomputed total are set, and the validated lines [items]
    replace the lines of [sale]. *)
Definition prepared (sale : Sale.t money) (session : auth.Session)
    (items : list (SaleItem.t money)) : Sale.t money :=
  Sale.set_items
    (Sale.calculate_total
       (Sale.set_user_id sale (User.id (auth.user session))))
    items.

(** An exception that is not the permission wrapper's got out. *)
Definition escaped {A} (r : outcome A) : Prop :=
  ∃ e, r = Raised e ∧ e ≠ PermissionError.

(** The result pair of a commit that failed. *)
Definition failed {A} (r : outcome ((bool * option Z) * A)) : Prop :=
  ∃ a, r = Returned ((false, None), a).

(** Every line of a cart has a quantity of at least one. *)
Definition lines_positive (sale : Sale.t money) : Prop :=
  Forall (λ item, 1 ≤ SaleItem.quantity item) (Sale.items sale).

(** No two lines of a cart are for the same product. *)
Definition lines_distinct (sale : Sale.t money) : Prop :=
  NoDup (SaleItem.product_id <$> Sale.items sale).

(** The operations of the core that write to the store. *)
Inductive core_op :=
| CreateProduct (product : Product.t money)
| UpdateProduct (product : Product.t money)
| UpdateStock (product_id quantity_change : Z)
| CreateSale (sale : Sale.t money).

(** The world after the operation, whatever it answered. *)
Definition run_core_op (op : core_op) (w : World money) : World money :=
  match op with
  | CreateProduct product => (inventory_service.create_product product w).2
  | UpdateProduct product => (inventory_service.update_product product w).2
  | UpdateStock p d => (inventory_service.update_stock p d w).2
  | CreateSale sale => (sales_service.create_sale sale w).2
  end.

(** The drafts the cart produces: one line per product. *)
Definition one_line_per_product (op : core_op) : Prop :=
  match op with
  | CreateSale sale => lines_distinct sale
  | _ => True
  end.

(** A cart operation of the sales screen. *)
Inductive cart_op :=
| AddProduct (product_id quantity : Z)
| RemoveProduct (product_id : Z) (quantity : option Z).

Definition run_cart_op (op : cart_op) (sale : Sale.t money)
    : M money (bool * Sale.t money) :=
  match op with
  | AddProduct p q => sales_service.add_product_to_sale sale p q
  | RemoveProduct p q => sales_service.remove_product_from_sale sale p q
  end.

(** The quantity arguments a checked caller passes: an added quantity
    is at least one. *)
Definition positive_add (op : cart_op) : Prop :=
  match op with
  | AddProduct _ q => 1 ≤ q
  | RemoveProduct _ _ => True
  end.

(** Carts reached from [sale0] by cart operations, each run in a world
    of its own (the store may change between two operations); [P]
    restricts the operations. *)
Inductive cart_reaches (P : cart_op → Prop) (sale0 : Sale.t money)
    : Sale.t money → Prop :=
| cart_start : cart_reaches P sale0 sale0
| cart_next sale op w b sale' w' :
    cart_reaches P sale0 sale →
    P op →
    run_cart_op op sale w = (Returned (b, sale'), w') →
    cart_reaches P sale0 sale'.
End predicates.
End properties.

(** ** A small shop, to run the model on *)

Module examples.
Import storage runtime.

(** A manager holds both [sales_create] and [inventory_edit]. *)
Definition operator : auth.Session :=
  auth.login (User.mk 7 "ann" "manager" true).

(** Five packets of tea at 10.00 and two mugs at 4.50, in cents. *)
Definition shelves : Tables Z :=
  mkTables
    (<[1 := products.mk (Some "111") "tea" 1000 5]>
       (<[2 := products.mk (Some "222") "mug" 450 2]> ∅))
    ∅ ∅.

(** The shop with [operator] logged in, a connection pool with the
    connector's default flags, and the storage fault plan [plan]. *)
Definition shop_with (plan : list bool) : World Z :=
  mkWorld shelves (mkCounters 3 1 1) false (Some operator) plan.

Definition shop : World Z := shop_with [].

(** [Sale(user_id=7)] *)
Definition empty_cart : Sale.t Z := Sale.mk None 7 0 "cash" [].

Definition line (product_id : Z) (name : string) (quantity price : Z)
    : SaleItem.t Z :=
  SaleItem.mk None None product_id name quantity price.

Definition cart_of (lines : list (SaleItem.t Z)) : Sale.t Z :=
  Sale.set_items empty_cart lines.
End examples.

(** ** Predicates for the rest of the services *)

Module conventions.
Import storage runtime properties.

Section predicates.
Context `{Money money}.

(** The computation never raises. *)
Definition never_raises {A} (m : M money A) : Prop :=
  ∀ w e w', m w ≠ (Raised e, w').

(** A function wrapped by [require_permission(permission)], seen from
    its caller: with the permission it returns, without it the wrapper
    raises [PermissionError] before anything is done. *)
Definition guarded (permission : string) {A} (m : M money A) : Prop :=
  ∀ w,
    (permitted permission w → ∃ a w', m w = (Returned a, w'))
    ∧ (¬ permitted permission w → m w = (Raised PermissionError, w)).

(** A wrapped function whose body has an [except] block that can raise,
    seen from its caller: without the permission it is as [guarded];
    with it the function returns, or an exception that is not the
    wrapper's gets out, which takes a storage fault. *)
Definition guarded_unless_faults (permission : string) {A} (m : M money A)
    : Prop :=
  ∀ w,
    (permitted permission w →
       (∃ a w', m w = (Returned a, w'))
       ∨ (∃ e w', m w = (Raised e, w') ∧ e ≠ PermissionError
                  ∧ ¬ storage_up w))
    ∧ (¬ permitted permission w → m w = (Raised PermissionError, w)).

(** No product carries the barcode [code], except perhaps [self]. *)
Definition barcode_free (t : Tables money) (self : option Z)
    (code : option string) : Prop :=
  ∀ c, code = Some c →
    map_Forall (λ k r, Some k = self ∨ products.barcode r ≠ Some c)
      (tbl_products t).

(** The fields [create_product] and [update_product] accept. *)
Definition valid_fields (product : Product.t money) : Prop :=
  Product.name product ≠ ""
  ∧ money_ltb (Product.price product) (money_of_int 0) = false
  ∧ 0 ≤ Product.quantity product.

(** The AUTO_INCREMENT counters are past every key in use. *)
Definition counters_fresh (w : World money) : Prop :=
  (∀ k, next_product_id (counters w) ≤ k →
     tbl_products (tables w) !! k = None)
  ∧ (∀ k, next_sale_id (counters w) ≤ k → tbl_sales (tables w) !! k = None)
  ∧ (∀ k, next_sale_item_id (counters w) ≤ k →
       tbl_sale_items (tables w) !! k = None).

(** Every line in the store belongs to a sale in the store. *)
Definition lines_linked (t : Tables money) : Prop :=
  map_Forall (λ _ r, is_Some (tbl_sales t !! sale_items.sale_id r))
    (tbl_sale_items t).

(** No line in the store is for the product. *)
Definition unreferenced (product_id : Z) (t : Tables money) : Prop :=
  map_Forall (λ _ r, sale_items.product_id r ≠ product_id)
    (tbl_sale_items t).

(** The lines [items] as a reader finds them once they are stored under
    the keys from [first_item] on and linked to [sale_id]. *)
Definition persisted (sale_id first_item : Z)
    (items : list (SaleItem.t money)) : list (SaleItem.t money) :=
  imap (λ i item,
          SaleItem.mk (Some (first_item + Z.of_nat i)) (Some sale_id)
            (SaleItem.product_id item) (SaleItem.product_name item)
            (SaleItem.quantity item) (SaleItem.unit_price item))
    items.

(** Every line passes the checks of [create_sale] against the rows. *)
Definition lines_pass (t : Tables money) (items : list (SaleItem.t money))
    : Prop :=
  Forall (λ item, ¬ line_fails t item) items.
End predicates.

(** Names compared character by character. *)
#[global] Instance lexicographic : Collation := {
  name_le a b := String.leb a b = true;
  name_le_dec a b := decide (String.leb a b = true)
}.
End conventions.

(** ** More goods and drafts for the small shop *)

Module stockroom.
Import storage runtime properties examples.

(** The rows of [shelves]. *)
Definition tea_row : products.row Z := products.mk (Some "111") "tea" 1000 5.
Definition mug_row : products.row Z := products.mk (Some "222") "mug" 450 2.

(** A product the shop does not carry yet. *)
Definition jam : Product.t Z := Product.mk None (Some "333") "jam" 300 4.

(** A product without a name. *)
Definition nameless : Product.t Z := Product.mk None None "" 100 1.

(** A second product under the barcode of the tea. *)
Definition tea_bags : Product.t Z :=
  Product.mk None (Some "111") "tea bags" 800 9.

(** The tea at a new price. *)
Definition dearer_tea : Product.t Z :=
  Product.mk (Some 1) (Some "111") "tea" 1200 5.

(** Three packets of tea in the cart. *)
Definition tea_cart : Sale.t Z := cart_of [line 1 "tea" 3 1000].

(** The shop once [tea_cart] has been paid. *)
Definition shop_after_sale : World Z :=
  (sales_service.create_sale tea_cart shop).2.
End stockroom.

(** * Verification *)

(** ** Reasoning about runs *)

Section runs.
Import storage runtime properties.
Context `{Money money}.

Implicit Types (w : World money) (t : Tables money) (conn : Conn money).

(** A run either raises in its first part or goes on with the second. *)
Lemma bind_inv {A B} (m : M money A) (f : A → M money B) w r w' :
  (m ≫= f) w = (r, w') →
  (∃ e, m w = (Raised e, w') ∧ r = Raised e)
  ∨ (∃ a w1, m w = (Returned a, w1) ∧ f a w1 = (r, w')).
Proof.
  unfold mbind, M_bind. destruct (m w) as [[a|e] w1]; intros Hrun.
  - right. eauto.
  - left. exists e. by simplify_eq.
Qed.

(** Running a sequence runs its first part, then the rest. *)
Lemma bind_run {A B} (m : M money A) (f : A → M money B) w :
  (m ≫= f) w
  = match m w with
    | (Returned a, w') => f a w'
    | (Raised e, w') => (Raised e, w')
    end.
Proof. done. Qed.

Lemma try_except_inv {A} (body : M money A) handler w r w' :
  try_except body handler w = (r, w') →
  (∃ a, body w = (Returned a, w') ∧ r = Returned a)
  ∨ (∃ e w1, body w = (Raised e, w1) ∧ handler e w1 = (r, w')).
Proof.
  unfold try_except. destruct (body w) as [[a|e] w1]; intros Hrun.
  - left. exists a. by simplify_eq.
  - right. eauto.
Qed.

#[local] Instance nothing_committed_preorder :
  PreOrder (nothing_committed (money:=money)).
Proof.
  split.
  - by intros w.
  - intros w1 w2 w3 (?&?&?) (?&?&?). repeat split; congruence.
Qed.

#[local] Instance nothing_written_preorder :
  PreOrder (nothing_written (money:=money)).
Proof.
  split.
  - by intros w.
  - intros w1 w2 w3 [? ?] [? ?]. split; [by etrans|congruence].
Qed.

#[local] Instance calm_preorder : PreOrder (calm (money:=money)).
Proof.
  split.
  - by intros w Hup.
  - intros w1 w2 w3 H12 H23 Hup. by apply H23, H12.
Qed.

Section keeps.
Context (R : relation (World money)) `{!PreOrder R}.

Lemma keeps_ret {A} (a : A) : keeps R (mret a : M money A).
Proof. by intros w r w' [= <- <-]. Qed.

Lemma keeps_raise {A} e : keeps R (raise e : M money A).
Proof. by intros w r w' [= <- <-]. Qed.

Lemma keeps_get_world : keeps R (get_world (money:=money)).
Proof. by intros w r w' [= <- <-]. Qed.

Lemma keeps_bind {A B} (m : M money A) (f : A → M money B) :
  keeps R m → (∀ a, keeps R (f a)) → keeps R (m ≫= f).
Proof.
  intros Hm Hf w r w' Hrun.
  destruct (bind_inv _ _ _ _ _ Hrun) as [(e&Hm1&_)|(a&w1&Hm1&Hf1)].
  - by eapply Hm.
  - etrans; [by eapply Hm | by eapply Hf].
Qed.

Lemma keeps_try_except {A} (body : M money A) handler :
  keeps R body → (∀ e, keeps R (handler e)) →
  keeps R (try_except body handler).
Proof.
  intros Hb Hh w r w' Hrun.
  destruct (try_except_inv _ _ _ _ _ Hrun) as [(a&Hb1&_)|(e&w1&Hb1&Hh1)].
  - by eapply Hb.
  - etrans; [by eapply Hb | by eapply Hh].
Qed.

Lemma keeps_require_permission {A} p (m : M money A) :
  keeps R m → keeps R (require_permission p m).
Proof.
  intros Hm w r w'. unfold require_permission.
  destruct (auth.check_permission _ _); [apply Hm|].
  by intros [= <- <-].
Qed.
End keeps.

Ltac keeps_done :=
  first [apply keeps_ret | apply keeps_raise | apply keeps_get_world];
  apply _.

Lemma keeps_catch (R : relation (World money)) `{!PreOrder R} {A B}
    (body : M money A) (ok : A → M money B) err :
  keeps R body → (∀ a, keeps R (ok a)) → (∀ e, keeps R (err e)) →
  keeps R (catch body ok err).
Proof.
  intros Hb Hok Herr w r w'. unfold catch.
  destruct (body w) as [[a|e] w1] eqn:Hbody; intros Hrun.
  - etrans; [by eapply Hb | by eapply Hok].
  - etrans; [by eapply Hb | by eapply Herr].
Qed.

Lemma keeps_weaken {A} (m : M money A) :
  keeps nothing_written m → keeps nothing_committed m.
Proof. intros Hm w r w' Hrun. by apply (Hm w r w'). Qed.

Lemma quiet_uncommitted {A} (m : M money A) w r w' :
  keeps nothing_written m → m w = (r, w') → nothing_committed w w'.
Proof. intros Hm Hrun. by apply (Hm w r w'). Qed.

(** *** Reads write nothing *)

Lemma storage_call_quiet : keeps nothing_written (storage_call (money:=money)).
Proof.
  intros w r w'. unfold storage_call.
  destruct (faults w) as [|[] rest]; intros [= <- <-]; by repeat split.
Qed.

Lemma get_connection_quiet :
  keeps nothing_written (get_connection (money:=money)).
Proof.
  unfold get_connection.
  apply keeps_bind; [apply _|apply storage_call_quiet|]. intros _.
  apply keeps_bind; [apply _|keeps_done|]. intros w.
  keeps_done.
Qed.

Lemma cursor_quiet conn : keeps nothing_written (cursor conn).
Proof. apply storage_call_quiet. Qed.

Lemma cursor_close_quiet conn : keeps nothing_written (cursor_close conn).
Proof. apply storage_call_quiet. Qed.

Lemma close_quiet conn : keeps nothing_written (close conn).
Proof. apply storage_call_quiet. Qed.

Lemma rollback_quiet conn : keeps nothing_written (rollback conn).
Proof. apply storage_call_quiet. Qed.

Lemma is_connected_quiet conn : keeps nothing_written (is_connected conn).
Proof.
  unfold is_connected.
  apply keeps_try_except; [apply _| |intros; keeps_done].
  apply keeps_bind; [apply _|apply storage_call_quiet|]. intros _.
  keeps_done.
Qed.

(** [cursor.close()] then [conn.close()], and what follows. *)
Lemma release_quiet {A} conn (k : M money A) :
  keeps nothing_written k →
  keeps nothing_written (cursor_close conn ;; close conn ;; k).
Proof.
  intros Hk.
  apply keeps_bind; [apply _|apply cursor_close_quiet|]. intros _.
  apply keeps_bind; [apply _|apply close_quiet|]. by intros _.
Qed.

Lemma execute_query_quiet {A} conn (q : Tables money → A) :
  keeps nothing_written (execute_query conn q).
Proof.
  unfold execute_query.
  apply keeps_bind; [apply _|apply storage_call_quiet|]. intros _.
  keeps_done.
Qed.

Lemma execute_update_quiet conn stmt :
  keeps nothing_written (execute_update conn stmt).
Proof.
  unfold execute_update.
  apply keeps_bind; [apply _|apply storage_call_quiet|]. intros _.
  apply keeps_bind; [apply _|keeps_done|]. intros w.
  destruct (stmt _ _) as [[t n]|];
    [keeps_done | keeps_done].
Qed.

Lemma get_by_id_quiet product_id :
  keeps nothing_written (product_repo.get_by_id (money:=money) product_id).
Proof.
  unfold product_repo.get_by_id.
  apply keeps_try_except; [apply _| |intros; keeps_done].
  apply keeps_bind; [apply _|apply get_connection_quiet|]. intros conn.
  apply keeps_bind; [apply _|apply cursor_quiet|]. intros _.
  apply keeps_bind; [apply _|apply execute_query_quiet|]. intros [r|];
    apply release_quiet; keeps_done.
Qed.

Lemma get_by_barcode_quiet code :
  keeps nothing_written (product_repo.get_by_barcode (money:=money) code).
Proof.
  unfold product_repo.get_by_barcode.
  apply keeps_try_except; [apply _| |intros; keeps_done].
  apply keeps_bind; [apply _|apply get_connection_quiet|]. intros conn.
  apply keeps_bind; [apply _|apply cursor_quiet|]. intros _.
  apply keeps_bind; [apply _|apply execute_query_quiet|]. intros [[k r]|];
    apply release_quiet; keeps_done.
Qed.

Lemma validate_items_quiet items :
  keeps nothing_written (sales_service.validate_items (money:=money) items).
Proof.
  induction items as [|item rest IH]; simpl.
  - keeps_done.
  - apply keeps_bind; [apply _|apply get_by_id_quiet|]. intros [p|];
      [|keeps_done].
    case_bool_decide; [keeps_done|].
    apply keeps_bind; [apply _|apply IH|]. intros [ok rest'].
    keeps_done.
Qed.

(** *** A transaction commits nothing before its [commit] *)

Lemma fresh_id_uncommitted tb :
  keeps nothing_committed (fresh_id (money:=money) tb).
Proof. intros w r w' [= <- <-]. by repeat split. Qed.

Lemma execute_insert_uncommitted conn tb stmt :
  keeps nothing_committed (execute_insert conn tb stmt).
Proof.
  unfold execute_insert.
  apply keeps_bind;
    [apply _|apply keeps_weaken, storage_call_quiet|]. intros _.
  apply keeps_bind; [apply _|apply fresh_id_uncommitted|]. intros k.
  destruct (stmt _ _) as [t|];
    [keeps_done | keeps_done].
Qed.

Lemma insert_items_uncommitted sale_id items conn :
  keeps nothing_committed (sales_repo.insert_items sale_id items conn).
Proof.
  revert conn. induction items as [|item rest IH]; intros conn; simpl.
  - keeps_done.
  - apply keeps_bind; [apply _|apply execute_insert_uncommitted|].
    intros [c1 ?].
    apply keeps_bind;
      [apply _|apply keeps_weaken, execute_update_quiet|]. intros [c2 ?].
    apply IH.
Qed.

(** *** What a round trip that returned has done *)

Lemma get_connection_returned w conn w' :
  get_connection w = (Returned conn, w') →
  view conn = tables w ∧ nothing_written w w'.
Proof.
  unfold get_connection. intros Hrun.
  apply bind_inv in Hrun as [(e&_&[=])|([]&w1&Hcall&Hrun)].
  apply storage_call_quiet in Hcall as ((Ht&?&?)&?).
  injection Hrun as <- <-. simpl. by rewrite Ht.
Qed.

(** [conn = get_connection()], [cursor = conn.cursor()] and what
    follows, in a run that returned. *)
Lemma connect_returned {A} (k : Conn money → M money A) w a w' :
  (conn ← get_connection; cursor conn ;; k conn) w = (Returned a, w') →
  ∃ conn w1,
    view conn = tables w ∧ nothing_written w w1
    ∧ k conn w1 = (Returned a, w').
Proof.
  intros Hrun.
  apply bind_inv in Hrun as [(e&_&[=])|(conn&w1&Hconn&Hrun)].
  apply get_connection_returned in Hconn as (Hv&Hnw1).
  apply bind_inv in Hrun as [(e&_&[=])|([]&w2&Hcur&Hrun)].
  apply cursor_quiet in Hcur.
  exists conn, w2. split; [done|]. split; [by etrans|done].
Qed.

(** [cursor.close()], [conn.close()] and what follows, in a run that
    returned. *)
Lemma release_returned {A} conn (k : M money A) w a w' :
  (cursor_close conn ;; close conn ;; k) w = (Returned a, w') →
  ∃ w1, nothing_written w w1 ∧ k w1 = (Returned a, w').
Proof.
  intros Hrun.
  apply bind_inv in Hrun as [(e&_&[=])|([]&w1&Hcur&Hrun)].
  apply cursor_close_quiet in Hcur.
  apply bind_inv in Hrun as [(e&_&[=])|([]&w2&Hclose&Hrun)].
  apply close_quiet in Hclose.
  exists w2. split; [by etrans|done].
Qed.

Lemma execute_query_returned {A} conn (q : Tables money → A) w a w' :
  execute_query conn q w = (Returned a, w') →
  a = q (view conn) ∧ nothing_written w w'.
Proof.
  intros Hrun. split; [|by eapply execute_query_quiet].
  unfold execute_query in Hrun.
  by apply bind_inv in Hrun as [(e&_&[=])|([]&w3&_&[= <- <-])].
Qed.

Lemma execute_update_returned conn stmt w conn' n w' :
  execute_update conn stmt w = (Returned (conn', n), w') →
  stmt (found_rows w) (view conn) = Some (view conn', n)
  ∧ nothing_written w w'.
Proof.
  unfold execute_update. intros Hrun.
  apply bind_inv in Hrun as [(e&_&[=])|([]&w1&Hcall&Hrun)].
  apply storage_call_quiet in Hcall as ((?&Hfr&?)&?).
  apply bind_inv in Hrun as [(e&_&[=])|(w2&w3&[= <- <-]&Hrun)].
  rewrite Hfr in Hrun.
  destruct (stmt _ _) as [[t k]|]; [|done].
  injection Hrun as <- <- <-. by repeat split.
Qed.

Lemma execute_insert_returned conn tb stmt w conn' k w' :
  execute_insert conn tb stmt w = (Returned (conn', k), w') →
  k = next_id tb (counters w)
  ∧ stmt k (view conn) = Some (view conn')
  ∧ counters w' = bump tb (counters w)
  ∧ nothing_committed w w'.
Proof.
  unfold execute_insert. intros Hrun.
  apply bind_inv in Hrun as [(e&_&[=])|([]&w1&Hcall&Hrun)].
  apply storage_call_quiet in Hcall as ((?&?&?)&Hc).
  apply bind_inv in Hrun as [(e&_&[=])|(k'&w2&[= <- <-]&Hrun)].
  simpl in Hrun. rewrite Hc in Hrun.
  destruct (stmt _ _) as [t|] eqn:Hstmt; [|done].
  injection Hrun as <- <- <-. by repeat split.
Qed.

Lemma commit_inv conn w r w' :
  commit conn w = (r, w') →
  (r = Returned () ∧ tables w' = view conn)
  ∨ ((∃ e, r = Raised e) ∧ nothing_written w w').
Proof.
  unfold commit. intros Hrun.
  apply bind_inv in Hrun as [(e&Hcall&->)|([]&w1&Hcall&Hrun)].
  - right. split; [eauto|]. by eapply storage_call_quiet.
  - left. by injection Hrun as <- <-.
Qed.

(** *** The statements of the sale transaction *)

Lemma insert_sale_Some (r : sales.row money) k t t' :
  insert_sale r k t = Some t' →
  tbl_sales t !! k = None
  ∧ t' = set_sales t (<[k := r]> (tbl_sales t)).
Proof.
  unfold insert_sale. case_bool_decide as Hk; [done|]. intros [= <-].
  split; [|done]. by apply eq_None_not_Some.
Qed.

Lemma insert_sale_item_Some (r : sale_items.row money) k t t' :
  insert_sale_item r k t = Some t' →
  tbl_sale_items t !! k = None
  ∧ is_Some (tbl_products t !! sale_items.product_id r)
  ∧ t' = set_sale_items t (<[k := r]> (tbl_sale_items t)).
Proof.
  unfold insert_sale_item. repeat case_bool_decide; try done.
  intros [= <-]. split; [by apply eq_None_not_Some|done].
Qed.

Lemma sold_cons (item : SaleItem.t money) rest product_id :
  sold (item :: rest) product_id
  = (if decide (SaleItem.product_id item = product_id)
     then SaleItem.quantity item else 0) + sold rest product_id.
Proof. simpl. case_decide; lia. Qed.

(** The loop of [create_sale_with_items], when it runs to its end. *)
Lemma insert_items_returned sale_id items :
  ∀ conn w conn' w',
    sales_repo.insert_items sale_id items conn w = (Returned conn', w') →
    tbl_sales (view conn') = tbl_sales (view conn)
    ∧ lines_recorded sale_id (next_sale_item_id (counters w)) items
        (view conn) (view conn').
Proof.
  induction items as [|item rest IH]; intros conn w conn' w' Hrun.
  - injection Hrun as <- <-. split; [done|].
    split; [|split; [|split]].
    + intros i item [=].
    + done.
    + intros item Hin. by apply elem_of_nil in Hin.
    + intros p. simpl. destruct (tbl_products _ !! p) as [[]|]; simpl; [|done].
      unfold products.set_quantity. simpl. do 2 f_equal. lia.
  - simpl in Hrun.
    apply bind_inv in Hrun as [(e&_&[=])|([c1 k]&w1&Hins&Hrun)].
    apply execute_insert_returned in Hins as (->&Hins&Hc1&_).
    apply insert_sale_item_Some in Hins as (Hfresh&[old Hold]&Hv1).
    simpl in Hold.
    apply bind_inv in Hrun as [(e&_&[=])|([c2 n]&w2&Hupd&Hrun)].
    apply execute_update_returned in Hupd as (Hupd&_&Hc2).
    unfold update_sub_quantity in Hupd. rewrite Hv1 in Hupd. simpl in Hupd.
    rewrite Hold in Hupd. injection Hupd as Hv2 _.
    apply IH in Hrun as (Hsales&Hrows&Hout&Hexist&Hstock).
    rewrite Hc2, Hc1 in Hrows, Hout. simpl in Hrows, Hout.
    rewrite <- Hv2 in Hsales, Hrows, Hout, Hexist, Hstock.
    simpl in Hsales, Hrows, Hout, Hexist, Hstock.
    set (k := next_sale_item_id (counters w)) in *.
    split; [done|].
    split; [|split; [|split]].
    + intros [|j] item'; simpl; intros Hi.
      * injection Hi as <-. rewrite Z.add_0_r. split; [done|].
        rewrite Hout by lia. by rewrite lookup_insert_eq.
      * destruct (Hrows j item' Hi) as [Hnone Hsome].
        rewrite lookup_insert_ne in Hnone by lia.
        by replace (k + Z.of_nat (S j)) with (k + 1 + Z.of_nat j) by lia.
    + intros k' Hk'. simpl in Hk'.
      rewrite Hout by lia. by rewrite lookup_insert_ne by lia.
    + intros item' [->|Hin]%elem_of_cons; [by rewrite Hold|].
      apply Hexist in Hin.
      destruct (decide (SaleItem.product_id item = SaleItem.product_id item'))
        as [<-|Hne]; [by rewrite Hold|].
      by rewrite lookup_insert_ne in Hin.
    + intros p. rewrite Hstock, sold_cons.
      destruct (decide (SaleItem.product_id item = p)) as [<-|Hne].
      * rewrite lookup_insert_eq, Hold. simpl.
        unfold products.set_quantity. simpl. do 2 f_equal. lia.
      * rewrite lookup_insert_ne by done.
        destruct (tbl_products _ !! p) as [r|]; simpl; [|done].
        do 2 f_equal.
Qed.

(** *** Calls use up the fault plan *)

Lemma storage_call_consumes w w' :
  storage_call w = (Returned (), w') → faults w' = drop 1 (faults w).
Proof.
  unfold storage_call. destruct (faults w) as [|[] rest] eqn:Hf;
    intros [= <-]; simpl; by rewrite ?Hf.
Qed.

Lemma storage_call_raised w e w' :
  storage_call w = (Raised e, w') → ¬ storage_up w.
Proof.
  unfold storage_call, storage_up.
  destruct (faults w) as [|[] rest]; intros [= <- <-]; try done.
  by intros [[=] _]%Forall_cons_1.
Qed.

Lemma get_connection_consumes w conn w' :
  get_connection w = (Returned conn, w') → faults w' = drop 1 (faults w).
Proof.
  unfold get_connection. intros Hrun.
  apply bind_inv in Hrun as [(e&_&[=])|([]&w1&Hcall&Hrun)].
  apply storage_call_consumes in Hcall. by injection Hrun as <- <-.
Qed.

Lemma execute_insert_consumes conn tb stmt w a w' :
  execute_insert conn tb stmt w = (Returned a, w') →
  faults w' = drop 1 (faults w).
Proof.
  unfold execute_insert. intros Hrun.
  apply bind_inv in Hrun as [(e&_&[=])|([]&w1&Hcall&Hrun)].
  apply storage_call_consumes in Hcall.
  apply bind_inv in Hrun as [(e&_&[=])|(k'&w2&[= <- <-]&Hrun)].
  destruct (stmt _ _) as [t|]; [|done]. by injection Hrun as <- <-.
Qed.

Lemma execute_update_consumes conn stmt w a w' :
  execute_update conn stmt w = (Returned a, w') →
  faults w' = drop 1 (faults w).
Proof.
  unfold execute_update. intros Hrun.
  apply bind_inv in Hrun as [(e&_&[=])|([]&w1&Hcall&Hrun)].
  apply storage_call_consumes in Hcall.
  apply bind_inv in Hrun as [(e&_&[=])|(w2&w3&[= <- <-]&Hrun)].
  destruct (stmt _ _) as [[t k]|]; [|done]. by injection Hrun as <- <-.
Qed.

Lemma commit_consumes conn w w' :
  commit conn w = (Returned (), w') → faults w' = drop 1 (faults w).
Proof.
  unfold commit. intros Hrun.
  apply bind_inv in Hrun as [(e&_&[=])|([]&w1&Hcall&Hrun)].
  apply storage_call_consumes in Hcall. by injection Hrun as <-.
Qed.

Lemma insert_items_consumes sale_id items :
  ∀ conn w conn' w',
    sales_repo.insert_items sale_id items conn w = (Returned conn', w') →
    faults w' = drop (2 * length items) (faults w).
Proof.
  induction items as [|item rest IH]; intros conn w conn' w' Hrun.
  - by injection Hrun as <- <-.
  - simpl in Hrun.
    apply bind_inv in Hrun as [(e&_&[=])|([c1 k]&w1&Hins&Hrun)].
    apply execute_insert_consumes in Hins.
    apply bind_inv in Hrun as [(e&_&[=])|([c2 n]&w2&Hupd&Hrun)].
    apply execute_update_consumes in Hupd.
    apply IH in Hrun. rewrite Hrun, Hupd, Hins, !drop_drop.
    f_equal. simpl. lia.
Qed.

Lemma storage_up_after_drop n w w1 :
  faults w1 = drop n (faults w) → storage_up_after n w → storage_up w1.
Proof. unfold storage_up_after, storage_up. by intros ->. Qed.

Lemma storage_up_after_S n w w1 :
  faults w1 = drop n (faults w) → storage_up_after n w → storage_up_after 1 w1.
Proof.
  unfold storage_up_after. intros -> Hup. by apply Forall_drop.
Qed.

(** ** Sale commit *)

(** What is raised by the repository is not the wrapper's exception. *)
Lemma escaped_raised {A} e : e ≠ PermissionError → escaped (@Raised A e).
Proof. intros He. by exists e. Qed.

(** The [except] block of [create_sale_with_items] writes nothing; it
    answers [(False, None)] or lets an exception of its own calls
    out. *)
Lemma on_error_inv conn cursor_bound w r w' :
  sales_repo.on_error conn cursor_bound w = (r, w') →
  nothing_written w w' ∧ (r = Returned (false, None) ∨ escaped r).
Proof.
  unfold sales_repo.on_error. intros Hrun.
  apply bind_inv in Hrun as [(e&Hping&->)|(connected&w1&Hping&Hrun)].
  { unfold is_connected in Hping.
    apply try_except_inv in Hping as [(a&_&[=])|(e'&w1&_&[=])]. }
  apply is_connected_quiet in Hping.
  destruct connected; [|injection Hrun as <- <-; split; [done|by left]].
  apply bind_inv in Hrun as [(e&Hroll&->)|([]&w2&Hroll&Hrun)].
  { pose proof (rollback_quiet _ _ _ _ Hroll) as Hnw.
    split; [by etrans|]. right. apply escaped_raised.
    unfold rollback, storage_call in Hroll.
    destruct (faults w1) as [|[] ?]; by simplify_eq. }
  apply rollback_quiet in Hroll.
  apply bind_inv in Hrun as [(e&Hcur&->)|([]&w3&Hcur&Hrun)].
  { destruct cursor_bound.
    - pose proof (cursor_close_quiet _ _ _ _ Hcur) as Hnw.
      split; [by etrans; [|etrans]|]. right. apply escaped_raised.
      unfold cursor_close, storage_call in Hcur.
      destruct (faults w2) as [|[] ?]; by simplify_eq.
    - injection Hcur as <- <-. split; [by etrans|].
      right. by apply escaped_raised. }
  assert (nothing_written w2 w3) as Hnw3.
  { destruct cursor_bound; [by eapply cursor_close_quiet|done]. }
  apply bind_inv in Hrun as [(e&Hclose&->)|([]&w4&Hclose&Hrun)].
  { pose proof (close_quiet _ _ _ _ Hclose) as Hnw.
    split; [by etrans; [|etrans; [|etrans]]|]. right. apply escaped_raised.
    unfold close, storage_call in Hclose.
    destruct (faults w3) as [|[] ?]; by simplify_eq. }
  apply close_quiet in Hclose. injection Hrun as <- <-.
  split; [by etrans; [|etrans; [|etrans]]|by left].
Qed.

(** The statements of the transaction: either one of them raises before
    anything is committed, or the [commit] goes through and the sale is
    recorded; what is raised after that comes from [cursor.close()]. *)
Lemma transaction_inv (sale : Sale.t money) conn w r w' :
  view conn = tables w →
  sales_repo.transaction sale conn w = (r, w') →
  ((∃ e, r = Raised e) ∧ nothing_committed w w')
  ∨ (sale_recorded sale (next_sale_id (counters w))
       (next_sale_item_id (counters w)) (tables w) (tables w')
     ∧ (r = Returned (next_sale_id (counters w))
        ∧ faults w' = drop (4 + 2 * length (Sale.items sale)) (faults w)
        ∨ (∃ e, r = Raised e)
          ∧ ¬ storage_up_after (3 + 2 * length (Sale.items sale)) w)).
Proof.
  unfold sales_repo.transaction. intros Hv0 Hrun.
  apply bind_inv in Hrun as [(e&Hstart&->)|([]&w2&Hstart&Hrun)].
  { left. split; [eauto|].
    by eapply quiet_uncommitted; [apply storage_call_quiet|]. }
  pose proof (storage_call_consumes _ _ Hstart) as Hf1.
  apply storage_call_quiet in Hstart as (Hnc1&Hc1).
  apply bind_inv in Hrun as [(e&Hins&->)|([c1 sale_id]&w3&Hins&Hrun)].
  { left. split; [eauto|]. etrans; [done|].
    by eapply execute_insert_uncommitted. }
  pose proof (execute_insert_consumes _ _ _ _ _ _ Hins) as Hf2.
  apply execute_insert_returned in Hins as (->&Hins&Hc2&Hnc2).
  apply insert_sale_Some in Hins as (Hfresh&Hv1).
  apply bind_inv in Hrun as [(e&Hloop&->)|(c2&w4&Hloop&Hrun)].
  { left. split; [eauto|]. etrans; [done|]. etrans; [done|].
    by eapply insert_items_uncommitted. }
  pose proof (insert_items_consumes _ _ _ _ _ _ Hloop) as Hf3.
  pose proof (insert_items_uncommitted _ _ _ _ _ _ Hloop) as Hnc3.
  apply insert_items_returned in Hloop as (Hsales&Hlines).
  apply bind_inv in Hrun as [(e&Hcommit&->)|([]&w5&Hcommit&Hrun)].
  { left. split; [eauto|].
    apply commit_inv in Hcommit as [([=]&_)|(_&Hnw&_)].
    etrans; [done|]. etrans; [done|]. by etrans. }
  pose proof (commit_consumes _ _ _ Hcommit) as Hf4.
  apply commit_inv in Hcommit as [(_&Ht)|((e&[=])&_)].
  assert (faults w5 = drop (3 + 2 * length (Sale.items sale)) (faults w))
    as Hf5.
  { rewrite Hf4, Hf3, Hf2, Hf1, !drop_drop. f_equal. lia. }
  assert (sale_recorded sale (next_sale_id (counters w))
            (next_sale_item_id (counters w)) (tables w) (tables w5))
    as Hrec.
  { rewrite Hc2, Hc1 in Hlines. simpl in *.
    rewrite Hv1, Hv0 in Hsales, Hlines. rewrite Hv0, Hc1 in Hfresh.
    rewrite Hc1 in *.
    rewrite Ht. split; [done|]. split; [done|]. exact Hlines. }
  right.
  apply bind_inv in Hrun as [(e&Hcur&->)|([]&w6&Hcur&Hrun)].
  - pose proof (cursor_close_quiet _ _ _ _ Hcur) as ((Ht6&_)&_).
    rewrite Ht6. split; [done|]. right. split; [eauto|].
    intros Hup. apply storage_call_raised in Hcur. apply Hcur.
    by eapply storage_up_after_drop.
  - pose proof (cursor_close_quiet _ _ _ _ Hcur) as ((Ht6&_)&_).
    apply storage_call_consumes in Hcur.
    injection Hrun as <- <-. rewrite Ht6. split; [done|]. left.
    split; [by rewrite Hc1|].
    rewrite Hcur, Hf5, drop_drop. f_equal. lia.
Qed.

(** [create_sale_with_items], however it ends: nothing is committed and
    the call did not succeed; or the whole sale is recorded, and then
    the call succeeded unless a call after the [commit] failed. *)
Lemma create_sale_with_items_inv (sale : Sale.t money) w r w' :
  sales_repo.create_sale_with_items sale w = (r, w') →
  ((r = Returned (false, None) ∨ escaped r) ∧ nothing_committed w w')
  ∨ (sale_recorded sale (next_sale_id (counters w))
       (next_sale_item_id (counters w)) (tables w) (tables w')
     ∧ (r = Returned (true, Some (next_sale_id (counters w)))
        ∨ (r = Returned (false, None) ∨ escaped r)
          ∧ ¬ storage_up_after (calls_to_commit sale) w)).
Proof.
  unfold sales_repo.create_sale_with_items, catch. intros Hrun.
  destruct (get_connection w) as [[conn|e0] w1] eqn:Hconn.
  2:{ injection Hrun as <- <-. left. split; [by left|].
      by eapply quiet_uncommitted; [apply get_connection_quiet|]. }
  pose proof (get_connection_consumes _ _ _ Hconn) as Hf1.
  apply get_connection_returned in Hconn as (Hv&Hnw1).
  destruct (cursor conn w1) as [[[]|e1] w2] eqn:Hcursor.
  2:{ apply cursor_quiet in Hcursor.
      apply on_error_inv in Hrun as [Hnw Hr]. left. split; [done|].
      assert (nothing_written w w') as [? _]; [|done].
      etrans; [done|]. by etrans. }
  pose proof (storage_call_consumes _ _ Hcursor) as Hf2.
  apply cursor_quiet in Hcursor.
  pose proof Hnw1 as ((Ht1&_)&Hc1). pose proof Hcursor as ((Ht2&_)&Hc2).
  destruct (sales_repo.transaction sale conn w2) as [[sale_id|e2] w3]
    eqn:Htx.
  - apply transaction_inv in Htx
      as [((e&[=])&_)|(Hrec&[([= ->]&Hf3)|((e&[=])&_)])];
      [|congruence].
    rewrite Hc2, Hc1, Ht2, Ht1 in Hrec. rewrite Hc2, Hc1 in Hrun.
    destruct (close conn w3) as [[[]|e3] w4] eqn:Hclose.
    + pose proof (close_quiet _ _ _ _ Hclose) as ((Ht4&_)&_).
      injection Hrun as <- <-. right. rewrite Ht4. split; [done|by left].
    + pose proof (close_quiet _ _ _ _ Hclose) as ((Ht4&_)&_).
      injection Hrun as <- <-. right. rewrite Ht4. split; [done|].
      right. split; [right; by apply escaped_raised|].
      intros Hup. apply storage_call_raised in Hclose. apply Hclose.
      unfold storage_up_after, calls_to_commit in Hup.
      unfold storage_up. rewrite Hf3, Hf2, Hf1, !drop_drop.
      replace (1 + (1 + (4 + 2 * length (Sale.items sale))))%nat
        with (5 + 2 * length (Sale.items sale) + 1)%nat by lia.
      rewrite <- drop_drop. by apply Forall_drop.
  - apply on_error_inv in Hrun as [Hnw4 Hr].
    pose proof Hnw4 as ((Ht4&_)&_).
    apply transaction_inv in Htx
      as [(_&Hnc)|(Hrec&[([=]&_)|(_&Hdown)])]; [| |congruence].
    + left. split; [done|].
      destruct Hnw1 as [Hnc1 _]. destruct Hcursor as [Hnc2 _].
      destruct Hnw4 as [Hnc4 _].
      etrans; [done|]. etrans; [done|]. by etrans.
    + right. rewrite Hc2, Hc1, Ht2, Ht1 in Hrec. rewrite Ht4.
      split; [done|]. right. split; [done|].
      intros Hup. apply Hdown.
      unfold storage_up_after, calls_to_commit in *.
      rewrite Hf2, Hf1, !drop_drop.
      by replace (1 + (1 + (3 + 2 * length (Sale.items sale))))%nat
        with (5 + 2 * length (Sale.items sale))%nat by lia.
Qed.


(** ** Commit-time validation *)

(** [get_by_id] never raises; it returns the committed row or, when the
    storage fails, [None]. *)
Lemma get_by_id_inv product_id w r w' :
  product_repo.get_by_id product_id w = (r, w') →
  nothing_written w w'
  ∧ (r = Returned None
     ∨ ∃ row, tbl_products (tables w) !! product_id = Some row
              ∧ r = Returned (Some (product_repo.of_row product_id row))).
Proof.
  intros Hrun. split; [by eapply get_by_id_quiet|].
  unfold product_repo.get_by_id in Hrun.
  apply try_except_inv in Hrun as [(a&Hrun&->)|(e&w1&Hrun&[= <- <-])];
    [|by left].
  apply connect_returned in Hrun as (conn&w1&Hv&_&Hrun).
  apply bind_inv in Hrun as [(e&_&[=])|(res&w2&Hq&Hrun)].
  apply execute_query_returned in Hq as [-> _].
  apply release_returned in Hrun as (w3&_&Hrun).
  unfold select_product in Hrun. rewrite Hv in Hrun.
  destruct (tbl_products (tables w) !! product_id) as [row|];
    injection Hrun as <- <-; eauto.
Qed.

Lemma renamed_refl (a : SaleItem.t money) : renamed a a.
Proof. by destruct a. Qed.

Lemma renamed_set_product_name (a : SaleItem.t money) n :
  renamed a (SaleItem.set_product_name a n).
Proof. by destruct a. Qed.

Lemma line_fails_frame t t' (item : SaleItem.t money) :
  t' = t → line_fails t' item ↔ line_fails t item.
Proof. by intros ->. Qed.

(** The validation loop of [create_sale] never raises and writes
    nothing; it changes product names only; it answers [False] as soon
    as one line fails a check. *)
Lemma validate_items_inv items :
  ∀ w r w',
    sales_service.validate_items items w = (r, w') →
    nothing_written w w'
    ∧ ∃ ok items',
        r = Returned (ok, items')
        ∧ Forall2 renamed items items'
        ∧ (ok = true → Forall (λ item, ¬ line_fails (tables w) item) items).
Proof.
  intros w r w' Hrun. split; [by eapply validate_items_quiet|].
  revert w r w' Hrun.
  induction items as [|item rest IH]; intros w r w' Hrun.
  - injection Hrun as <- <-. exists true, []. by repeat split.
  - simpl in Hrun.
    apply bind_inv in Hrun as [(e&Hget&_)|(p&w1&Hget&Hrun)].
    { apply get_by_id_inv in Hget as (_&[[=]|(?&_&[=])]). }
    apply get_by_id_inv in Hget as ((Ht&_)&[[= ->]|(row&Hrow&[= ->])]).
    { injection Hrun as <- <-. exists false, (item :: rest).
      split; [done|]. split; [|done].
      apply Forall2_same_length_lookup_2; [done|].
      intros i a b Ha Hb. rewrite Ha in Hb. injection Hb as <-.
      apply renamed_refl. }
    simpl in Hrun. case_bool_decide as Hq.
    { injection Hrun as <- <-. exists false, (item :: rest).
      split; [done|]. split; [|done].
      apply Forall2_same_length_lookup_2; [done|].
      intros i a b Ha Hb. rewrite Ha in Hb. injection Hb as <-.
      apply renamed_refl. }
    apply bind_inv in Hrun as [(e&Hrest&_)|([ok rest']&w2&Hrest&Hrun)].
    { apply IH in Hrest as (?&?&[=]&_). }
    apply IH in Hrest as (ok'&items'&[= -> ->]&Hren&Hok).
    injection Hrun as <- <-.
    exists ok', (SaleItem.set_product_name item (products.name row) :: items').
    split; [done|]. split.
    + constructor; [apply renamed_set_product_name|done].
    + intros Hok'. constructor.
      * unfold line_fails, stock. rewrite Hrow. simpl. lia.
      * destruct Ht as (Ht&_&_). rewrite Ht in Hok. by apply Hok.
Qed.

Lemma validate_items_rejects items w ok items' w' :
  sales_service.validate_items items w = (Returned (ok, items'), w') →
  Exists (line_fails (tables w)) items → ok = false.
Proof.
  intros Hrun Hex.
  apply validate_items_inv in Hrun as (_&ok'&its&[= <- <-]&_&Hok).
  destruct ok; [|done]. specialize (Hok eq_refl).
  apply Exists_exists in Hex as (item&Hin&Hfail).
  rewrite Forall_forall in Hok. by destruct (Hok item Hin).
Qed.

(** C4. Commit-time re-validation.  [create_sale] reads every line's
    product again from the Product Store.  When some line's product
    does not exist or has less quantity-on-hand than the line asks for,
    it fails without any write: the rows and the auto-increment counters
    are as before, the caller gets [(False, None)] (or the permission
    wrapper raised), and the world is the one in which the validation
    reads ended, so that [create_sale_with_items] was not called. *)
Theorem create_sale_revalidates (sale : Sale.t money) w r w' :
  sales_service.create_sale sale w = (r, w') →
  Exists (line_fails (tables w)) (Sale.items sale) →
  nothing_written w w'
  ∧ (r = Raised PermissionError ∧ w' = w
     ∨ failed r
       ∧ w' = (sales_service.validate_items (Sale.items sale) w).2).
Proof.
  unfold sales_service.create_sale, require_permission. intros Hrun Hex.
  destruct (current_session w) as [session|] eqn:Hsession; simpl in Hrun.
  2:{ injection Hrun as <- <-. split; [done|]. by left. }
  destruct (bool_decide _).
  2:{ injection Hrun as <- <-. split; [done|]. by left. }
  destruct (Sale.items sale) as [|item rest] eqn:Hitems.
  { by apply Exists_nil in Hex. }
  apply bind_inv in Hrun as [(e&[=]&_)|(w0&w1&[= <- <-]&Hrun)].
  rewrite Hsession in Hrun.
  apply bind_inv in Hrun as [(e&Hval&_)|([ok items']&w2&Hval&Hrun)].
  { apply validate_items_inv in Hval as (_&?&?&[=]&_). }
  pose proof (validate_items_rejects _ _ _ _ _ Hval Hex) as ->.
  injection Hrun as <- <-.
  split; [by eapply validate_items_quiet|].
  right. split; [by eexists|]. by rewrite Hval.
Qed.

(** The ways [create_sale] ends: the permission wrapper raises; it
    returns [(False, None)] or lets an exception of the repository's
    [except] block out, with nothing committed; or every line passed
    and the prepared draft is recorded, which the answer tells unless a
    call failed after the [commit]. *)
Lemma create_sale_inv (sale : Sale.t money) w r w' :
  sales_service.create_sale sale w = (r, w') →
  (¬ permitted auth.Permission.SALES_CREATE w
   ∧ r = Raised PermissionError ∧ w' = w)
  ∨ (permitted auth.Permission.SALES_CREATE w
     ∧ (failed r ∨ escaped r) ∧ nothing_committed w w')
  ∨ (permitted auth.Permission.SALES_CREATE w
     ∧ ∃ session items',
         current_session w = Some session
         ∧ Forall2 renamed (Sale.items sale) items'
         ∧ Forall (λ item, ¬ line_fails (tables w) item) (Sale.items sale)
         ∧ (r = Returned ((true, Some (next_sale_id (counters w))),
                          prepared sale session items')
            ∨ failed r ∨ escaped r)
         ∧ sale_recorded (prepared sale session items')
             (next_sale_id (counters w)) (next_sale_item_id (counters w))
             (tables w) (tables w')).
Proof.
  unfold sales_service.create_sale, require_permission, permitted.
  intros Hrun.
  destruct (auth.check_permission _ _) eqn:Hperm.
  2:{ injection Hrun as <- <-. left. by repeat split. }
  right.
  destruct (Sale.items sale) as [|item rest] eqn:Hitems.
  { injection Hrun as <- <-. left. split; [done|].
    split; [left; by eexists|done]. }
  apply bind_inv in Hrun as [(e&[=]&_)|(w0&w1&[= <- <-]&Hrun)].
  destruct (current_session w) as [session|] eqn:Hsession.
  2:{ injection Hrun as <- <-. left. split; [done|].
      split; [left; by eexists|done]. }
  apply bind_inv in Hrun as [(e&Hval&_)|([ok items']&w2&Hval&Hrun)].
  { apply validate_items_inv in Hval as (_&?&?&[=]&_). }
  simpl in Hval. rewrite Hitems in Hval.
  apply validate_items_inv in Hval
    as (((Ht&Hfr&Hs)&Hc)&ok'&its&[= <- <-]&Hren&Hok).
  destruct ok.
  2:{ injection Hrun as <- <-. left. split; [done|].
      split; [left; by eexists|]. by repeat split. }
  assert (∃ r0, sales_repo.create_sale_with_items
                  (prepared sale session items') w2 = (r0, w')
                ∧ (r0 = Returned (true, Some (next_sale_id (counters w2)))
                   → r = Returned ((true, Some (next_sale_id (counters w2))),
                                   prepared sale session items'))
                ∧ (r0 = Returned (false, None) → failed r)
                ∧ (escaped r0 → escaped r)) as (r0&Hrepo&Hok1&Hfail&Hesc).
  { apply bind_inv in Hrun as [(e&Hrepo&->)|(res&w3&Hrepo&[= <- <-])].
    - exists (Raised e). split; [done|]. split; [done|]. split; [done|].
      intros (e'&[= <-]&He). by exists e.
    - exists (Returned res). split; [done|].
      split; [by intros [= ->]|]. split; [intros [= ->]; by eexists|].
      by intros (e&[=]&_). }
  apply create_sale_with_items_inv in Hrepo
    as [(Hr&Hnc)|(Hrec&Hr)].
  - left. split; [done|]. split.
    + destruct Hr as [->|Hr]; [left; by apply Hfail|right; by apply Hesc].
    + etrans; [|done]. by repeat split.
  - right. split; [done|]. exists session, items'.
    rewrite Hc, Ht in Hrec. rewrite Hc in *.
    split; [done|]. split; [done|]. split; [by apply Hok|].
    split; [|done].
    destruct Hr as [->|([->|Hr]&_)];
      [left; by apply Hok1|right; left; by apply Hfail
      |right; right; by apply Hesc].
Qed.

(** When every line passes, [create_sale] goes on with
    [create_sale_with_items] on the prepared draft, in the world the
    validation reads left. *)
Lemma create_sale_hands_over (sale : Sale.t money) w session items' w1 :
  permitted auth.Permission.SALES_CREATE w →
  current_session w = Some session →
  Sale.items sale ≠ [] →
  sales_service.validate_items (Sale.items sale) w
    = (Returned (true, items'), w1) →
  sales_service.create_sale sale w
  = (r ← sales_repo.create_sale_with_items (prepared sale session items');
     mret (r, prepared sale session items')) w1.
Proof.
  unfold permitted, sales_service.create_sale, require_permission.
  intros -> Hsession Hitems Hval.
  destruct (Sale.items sale) as [|item rest] eqn:Hlines; [done|].
  rewrite bind_run. simpl. rewrite Hsession, bind_run. simpl.
  by rewrite Hlines, Hval.
Qed.

(** X25. The [total_amount] a draft carries plays no part in [create_sale]. *)
Lemma create_sale_ignores_supplied_total (sale : Sale.t money) amount w :
  answer (sales_service.create_sale (Sale.set_total_amount sale amount) w).1
  = answer (sales_service.create_sale sale w).1
  ∧ (sales_service.create_sale (Sale.set_total_amount sale amount) w).2
    = (sales_service.create_sale sale w).2.
Proof.
  unfold sales_service.create_sale, require_permission.
  destruct (auth.check_permission _ _); [|done].
  change (Sale.items (Sale.set_total_amount sale amount))
    with (Sale.items sale).
  destruct (Sale.items sale) as [|item rest] eqn:Hlines; [done|].
  unfold mbind, M_bind, get_world.
  destruct (current_session w) as [session|]; [|done].
  split; reflexivity.
Qed.


Lemma line_row_total sale_id (item : SaleItem.t money) :
  row_total (line_row sale_id item) = SaleItem.total_price item.
Proof. done. Qed.


(** ** Runs that plan no fault *)

Lemma storage_call_calm : keeps calm (storage_call (money:=money)).
Proof.
  intros w r w' Hrun Hup. unfold storage_call in Hrun.
  unfold storage_up in *.
  destruct (faults w) as [|[] rest] eqn:Hf; simplify_eq; simpl;
    rewrite ?Hf; try done; by apply Forall_cons_1 in Hup as [_ ?].
Qed.

Lemma fresh_id_calm tb : keeps calm (fresh_id (money:=money) tb).
Proof. by intros w r w' [= <- <-] Hup. Qed.

Lemma publish_calm t : keeps calm (publish (money:=money) t).
Proof. by intros w r w' [= <- <-] Hup. Qed.

Ltac calm_steps :=
  repeat first
    [ apply storage_call_calm
    | apply fresh_id_calm
    | apply publish_calm
    | apply keeps_ret; apply _
    | apply keeps_raise; apply _
    | apply keeps_get_world; apply _
    | apply keeps_bind; [apply _| |intros ?]
    | apply keeps_try_except; [apply _| |intros ?]
    | apply keeps_catch; [apply _| |intros ?|intros ?]
    | case_match ].

Lemma get_connection_calm : keeps calm (get_connection (money:=money)).
Proof. unfold get_connection. calm_steps. Qed.

Lemma execute_query_calm {A} conn (q : Tables money → A) :
  keeps calm (execute_query conn q).
Proof. unfold execute_query. calm_steps. Qed.

Lemma execute_update_calm conn stmt : keeps calm (execute_update conn stmt).
Proof. unfold execute_update. calm_steps. Qed.

Lemma execute_insert_calm conn tb stmt :
  keeps calm (execute_insert conn tb stmt).
Proof. unfold execute_insert. calm_steps. Qed.

Lemma commit_calm conn : keeps calm (commit conn).
Proof. unfold commit. calm_steps. Qed.

Lemma get_by_id_calm product_id :
  keeps calm (product_repo.get_by_id (money:=money) product_id).
Proof.
  unfold product_repo.get_by_id, get_connection, cursor, execute_query,
    cursor_close, close.
  calm_steps.
Qed.

Lemma get_by_barcode_calm code :
  keeps calm (product_repo.get_by_barcode (money:=money) code).
Proof.
  unfold product_repo.get_by_barcode, get_connection, cursor, execute_query,
    cursor_close, close.
  calm_steps.
Qed.

Lemma validate_items_calm items :
  keeps calm (sales_service.validate_items (money:=money) items).
Proof.
  induction items as [|item rest IH]; simpl; [calm_steps|].
  apply keeps_bind; [apply _|apply get_by_id_calm|]. intros [p|];
    [|calm_steps].
  case_bool_decide; [calm_steps|].
  apply keeps_bind; [apply _|apply IH|]. intros [ok rest']. calm_steps.
Qed.

Lemma insert_items_calm sale_id items conn :
  keeps calm (sales_repo.insert_items sale_id items conn).
Proof.
  revert conn. induction items as [|item rest IH]; intros conn; simpl;
    [calm_steps|].
  apply keeps_bind; [apply _|apply execute_insert_calm|]. intros [c1 ?].
  apply keeps_bind; [apply _|apply execute_update_calm|]. intros [c2 ?].
  apply IH.
Qed.

Lemma transaction_calm (sale : Sale.t money) conn :
  keeps calm (sales_repo.transaction sale conn).
Proof.
  unfold sales_repo.transaction, start_transaction.
  apply keeps_bind; [apply _|apply storage_call_calm|]. intros _.
  apply keeps_bind; [apply _|apply execute_insert_calm|]. intros [c1 k].
  apply keeps_bind; [apply _|apply insert_items_calm|]. intros c2.
  apply keeps_bind; [apply _|apply commit_calm|]. intros _.
  unfold cursor_close. calm_steps.
Qed.

Lemma storage_call_up_run w :
  storage_up w → ∃ w', storage_call w = (Returned (), w') ∧ storage_up w'.
Proof.
  intros Hup. destruct (storage_call w) as [[[]|e] w'] eqn:Hrun.
  - exists w'. split; [done|]. by eapply storage_call_calm.
  - by apply storage_call_raised in Hrun.
Qed.

(** On a storage that is up the [except] block of
    [create_sale_with_items] runs to its end. *)
Lemma on_error_up conn w :
  storage_up w →
  ∃ w', sales_repo.on_error conn true w = (Returned (false, None), w').
Proof.
  intros (w1&Hping&Hup1)%storage_call_up_run.
  destruct (storage_call_up_run w1 Hup1) as (w2&Hroll&Hup2).
  destruct (storage_call_up_run w2 Hup2) as (w3&Hcur&Hup3).
  destruct (storage_call_up_run w3 Hup3) as (w4&Hclose&Hup4).
  exists w4. unfold sales_repo.on_error, is_connected, try_except.
  rewrite bind_run, bind_run, Hping. simpl.
  unfold rollback, cursor_close, close.
  by rewrite bind_run, Hroll, bind_run, Hcur, bind_run, Hclose.
Qed.

(** On a storage that is up [create_sale_with_items] lets no exception
    out, also when the server refuses a statement. *)
Lemma create_sale_with_items_returns (sale : Sale.t money) w r w' :
  storage_up w →
  sales_repo.create_sale_with_items sale w = (r, w') →
  ∃ a, r = Returned a.
Proof.
  unfold sales_repo.create_sale_with_items, catch. intros Hup Hrun.
  destruct (get_connection w) as [[conn|e0] w1] eqn:Hconn;
    [|injection Hrun as <- <-; eauto].
  apply get_connection_calm in Hconn. specialize (Hconn Hup).
  destruct (storage_call_up_run w1 Hconn) as (w2&Hcur&Hup2).
  unfold cursor in Hrun. rewrite Hcur in Hrun.
  destruct (sales_repo.transaction sale conn w2) as [[sale_id|e2] w3]
    eqn:Htx; apply transaction_calm in Htx; specialize (Htx Hup2).
  - destruct (storage_call_up_run w3 Htx) as (w4&Hclose&_).
    unfold close in Hrun. rewrite Hclose in Hrun.
    injection Hrun as <- <-. eauto.
  - destruct (on_error_up conn w3 Htx) as (w4&Herr).
    rewrite Herr in Hrun. injection Hrun as <- <-. eauto.
Qed.

(** ** What a failed commit tells the caller *)

(** [create_sale] lets no exception out when the storage is up. *)
Lemma create_sale_returns (sale : Sale.t money) w r w' :
  permitted auth.Permission.SALES_CREATE w →
  storage_up w →
  sales_service.create_sale sale w = (r, w') →
  ∃ a, r = Returned a.
Proof.
  unfold permitted, sales_service.create_sale, require_permission.
  intros -> Hup Hrun.
  destruct (Sale.items sale) as [|item rest] eqn:Hitems;
    [injection Hrun as <- <-; eauto|].
  apply bind_inv in Hrun as [(e&[=]&_)|(w0&w1&[= <- <-]&Hrun)].
  destruct (current_session w) as [session|];
    [|injection Hrun as <- <-; eauto].
  apply bind_inv in Hrun as [(e&Hval&_)|([ok items']&w2&Hval&Hrun)].
  { apply validate_items_inv in Hval as (_&?&?&[=]&_). }
  apply validate_items_calm in Hval. specialize (Hval Hup).
  destruct ok; [|injection Hrun as <- <-; eauto].
  apply bind_inv in Hrun as [(e&Hrepo&_)|(res&w3&_&[= <- <-])]; [|eauto].
  by apply create_sale_with_items_returns in Hrepo as [a [=]].
Qed.

(** C9, as the code has it.  With the permission held, what
    [create_sale] hands the caller is never a typed result: it is the
    pair [(True, sale_id)], the pair [(False, None)], or an exception
    that leaves the unprotected [except] block of
    [create_sale_with_items].  An empty cart, a missing product and an
    insufficient stock always give [(False, None)], the pair a storage
    failure caught by the repository gives as well: the result names
    neither the kind of failure nor a product.  No exception gets out
    as long as the storage is up. *)
Theorem create_sale_failure_is_untyped (sale : Sale.t money) w r w' :
  permitted auth.Permission.SALES_CREATE w →
  sales_service.create_sale sale w = (r, w') →
  (answer r = Returned (false, None)
   ∨ answer r = Returned (true, Some (next_sale_id (counters w)))
   ∨ escaped (answer r))
  ∧ (Sale.items sale = []
     ∨ Exists (line_fails (tables w)) (Sale.items sale) →
     answer r = Returned (false, None))
  ∧ (storage_up w → ¬ escaped (answer r)).
Proof.
  intros Hperm Hrun. split; [|split].
  - apply create_sale_inv in Hrun
      as [(Hno&_)
         |[(_&[(?&->)|(e&->&He)]&_)
          |(_&session&items'&_&_&_&[->|[(?&->)|(e&->&He)]]&_)]].
    + done.
    + by left.
    + right. right. by exists e.
    + right. by left.
    + by left.
    + right. right. by exists e.
  - unfold permitted in Hperm.
    unfold sales_service.create_sale, require_permission in Hrun.
    rewrite Hperm in Hrun. intros [Hempty|Hex].
    { rewrite Hempty in Hrun. by injection Hrun as <- <-. }
    destruct (Sale.items sale) as [|item rest] eqn:Hitems.
    { by apply Exists_nil in Hex. }
    apply bind_inv in Hrun as [(e&[=]&_)|(w0&w1&[= <- <-]&Hrun)].
    destruct (current_session w) as [session|];
      [|by injection Hrun as <- <-].
    apply bind_inv in Hrun as [(e&Hval&_)|([ok items']&w2&Hval&Hrun)].
    { apply validate_items_inv in Hval as (_&?&?&[=]&_). }
    simpl in Hval. rewrite Hitems in Hval.
    pose proof (validate_items_rejects _ _ _ _ _ Hval Hex) as ->.
    by injection Hrun as <- <-.
  - intros Hup (e&Hr&_).
    destruct (create_sale_returns sale w r w' Hperm Hup Hrun) as [a ->].
    by destruct a.
Qed.

(** ** The cart *)

Lemma remove_line_absent (items : list (SaleItem.t money)) product_id q :
  Forall (λ item, SaleItem.product_id item ≠ product_id) items →
  sales_service.remove_line items product_id q = None.
Proof.
  induction 1 as [|item rest Hne _ IH]; simpl; [done|].
  case_decide; [done|]. by rewrite IH.
Qed.

Lemma remove_line_skip (before rest : list (SaleItem.t money)) product_id q :
  Forall (λ item, SaleItem.product_id item ≠ product_id) before →
  sales_service.remove_line (before ++ rest) product_id q
  = (before ++.) <$> sales_service.remove_line rest product_id q.
Proof.
  induction 1 as [|item before' Hne _ IH]; simpl.
  - by destruct (sales_service.remove_line _ _ _).
  - case_decide; [done|]. rewrite IH.
    by destruct (sales_service.remove_line rest _ _).
Qed.

(** C8. [remove_product_from_sale] works on the first line of the
    product.  Without a quantity the whole line is removed; with a
    quantity smaller than the line's the line is decremented by it; with
    a quantity at least the line's the whole line is removed; and when
    no line is for the product the answer is [False] and the cart is
    unchanged. *)
Theorem remove_product_from_sale_spec (sale : Sale.t money)
    product_id quantity w :
  permitted auth.Permission.SALES_CREATE w →
  (Forall (λ item, SaleItem.product_id item ≠ product_id) (Sale.items sale) →
     sales_service.remove_product_from_sale sale product_id quantity w
     = (Returned (false, sale), w))
  ∧ (∀ before item after,
       Sale.items sale = before ++ item :: after →
       Forall (λ item, SaleItem.product_id item ≠ product_id) before →
       SaleItem.product_id item = product_id →
       ∃ lines,
         sales_service.remove_product_from_sale sale product_id quantity w
         = (Returned (true, Sale.set_items sale lines), w)
         ∧ (quantity = None → lines = before ++ after)
         ∧ (∀ q, quantity = Some q → q < SaleItem.quantity item →
              lines = before
                      ++ SaleItem.set_quantity item (SaleItem.quantity item - q)
                      :: after)
         ∧ (∀ q, quantity = Some q → SaleItem.quantity item ≤ q →
              lines = before ++ after)).
Proof.
  unfold permitted, sales_service.remove_product_from_sale,
    require_permission.
  intros ->. split.
  - intros Habsent. by rewrite remove_line_absent.
  - intros before item after -> Hbefore Hitem.
    rewrite remove_line_skip by done. simpl.
    rewrite decide_True by done.
    destruct quantity as [q|].
    + case_bool_decide as Hq.
      * exists (before ++ after). split; [done|].
        split; [done|]. split; [|done].
        intros q' [= <-] ?. lia.
      * eexists. split; [done|].
        split; [done|]. split; [by intros q' [= <-] _|].
        intros q' [= <-] ?. lia.
    + exists (before ++ after). split; [done|]. by repeat split.
Qed.

Lemma merge_line_positive (items items' : list (SaleItem.t money))
    product_id q :
  1 ≤ q →
  Forall (λ item, 1 ≤ SaleItem.quantity item) items →
  sales_service.merge_line items product_id q = Some items' →
  Forall (λ item, 1 ≤ SaleItem.quantity item) items'.
Proof.
  intros Hq Hpos. revert items'.
  induction Hpos as [|item rest Hitem Hrest IH]; intros items'; simpl;
    [done|].
  case_decide.
  - intros [= <-]. constructor; [simpl; lia|done].
  - destruct (sales_service.merge_line rest _ _) as [rest'|]; [|done].
    intros [= <-]. constructor; [done|by apply IH].
Qed.

Lemma remove_line_positive (items items' : list (SaleItem.t money))
    product_id q :
  Forall (λ item, 1 ≤ SaleItem.quantity item) items →
  sales_service.remove_line items product_id q = Some items' →
  Forall (λ item, 1 ≤ SaleItem.quantity item) items'.
Proof.
  intros Hpos. revert items'.
  induction Hpos as [|item rest Hitem Hrest IH]; intros items'; simpl;
    [done|].
  case_decide.
  - destruct q as [q|]; [|by intros [= <-]].
    case_bool_decide; intros [= <-]; [done|].
    constructor; [simpl; lia|done].
  - destruct (sales_service.remove_line rest _ _) as [rest'|]; [|done].
    intros [= <-]. constructor; [done|by apply IH].
Qed.

(** What [add_product_to_sale] leaves of the cart when it returns. *)
Lemma add_product_to_sale_inv (sale : Sale.t money) product_id q w b sale' w' :
  sales_service.add_product_to_sale sale product_id q w
    = (Returned (b, sale'), w') →
  sale' = sale
  ∨ (∃ items, sales_service.merge_line (Sale.items sale) product_id q
              = Some items
              ∧ sale' = Sale.set_items sale items)
  ∨ (∃ name price,
       sale' = Sale.set_items sale
                 (Sale.items sale ++
                    [SaleItem.mk None None product_id name q price])).
Proof.
  unfold sales_service.add_product_to_sale, require_permission.
  destruct (auth.check_permission _ _); [|done]. intros Hrun.
  apply bind_inv in Hrun as [(e&_&[=])|(p&w1&_&Hrun)].
  destruct p as [p|]; [|injection Hrun as <- <- <-; by left].
  case_bool_decide; [injection Hrun as <- <- <-; by left|].
  destruct (sales_service.merge_line _ _ _) as [items|] eqn:Hmerge;
    injection Hrun as <- <- <-; right; [left|right]; eauto.
Qed.

Lemma run_cart_op_positive op (sale : Sale.t money) w b sale' w' :
  positive_add op →
  lines_positive sale →
  run_cart_op op sale w = (Returned (b, sale'), w') →
  lines_positive sale'.
Proof.
  unfold lines_positive. destruct op as [p q|p q]; simpl; intros Hop Hpos Hrun.
  - apply add_product_to_sale_inv in Hrun
      as [->|[(items&Hmerge&->)|(name&price&->)]]; [done| |].
    + by eapply merge_line_positive.
    + simpl. apply Forall_app. split; [done|]. by constructor.
  - unfold sales_service.remove_product_from_sale, require_permission in Hrun.
    destruct (auth.check_permission _ _); [|done].
    destruct (sales_service.remove_line _ _ _) as [items|] eqn:Hrem;
      injection Hrun as <- <- <-; [|done].
    by eapply remove_line_positive.
Qed.

(** C10, as the code has it.  Starting from an empty cart, after any
    sequence of [add_product_to_sale] and [remove_product_from_sale]
    calls in which every added quantity is at least one (the removed
    quantities being arbitrary, or omitted), every line of the cart has
    a quantity of at least one. *)
Theorem cart_lines_stay_positive (sale0 sale : Sale.t money) :
  Sale.items sale0 = [] →
  cart_reaches positive_add sale0 sale →
  lines_positive sale.
Proof.
  intros Hempty Hreach. induction Hreach as [|s op w b s' w' _ IH Hop Hrun].
  - unfold lines_positive. by rewrite Hempty.
  - by eapply run_cart_op_positive.
Qed.

(** ** Runs on a storage that is up *)

Lemma storage_call_up w :
  storage_up w →
  ∃ w', storage_call w = (Returned (), w')
        ∧ nothing_written w w' ∧ storage_up w'.
Proof.
  unfold storage_up, storage_call. intros Hup.
  destruct (faults w) as [|b rest] eqn:Hf.
  - exists w. by rewrite Hf.
  - apply Forall_cons_1 in Hup as [-> Hup].
    exists (set_faults w rest). by repeat split.
Qed.

Lemma get_connection_up w :
  storage_up w →
  ∃ w', get_connection w = (Returned (mkConn (tables w)), w')
        ∧ nothing_written w w' ∧ storage_up w'.
Proof.
  intros (w1&Hcall&Hnw&Hup)%storage_call_up. exists w1.
  unfold get_connection. rewrite bind_run, Hcall.
  destruct Hnw as ((Ht&?&?)&?). rewrite bind_run. simpl. rewrite Ht.
  by repeat split.
Qed.

Lemma execute_query_up {A} conn (q : Tables money → A) w :
  storage_up w →
  ∃ w', execute_query conn q w = (Returned (q (view conn)), w')
        ∧ nothing_written w w' ∧ storage_up w'.
Proof.
  intros (w1&Hcall&Hnw&Hup)%storage_call_up. exists w1.
  unfold execute_query. by rewrite bind_run, Hcall.
Qed.

Lemma execute_update_up conn stmt t n w :
  storage_up w →
  stmt (found_rows w) (view conn) = Some (t, n) →
  ∃ w', execute_update conn stmt w = (Returned (mkConn t, n), w')
        ∧ nothing_written w w' ∧ storage_up w'.
Proof.
  intros (w1&Hcall&Hnw&Hup)%storage_call_up Hstmt. exists w1.
  unfold execute_update. rewrite bind_run, Hcall, bind_run. simpl.
  destruct Hnw as ((?&Hfr&?)&?). rewrite Hfr, Hstmt. by repeat split.
Qed.

Lemma commit_up conn w :
  storage_up w →
  ∃ w', commit conn w = (Returned (), w')
        ∧ tables w' = view conn
        ∧ counters w' = counters w
        ∧ found_rows w' = found_rows w
        ∧ current_session w' = current_session w
        ∧ storage_up w'.
Proof.
  intros (w1&Hcall&((?&?&?)&?)&Hup)%storage_call_up.
  exists (set_tables w1 (view conn)).
  unfold commit. rewrite bind_run, Hcall. by repeat split.
Qed.

(** [conn = get_connection()], [cursor = conn.cursor()] and what
    follows, on a storage that is up. *)
Lemma connect_up {A} (k : Conn money → M money A) w :
  storage_up w →
  ∃ w1, (conn ← get_connection; cursor conn ;; k conn) w
        = k (mkConn (tables w)) w1
        ∧ nothing_written w w1 ∧ storage_up w1.
Proof.
  intros (w1&Hconn&Hnw1&Hup1)%get_connection_up.
  destruct (storage_call_up w1 Hup1) as (w2&Hcur&Hnw2&Hup2).
  exists w2. rewrite bind_run, Hconn, bind_run. unfold cursor.
  rewrite Hcur. split; [done|]. split; [by etrans|done].
Qed.

(** [cursor.close()], [conn.close()] and what follows, on a storage
    that is up. *)
Lemma release_up {A} conn (k : M money A) w :
  storage_up w →
  ∃ w1, (cursor_close conn ;; close conn ;; k) w = k w1
        ∧ nothing_written w w1 ∧ storage_up w1.
Proof.
  intros (w1&Hcur&Hnw1&Hup1)%storage_call_up.
  destruct (storage_call_up w1 Hup1) as (w2&Hclose&Hnw2&Hup2).
  exists w2. unfold cursor_close, close.
  rewrite bind_run, Hcur, bind_run, Hclose.
  split; [done|]. split; [by etrans|done].
Qed.

Lemma get_by_id_up product_id w :
  storage_up w →
  ∃ w', product_repo.get_by_id product_id w
        = (Returned (product_repo.of_row product_id
                       <$> tbl_products (tables w) !! product_id), w')
        ∧ nothing_written w w' ∧ storage_up w'.
Proof.
  intros Hup. unfold product_repo.get_by_id, try_except.
  edestruct (connect_up (A:=option (Product.t money)))
    as (w1&->&Hnw1&Hup1); [exact Hup|].
  destruct (execute_query_up (mkConn (tables w))
              (select_product product_id) w1 Hup1) as (w2&Hq&Hnw2&Hup2).
  rewrite bind_run, Hq.
  edestruct (release_up (A:=option (Product.t money)))
    as (w3&->&Hnw3&Hup3); [exact Hup2|].
  exists w3. split; [|split; [by etrans; [|etrans]|done]].
  unfold select_product. simpl.
  by destruct (tbl_products (tables w) !! product_id).
Qed.

(** ** Stock adjustment *)

(** [rowcount] is positive after [SET quantity = q + delta] exactly when
    the connection counts matched rows or the delta is not zero. *)
Lemma affected_rows_set_quantity fr (row : products.row money) delta :
  bool_decide
    (0 < affected_rows fr row
           (products.set_quantity row (products.quantity row + delta)))
  = fr || bool_decide (delta ≠ 0).
Proof.
  unfold affected_rows. destruct fr; simpl; [done|].
  destruct (decide (row = _)) as [Heq|Hne].
  - rewrite bool_decide_eq_false_2; [|lia].
    rewrite (bool_decide_eq_false_2 (delta ≠ 0)); [done|].
    intros Hd. apply Hd. apply (f_equal products.quantity) in Heq.
    simpl in Heq. lia.
  - rewrite bool_decide_eq_true_2; [|lia].
    rewrite (bool_decide_eq_true_2 (delta ≠ 0)); [done|].
    intros ->. apply Hne. destruct row.
    unfold products.set_quantity. simpl. f_equal. lia.
Qed.

(** [update_quantity] on a storage that is up: the quantity is written
    unless the product is missing or the result would be negative; the
    answer follows [cursor.rowcount]. *)
Lemma update_quantity_up product_id quantity_change w :
  storage_up w →
  ∃ w',
    storage_up w'
    ∧ counters w' = counters w
    ∧ found_rows w' = found_rows w
    ∧ current_session w' = current_session w
    ∧ match tbl_products (tables w) !! product_id with
      | None =>
          product_repo.update_quantity product_id quantity_change w
          = (Returned false, w')
          ∧ tables w' = tables w
      | Some row =>
          let new_quantity := products.quantity row + quantity_change in
          if bool_decide (new_quantity < 0) then
            product_repo.update_quantity product_id quantity_change w
            = (Returned false, w')
            ∧ tables w' = tables w
          else
            product_repo.update_quantity product_id quantity_change w
            = (Returned (found_rows w
                         || bool_decide (quantity_change ≠ 0)), w')
            ∧ tables w'
              = set_products (tables w)
                  (<[product_id := products.set_quantity row new_quantity]>
                     (tbl_products (tables w)))
      end.
Proof.
  intros Hup. unfold product_repo.update_quantity, try_except.
  edestruct (connect_up (A:=bool)) as (w1&->&Hnw1&Hup1); [exact Hup|].
  destruct (execute_query_up (mkConn (tables w))
              (select_quantity product_id) w1 Hup1) as (w2&Hq&Hnw2&Hup2).
  assert (nothing_written w w2) as Hnw by by etrans.
  rewrite bind_run, Hq. unfold select_quantity. simpl.
  destruct (tbl_products (tables w) !! product_id) as [row|] eqn:Hrow; simpl.
  2:{ edestruct (release_up (A:=bool)) as (w3&->&Hnw3&Hup3); [exact Hup2|].
      exists w3. assert (nothing_written w w3) as ((?&?&?)&?) by by etrans.
      by repeat split. }
  case_bool_decide as Hneg.
  { edestruct (release_up (A:=bool)) as (w3&->&Hnw3&Hup3); [exact Hup2|].
    exists w3. assert (nothing_written w w3) as ((?&?&?)&?) by by etrans.
    by repeat split. }
  set (new := products.set_quantity row
                (products.quantity row + quantity_change)).
  set (t := set_products (tables w)
              (<[product_id := new]> (tbl_products (tables w)))).
  destruct (execute_update_up (mkConn (tables w))
              (λ fr, update_set_quantity fr
                       (products.quantity row + quantity_change) product_id)
              t (affected_rows (found_rows w2) row new) w2 Hup2)
    as (w3&Hupd&Hnw3&Hup3).
  { unfold update_set_quantity. simpl. by rewrite Hrow. }
  destruct (commit_up (mkConn t) w3 Hup3) as (w4&Hcommit&Ht&Hc&Hfr&Hs&Hup4).
  rewrite bind_run, Hupd, bind_run, Hcommit.
  edestruct (release_up (A:=bool)) as (w5&->&((Ht5&Hfr5&Hs5)&Hc5)&Hup5);
    [exact Hup4|].
  exists w5.
  destruct Hnw as ((?&Hfr2&?)&?), Hnw3 as ((?&?&?)&?).
  split; [done|]. split; [congruence|]. split; [congruence|].
  split; [congruence|]. split; [|by rewrite Ht5, Ht].
  rewrite Hfr2. unfold new.
  destruct (bool_decide (0 < _)) eqn:Hpos;
    by rewrite affected_rows_set_quantity in Hpos; rewrite Hpos.
Qed.

(** What [update_stock] does on a storage that is up, for every product
    id and every delta.  A missing product or a negative result is
    rejected and nothing is written; otherwise [q + delta] is written.
    The answer is [True] then, except that a delta of zero on a
    connection without CLIENT_FOUND_ROWS changes no row and is answered
    [False]. *)
Lemma update_stock_up product_id quantity_change w :
  permitted auth.Permission.INVENTORY_EDIT w →
  storage_up w →
  ∃ w',
    storage_up w'
    ∧ nothing_committed (set_tables w (tables w')) w'
    ∧ match tbl_products (tables w) !! product_id with
      | None =>
          inventory_service.update_stock product_id quantity_change w
          = (Returned false, w')
          ∧ tables w' = tables w
      | Some row =>
          let new_quantity := products.quantity row + quantity_change in
          if bool_decide (new_quantity < 0) then
            inventory_service.update_stock product_id quantity_change w
            = (Returned false, w')
            ∧ tables w' = tables w
          else
            inventory_service.update_stock product_id quantity_change w
            = (Returned (found_rows w
                         || bool_decide (quantity_change ≠ 0)), w')
            ∧ tables w'
              = set_products (tables w)
                  (<[product_id := products.set_quantity row new_quantity]>
                     (tbl_products (tables w)))
      end.
Proof.
  unfold permitted, inventory_service.update_stock, require_permission.
  intros -> Hup.
  destruct (get_by_id_up product_id w Hup) as (w1&Hget&((Ht&Hfr&Hs)&Hc)&Hup1).
  rewrite bind_run, Hget.
  destruct (tbl_products (tables w) !! product_id) as [row|] eqn:Hrow; simpl.
  2:{ exists w1. by repeat split. }
  case_bool_decide as Hneg.
  { exists w1. by repeat split. }
  destruct (update_quantity_up product_id quantity_change w1 Hup1)
    as (w2&Hup2&_&Hfr2&Hs2&Hrun).
  rewrite Ht, Hrow in Hrun. simpl in Hrun.
  rewrite bool_decide_eq_false_2 in Hrun by done.
  destruct Hrun as [Hrun Ht2]. exists w2. split; [done|].
  rewrite Hrun, Hfr. split; [|done]. repeat split; simpl; congruence.
Qed.

(** ** Interleaved stock adjustments *)

Lemma stock_nonneg_set_quantity t product_id (row : products.row money) q :
  stock_nonneg t → 0 ≤ q →
  stock_nonneg
    (set_products t
       (<[product_id := products.set_quantity row q]> (tbl_products t))).
Proof.
  unfold stock_nonneg. intros Ht Hq. simpl.
  by apply map_Forall_insert_2.
Qed.

(** One round trip of a call keeps the stock non-negative, and leaves
    the call with a non-negative quantity to write. *)
Lemma step_keeps_nonneg fr t (c : interleaving.call) :
  stock_nonneg t → interleaving.pending_nonneg c →
  stock_nonneg (interleaving.step fr t c).1
  ∧ interleaving.pending_nonneg (interleaving.step fr t c).2.
Proof.
  unfold interleaving.step, interleaving.pending_nonneg.
  intros Ht Hc. destruct (interleaving.at_ c) as [| |n|b] eqn:Hat.
  - destruct (select_product _ _) as [r|]; [|done].
    by case_bool_decide.
  - destruct (select_quantity _ _) as [q|]; [|done].
    case_bool_decide; [done|]. simpl. split; [done|lia].
  - unfold update_set_quantity.
    destruct (tbl_products t !! _) as [row|]; simpl; [|done].
    split; [|done]. by apply stock_nonneg_set_quantity.
  - simpl. by rewrite Hat.
Qed.

Lemma run_keeps_nonneg fr schedule (s : interleaving.system money) :
  stock_nonneg (interleaving.rows s) →
  interleaving.pending_nonneg (interleaving.first s) →
  interleaving.pending_nonneg (interleaving.second s) →
  stock_nonneg (interleaving.rows (interleaving.run fr schedule s)).
Proof.
  revert s. induction schedule as [|who rest IH]; intros s Hs H1 H2; [done|].
  unfold interleaving.run. simpl. apply IH.
  - destruct who; simpl.
    + destruct (step_keeps_nonneg fr _ _ Hs H1) as [? _].
      by destruct (interleaving.step _ _ _).
    + destruct (step_keeps_nonneg fr _ _ Hs H2) as [? _].
      by destruct (interleaving.step _ _ _).
  - destruct who; simpl.
    + destruct (step_keeps_nonneg fr _ _ Hs H1) as [_ ?].
      by destruct (interleaving.step _ _ _).
    + by destruct (interleaving.step _ _ _).
  - destruct who; simpl.
    + by destruct (interleaving.step _ _ _).
    + destruct (step_keeps_nonneg fr _ _ Hs H2) as [_ ?].
      by destruct (interleaving.step _ _ _).
Qed.


(** The round trips of one call, one by one. *)
Lemma step_missing fr t product_id delta :
  tbl_products t !! product_id = None →
  interleaving.step fr t (interleaving.start product_id delta)
  = (t, interleaving.mkCall product_id delta (interleaving.Finished false)).
Proof.
  intros Hrow. unfold interleaving.step, select_product. simpl.
  by rewrite Hrow.
Qed.

Lemma step_short fr t product_id delta (row : products.row money) :
  tbl_products t !! product_id = Some row →
  products.quantity row + delta < 0 →
  interleaving.step fr t (interleaving.start product_id delta)
  = (t, interleaving.mkCall product_id delta (interleaving.Finished false)).
Proof.
  intros Hrow Hneg. unfold interleaving.step, select_product. simpl.
  by rewrite Hrow, bool_decide_eq_true_2.
Qed.

Lemma step_checked fr t product_id delta (row : products.row money) :
  tbl_products t !! product_id = Some row →
  ¬ products.quantity row + delta < 0 →
  interleaving.step fr t (interleaving.start product_id delta)
  = (t, interleaving.mkCall product_id delta interleaving.AtSelectQuantity).
Proof.
  intros Hrow Hneg. unfold interleaving.step, select_product. simpl.
  by rewrite Hrow, bool_decide_eq_false_2.
Qed.

Lemma step_rechecked fr t product_id delta (row : products.row money) :
  tbl_products t !! product_id = Some row →
  ¬ products.quantity row + delta < 0 →
  interleaving.step fr t
    (interleaving.mkCall product_id delta interleaving.AtSelectQuantity)
  = (t, interleaving.mkCall product_id delta
          (interleaving.AtUpdate (products.quantity row + delta))).
Proof.
  intros Hrow Hneg. unfold interleaving.step, select_quantity. simpl.
  rewrite Hrow. simpl. by rewrite bool_decide_eq_false_2.
Qed.

Lemma step_written fr t product_id delta n (row : products.row money) :
  tbl_products t !! product_id = Some row →
  interleaving.step fr t
    (interleaving.mkCall product_id delta (interleaving.AtUpdate n))
  = (set_products t
       (<[product_id := products.set_quantity row n]> (tbl_products t)),
     interleaving.mkCall product_id delta
       (interleaving.Finished
          (bool_decide
             (0 < affected_rows fr row (products.set_quantity row n))))).
Proof.
  intros Hrow. unfold interleaving.step, update_set_quantity. simpl.
  by rewrite Hrow.
Qed.

(** A call that runs its three round trips with no other call in
    between does what [update_stock] does on a storage that is up. *)
Lemma update_stock_runs_alone product_id quantity_change w
    (other : interleaving.call) :
  permitted auth.Permission.INVENTORY_EDIT w →
  storage_up w →
  let s :=
    interleaving.run (found_rows w)
      [interleaving.First; interleaving.First; interleaving.First]
      (interleaving.mkSystem (tables w)
         (interleaving.start product_id quantity_change) other) in
  ∃ w',
    inventory_service.update_stock product_id quantity_change w
    = (Returned (interleaving.succeeded (interleaving.first s)), w')
    ∧ tables w' = interleaving.rows s.
Proof.
  intros Hperm Hup.
  destruct (update_stock_up product_id quantity_change w Hperm Hup)
    as (w'&_&_&Hrun).
  exists w'. revert Hrun.
  unfold interleaving.run, interleaving.system_step. simpl.
  destruct (tbl_products (tables w) !! product_id) as [row|] eqn:Hrow.
  - simpl. case_bool_decide as Hneg.
    + rewrite (step_short _ _ _ _ row) by done. by intros [-> ->].
    + rewrite (step_checked _ _ _ _ row) by done. simpl.
      rewrite (step_rechecked _ _ _ _ row) by done. simpl.
      rewrite (step_written _ _ _ _ _ row) by done. simpl.
      intros [-> ->]. split; [|done].
      unfold interleaving.succeeded. simpl.
      rewrite affected_rows_set_quantity.
      by destruct (_ || _).
  - rewrite step_missing by done. by intros [-> ->].
Qed.

(** C3, as the code has it.  Whatever the order in which the round
    trips of two [update_stock] calls reach the server, the stored
    quantities never become negative: each call writes a quantity it
    has checked against its own read.  (Both calls may succeed; the
    later write then replaces the earlier one.) *)
Theorem interleaved_update_stock_keeps_stock_nonneg
    fr schedule (t : Tables money) p1 d1 p2 d2 :
  stock_nonneg t →
  stock_nonneg
    (interleaving.rows
       (interleaving.run fr schedule
          (interleaving.mkSystem t
             (interleaving.start p1 d1) (interleaving.start p2 d2)))).
Proof. intros Ht. by apply run_keeps_nonneg. Qed.

(** ** Merging into a cart line *)

Lemma merge_line_first (before after : list (SaleItem.t money)) item
    product_id q :
  Forall (λ item, SaleItem.product_id item ≠ product_id) before →
  SaleItem.product_id item = product_id →
  sales_service.merge_line (before ++ item :: after) product_id q
  = Some (before
          ++ SaleItem.set_quantity item (SaleItem.quantity item + q)
          :: after).
Proof.
  intros Hbefore Hitem.
  induction Hbefore as [|item' before' Hne _ IH]; simpl.
  - by rewrite decide_True.
  - rewrite decide_False by done. by rewrite IH.
Qed.

(** X21. What the merge of [add_product_to_sale] checks: the added quantity
    alone is compared with the stock; the line then grows by it, and no
    second line for the product appears. *)
Lemma add_product_to_sale_merges (sale : Sale.t money) product_id q w
    before item after row :
  permitted auth.Permission.SALES_CREATE w →
  storage_up w →
  Sale.items sale = before ++ item :: after →
  Forall (λ item, SaleItem.product_id item ≠ product_id) before →
  SaleItem.product_id item = product_id →
  tbl_products (tables w) !! product_id = Some row →
  q ≤ products.quantity row →
  ∃ w',
    sales_service.add_product_to_sale sale product_id q w
    = (Returned
         (true,
          Sale.set_items sale
            (before
             ++ SaleItem.set_quantity item (SaleItem.quantity item + q)
             :: after)), w')
    ∧ nothing_written w w'.
Proof.
  unfold permitted, sales_service.add_product_to_sale, require_permission.
  intros -> Hup Hitems Hbefore Hitem Hrow Hq.
  destruct (get_by_id_up product_id w Hup) as (w1&Hget&Hnw&_).
  exists w1. rewrite bind_run, Hget, Hrow. simpl.
  rewrite bool_decide_eq_false_2 by lia.
  by rewrite Hitems, merge_line_first.
Qed.

(** ** Writes, however they end *)

Lemma try_except_pure_inv {A} (body : M money A) (d : A) w r w' :
  try_except body (λ e, mret d) w = (r, w') →
  ∃ r0, body w = (r0, w')
        ∧ ((∃ a, r0 = Returned a ∧ r = Returned a)
           ∨ ((∃ e, r0 = Raised e) ∧ r = Returned d)).
Proof.
  unfold try_except. destruct (body w) as [[a|e] w1]; intros [= <- <-].
  - exists (Returned a). split; [done|]. left. eauto.
  - exists (Raised e). split; [done|]. right. eauto.
Qed.

Lemma connect_inv {A} (k : Conn money → M money A) w r w' :
  (conn ← get_connection; cursor conn ;; k conn) w = (r, w') →
  ((∃ e, r = Raised e) ∧ nothing_written w w')
  ∨ ∃ conn w1,
      view conn = tables w ∧ nothing_written w w1 ∧ calm w w1
      ∧ k conn w1 = (r, w').
Proof.
  intros Hrun.
  apply bind_inv in Hrun as [(e&Hconn&->)|(conn&w1&Hconn&Hrun)].
  { left. split; [eauto|]. by eapply get_connection_quiet. }
  pose proof (get_connection_calm _ _ _ Hconn) as Hcalm1.
  apply get_connection_returned in Hconn as (Hv&Hnw1).
  apply bind_inv in Hrun as [(e&Hcur&->)|([]&w2&Hcur&Hrun)].
  { left. split; [eauto|]. etrans; [done|]. by eapply cursor_quiet. }
  pose proof (storage_call_calm _ _ _ Hcur) as Hcalm2.
  apply cursor_quiet in Hcur.
  right. exists conn, w2. split; [done|]. split; [by etrans|].
  split; [by etrans|done].
Qed.

Lemma release_inv {A} conn (k : M money A) w r w' :
  (cursor_close conn ;; close conn ;; k) w = (r, w') →
  ((∃ e, r = Raised e) ∧ nothing_written w w' ∧ ¬ storage_up w)
  ∨ ∃ w1, nothing_written w w1 ∧ calm w w1 ∧ k w1 = (r, w').
Proof.
  intros Hrun.
  apply bind_inv in Hrun as [(e&Hcur&->)|([]&w1&Hcur&Hrun)].
  { left. split; [eauto|]. split; [by eapply cursor_close_quiet|].
    by eapply storage_call_raised. }
  pose proof (storage_call_calm _ _ _ Hcur) as Hcalm1.
  apply cursor_close_quiet in Hcur.
  apply bind_inv in Hrun as [(e&Hclose&->)|([]&w2&Hclose&Hrun)].
  { left. split; [eauto|].
    split; [etrans; [done|]; by eapply close_quiet|].
    intros Hup. eapply storage_call_raised; [exact Hclose|]. by apply Hcalm1. }
  pose proof (storage_call_calm _ _ _ Hclose) as Hcalm2.
  apply close_quiet in Hclose.
  right. exists w2. split; [by etrans|]. split; [by etrans|done].
Qed.

Lemma commit_release_inv {A} conn (k : M money A) w r w' :
  (commit conn ;; cursor_close conn ;; close conn ;; k) w = (r, w') →
  ((∃ e, r = Raised e) ∧ nothing_written w w')
  ∨ (tables w' = view conn ∧ (∃ e, r = Raised e) ∧ ¬ storage_up w)
  ∨ ∃ w1, tables w1 = view conn ∧ k w1 = (r, w').
Proof.
  intros Hrun.
  apply bind_inv in Hrun as [(e&Hcommit&->)|([]&w1&Hcommit&Hrun)].
  { left. split; [eauto|].
    by apply commit_inv in Hcommit as [([=]&_)|(_&?)]. }
  pose proof (commit_calm _ _ _ _ Hcommit) as Hcalm.
  apply commit_inv in Hcommit as [(_&Ht)|((e&[=])&_)].
  right.
  apply release_inv in Hrun as [(He&((Ht2&_)&_)&Hdown)|(w2&((Ht2&_)&_)&_&Hk)].
  - left. split; [congruence|]. split; [done|]. intros Hup. by apply Hdown, Hcalm.
  - right. exists w2. split; [congruence|done].
Qed.

Lemma update_commit_release_inv {A} conn stmt (k : Z → M money A) w r w' :
  ('(conn, n) ← execute_update conn stmt;
   commit conn ;; cursor_close conn ;; close conn ;; k n) w = (r, w') →
  ((∃ e, r = Raised e) ∧ nothing_written w w')
  ∨ ∃ t n,
      stmt (found_rows w) (view conn) = Some (t, n)
      ∧ ((tables w' = t ∧ (∃ e, r = Raised e) ∧ ¬ storage_up w)
         ∨ ∃ w1, tables w1 = t ∧ k n w1 = (r, w')).
Proof.
  intros Hrun.
  apply bind_inv in Hrun as [(e&Hupd&->)|([c1 n]&w1&Hupd&Hrun)].
  { left. split; [eauto|]. by eapply execute_update_quiet. }
  pose proof (execute_update_calm _ _ _ _ _ Hupd) as Hcalm.
  apply execute_update_returned in Hupd as (Hstmt&Hnw).
  apply commit_release_inv in Hrun
    as [(He&Hnw2)|[(Ht&He&Hdown)|(w2&Ht&Hk)]].
  - left. split; [done|]. by etrans.
  - right. exists (view c1), n. split; [done|]. left.
    split; [done|]. split; [done|]. intros Hup. by apply Hdown, Hcalm.
  - right. exists (view c1), n. split; [done|]. right. by exists w2.
Qed.

Lemma insert_commit_release_inv {A} conn tb stmt (k : Z → M money A)
    w r w' :
  ('(conn, new_id) ← execute_insert conn tb stmt;
   commit conn ;; cursor_close conn ;; close conn ;; k new_id) w = (r, w') →
  ((∃ e, r = Raised e) ∧ nothing_committed w w')
  ∨ ∃ t,
      stmt (next_id tb (counters w)) (view conn) = Some t
      ∧ ((tables w' = t ∧ (∃ e, r = Raised e) ∧ ¬ storage_up w)
         ∨ ∃ w1, tables w1 = t ∧ k (next_id tb (counters w)) w1 = (r, w')).
Proof.
  intros Hrun.
  apply bind_inv in Hrun as [(e&Hins&->)|([c1 new_id]&w1&Hins&Hrun)].
  { left. split; [eauto|]. by eapply execute_insert_uncommitted. }
  pose proof (execute_insert_calm _ _ _ _ _ _ Hins) as Hcalm.
  apply execute_insert_returned in Hins as (->&Hstmt&_&Hnc).
  apply commit_release_inv in Hrun
    as [(He&(Hnc2&_))|[(Ht&He&Hdown)|(w2&Ht&Hk)]].
  - left. split; [done|]. by etrans.
  - right. exists (view c1). split; [done|]. left.
    split; [done|]. split; [done|]. intros Hup. by apply Hdown, Hcalm.
  - right. exists (view c1). split; [done|]. right. by exists w2.
Qed.

Lemma affected_rows_same fr (row : products.row money) :
  affected_rows fr row row = (if fr then 1 else 0).
Proof.
  unfold affected_rows. destruct fr; [done|]. by rewrite decide_True.
Qed.

(** [update_quantity], however it ends: no row has changed and the
    answer is [False]; or the quantity is written, and then the answer
    is [True] unless closing failed after the [commit]. *)
Lemma update_quantity_result product_id delta w r w' :
  product_repo.update_quantity product_id delta w = (r, w') →
  (r = Returned false ∧ tables w' = tables w)
  ∨ ∃ row,
      tbl_products (tables w) !! product_id = Some row
      ∧ 0 ≤ products.quantity row + delta
      ∧ tables w'
        = set_products (tables w)
            (<[product_id :=
                 products.set_quantity row (products.quantity row + delta)]>
               (tbl_products (tables w)))
      ∧ (r = Returned true ∨ r = Returned false ∧ ¬ storage_up w).
Proof.
  unfold product_repo.update_quantity. intros Hrun.
  apply try_except_pure_inv in Hrun as (r0&Hrun&Hr).
  apply connect_inv in Hrun
    as [(He&(Ht&_)&_)|(conn&w1&Hv&Hnw1&Hcalm1&Hrun)].
  { left. split; [|done]. by destruct Hr as [(a&->&_)|(_&->)];
      [destruct He as [e [=]]|]. }
  apply bind_inv in Hrun as [(e&Hq&->)|(res&w2&Hq&Hrun)].
  { left. apply execute_query_quiet in Hq as ((Ht2&_)&_).
    destruct Hnw1 as ((Ht1&_)&_).
    split; [|congruence]. by destruct Hr as [(a&[=]&_)|(_&->)]. }
  pose proof (execute_query_calm _ _ _ _ _ Hq) as Hcalm2.
  apply execute_query_returned in Hq as [-> Hnw2].
  assert (nothing_written w w2) as ((Ht2&Hfr2&_)&_) by by etrans.
  assert (∀ w3, (cursor_close conn ;; close conn ;; mret false) w2
                = (r0, w3) → w3 = w' →
            r = Returned false ∧ tables w' = tables w) as Hfalse.
  { intros w3 Hrel <-.
    apply release_inv in Hrel
      as [(He&((Ht3&_)&_)&_)|(w4&((Ht3&_)&_)&_&[= <- <-])].
    - split; [|congruence]. by destruct Hr as [(a&->&_)|(_&->)];
        [destruct He as [e [=]]|].
    - split; [|congruence]. by destruct Hr as [(a&[= <-]&->)|((e&[=])&_)]. }
  unfold select_quantity in Hrun. rewrite Hv in Hrun.
  destruct (tbl_products (tables w) !! product_id) as [row|] eqn:Hrow;
    simpl in Hrun; [|left; by eapply Hfalse].
  case_bool_decide as Hneg; [left; by eapply Hfalse|].
  apply update_commit_release_inv in Hrun
    as [(He&(Ht3&_)&_)|(t&n&Hstmt&Hend)].
  { left. split; [|congruence]. by destruct Hr as [(a&->&_)|(_&->)];
      [destruct He as [e [=]]|]. }
  unfold update_set_quantity in Hstmt. rewrite Hv, Hrow in Hstmt.
  injection Hstmt as <- <-. rewrite Hfr2 in Hend.
  destruct Hend as [(Ht&He&Hdown)|(w3&Ht&Hk)].
  - right. exists row. split; [done|]. split; [lia|]. split; [done|].
    right. split.
    + by destruct Hr as [(a&->&_)|(_&->)]; [destruct He as [e [=]]|].
    + intros Hup. by apply Hdown, Hcalm2, Hcalm1.
  - destruct (bool_decide (0 < _)) eqn:Hpos; injection Hk as <- <-.
    + right. exists row. split; [done|]. split; [lia|]. split; [done|].
      left. by destruct Hr as [(a&[= <-]&->)|((e&[=])&_)].
    + left. split; [by destruct Hr as [(a&[= <-]&->)|((e&[=])&_)]|].
      rewrite affected_rows_set_quantity in Hpos.
      apply orb_false_iff in Hpos as [_ Hd].
      apply bool_decide_eq_false in Hd.
      assert (delta = 0) as -> by lia.
      rewrite Ht.
      replace (products.set_quantity row (products.quantity row + 0))
        with row
        by (destruct row; unfold products.set_quantity; simpl;
            f_equal; lia).
      rewrite insert_id by done. by destruct (tables w).
Qed.

Lemma update_quantity_inv product_id delta w r w' :
  product_repo.update_quantity product_id delta w = (r, w') →
  tables w' = tables w
  ∨ ∃ row, tbl_products (tables w) !! product_id = Some row
           ∧ 0 ≤ products.quantity row + delta
           ∧ tables w'
             = set_products (tables w)
                 (<[product_id :=
                      products.set_quantity row (products.quantity row + delta)]>
                    (tbl_products (tables w))).
Proof.
  intros [(_&?)|(row&?&?&?&_)]%update_quantity_result; [by left|].
  right. by exists row.
Qed.

(** [update_stock] keeps the stock non-negative, whatever the storage
    does. *)
Lemma update_stock_keeps_nonneg product_id delta w r w' :
  inventory_service.update_stock product_id delta w = (r, w') →
  stock_nonneg (tables w) → stock_nonneg (tables w').
Proof.
  unfold inventory_service.update_stock, require_permission. intros Hrun Hinv.
  destruct (auth.check_permission _ _); [|by injection Hrun as <- <-].
  apply bind_inv in Hrun as [(e&Hget&_)|(p&w1&Hget&Hrun)].
  { apply get_by_id_quiet in Hget as ((Ht&_)&_). by rewrite Ht. }
  apply get_by_id_quiet in Hget as ((Ht&_)&_).
  destruct p as [p|]; [|injection Hrun as <- <-; by rewrite Ht].
  case_bool_decide; [injection Hrun as <- <-; by rewrite Ht|].
  apply update_quantity_inv in Hrun as [Ht'|(row&_&Hq&Ht')];
    rewrite Ht', Ht; [done|].
  by apply stock_nonneg_set_quantity.
Qed.

Lemma insert_product_Some (r : products.row money) k t t' :
  insert_product r k t = Some t' →
  t' = set_products t (<[k := r]> (tbl_products t)).
Proof.
  unfold insert_product. case_bool_decide; [done|].
  destruct (barcode_taken _ _ _); [done|]. by intros [= <-].
Qed.

(** [create], however it ends: nothing is committed and the answer is
    [(False, None)]; or the row is inserted under the next key, and
    then the answer is [(True, key)] unless closing failed after the
    [commit]. *)
Lemma create_result (product : Product.t money) w r w' :
  product_repo.create product w = (r, w') →
  (r = Returned (false, None) ∧ tables w' = tables w)
  ∨ (insert_product (product_repo.to_row product)
       (next_product_id (counters w)) (tables w) = Some (tables w')
     ∧ (r = Returned (true, Some (next_product_id (counters w)))
        ∨ r = Returned (false, None) ∧ ¬ storage_up w)).
Proof.
  unfold product_repo.create. intros Hrun.
  apply try_except_pure_inv in Hrun as (r0&Hrun&Hr).
  apply connect_inv in Hrun
    as [(He&(Ht&_)&_)|(conn&w1&Hv&((Ht1&_)&Hc1)&Hcalm1&Hrun)].
  { left. split; [|done]. by destruct Hr as [(a&->&_)|(_&->)];
      [destruct He as [e [=]]|]. }
  apply insert_commit_release_inv in Hrun
    as [(He&(Ht3&_))|(t&Hstmt&Hend)].
  { left. split; [|congruence]. by destruct Hr as [(a&->&_)|(_&->)];
      [destruct He as [e [=]]|]. }
  simpl in Hstmt. rewrite Hc1, Hv in Hstmt.
  right. destruct Hend as [(Ht&He&Hdown)|(w3&Ht&[= <- <-])].
  - split; [congruence|]. right. split.
    + by destruct Hr as [(a&->&_)|(_&->)]; [destruct He as [e [=]]|].
    + intros Hup. by apply Hdown, Hcalm1.
  - split; [congruence|]. left. simpl in Hr. rewrite Hc1 in Hr.
    by destruct Hr as [(a&[= <-]&->)|((e&[=])&_)].
Qed.

Lemma create_inv (product : Product.t money) w r w' :
  product_repo.create product w = (r, w') →
  tables w' = tables w
  ∨ ∃ k, tables w'
         = set_products (tables w)
             (<[k := product_repo.to_row product]> (tbl_products (tables w))).
Proof.
  intros [(_&?)|(Hins&_)]%create_result; [by left|].
  right. eexists. by apply insert_product_Some in Hins.
Qed.

(** [update], however it ends: no row has changed and the answer is
    [False]; or the row of the product is rewritten, and then the answer
    is [True] unless closing failed after the [commit]. *)
Lemma update_result (product : Product.t money) w r w' :
  product_repo.update product w = (r, w') →
  (r = Returned false ∧ tables w' = tables w)
  ∨ ∃ k old,
      Product.id product = Some k ∧ k ≠ 0
      ∧ tbl_products (tables w) !! k = Some old
      ∧ barcode_taken (tables w) (Some k) (Product.barcode product) = false
      ∧ tables w'
        = set_products (tables w)
            (<[k := product_repo.to_row product]> (tbl_products (tables w)))
      ∧ (r = Returned true ∨ r = Returned false ∧ ¬ storage_up w).
Proof.
  unfold product_repo.update. intros Hrun.
  apply try_except_pure_inv in Hrun as (r0&Hrun&Hr).
  destruct (Product.id product) as [k|] eqn:Hid.
  2:{ injection Hrun as <- <-. left.
      by destruct Hr as [(a&[= <-]&->)|((e&[=])&_)]. }
  simpl in Hrun. case_bool_decide as Hk.
  { injection Hrun as <- <-. left.
    by destruct Hr as [(a&[= <-]&->)|((e&[=])&_)]. }
  apply connect_inv in Hrun
    as [(He&(Ht&_)&_)|(conn&w1&Hv&((Ht1&Hfr1&_)&_)&Hcalm1&Hrun)].
  { left. split; [|done]. by destruct Hr as [(a&->&_)|(_&->)];
      [destruct He as [e [=]]|]. }
  apply update_commit_release_inv in Hrun
    as [(He&(Ht3&_)&_)|(t&n&Hstmt&Hend)].
  { left. split; [|congruence]. by destruct Hr as [(a&->&_)|(_&->)];
      [destruct He as [e [=]]|]. }
  unfold update_product in Hstmt. rewrite Hv, Hfr1 in Hstmt.
  destruct (tbl_products (tables w) !! k) as [old|] eqn:Hold.
  2:{ injection Hstmt as <- <-. left.
      destruct Hend as [(Ht&He&_)|(w3&Ht&Hk')].
      - split; [|done]. by destruct Hr as [(a&->&_)|(_&->)];
          [destruct He as [e [=]]|].
      - rewrite bool_decide_eq_false_2 in Hk' by lia.
        injection Hk' as <- <-. split; [|done].
        by destruct Hr as [(a&[= <-]&->)|((e&[=])&_)]. }
  destruct (barcode_taken _ _ _) eqn:Htaken; [done|].
  injection Hstmt as <- <-.
  destruct Hend as [(Ht&He&Hdown)|(w3&Ht&Hk')].
  - right. exists k, old. repeat (split; [done|]). right. split.
    + by destruct Hr as [(a&->&_)|(_&->)]; [destruct He as [e [=]]|].
    + intros Hup. by apply Hdown, Hcalm1.
  - destruct (bool_decide (0 < _)) eqn:Hpos; injection Hk' as <- <-.
    + right. exists k, old. repeat (split; [done|]). left.
      by destruct Hr as [(a&[= <-]&->)|((e&[=])&_)].
    + left. split; [by destruct Hr as [(a&[= <-]&->)|((e&[=])&_)]|].
      unfold affected_rows in Hpos. destruct (found_rows w); [done|].
      destruct (decide (old = product_repo.to_row product)) as [Hsame|];
        [|done].
      rewrite Ht, <- Hsame, insert_id by done. by destruct (tables w).
Qed.

Lemma update_inv (product : Product.t money) w r w' :
  product_repo.update product w = (r, w') →
  tables w' = tables w
  ∨ ∃ k, tables w'
         = set_products (tables w)
             (<[k := product_repo.to_row product]> (tbl_products (tables w))).
Proof.
  intros [(_&?)|(k&old&_&_&_&_&?&_)]%update_result; [by left|].
  right. by exists k.
Qed.

Lemma stock_nonneg_insert t k (r : products.row money) :
  stock_nonneg t → 0 ≤ products.quantity r →
  stock_nonneg (set_products t (<[k := r]> (tbl_products t))).
Proof. unfold stock_nonneg. intros Ht Hq. by apply map_Forall_insert_2. Qed.

Lemma create_product_keeps_nonneg (product : Product.t money) w r w' :
  inventory_service.create_product product w = (r, w') →
  stock_nonneg (tables w) → stock_nonneg (tables w').
Proof.
  unfold inventory_service.create_product, require_permission.
  intros Hrun Hinv.
  destruct (auth.check_permission _ _); [|by injection Hrun as <- <-].
  case_decide; [by injection Hrun as <- <-|].
  destruct (money_ltb _ _); [by injection Hrun as <- <-|].
  case_bool_decide as Hq; [by injection Hrun as <- <-|].
  assert (∀ w1 r1 w2, tables w1 = tables w →
            product_repo.create product w1 = (r1, w2) →
            stock_nonneg (tables w2)) as Hcreate.
  { intros w1 r1 w2 Ht [Ht'|(k&Ht')]%create_inv; rewrite Ht', Ht; [done|].
    apply stock_nonneg_insert; [done|simpl; lia]. }
  destruct (inventory_service.truthy _) as [code|]; [|by eapply Hcreate].
  apply bind_inv in Hrun as [(e&Hget&_)|(existing&w1&Hget&Hrun)].
  { apply get_by_barcode_quiet in Hget as ((Ht&_)&_). by rewrite Ht. }
  apply get_by_barcode_quiet in Hget as ((Ht&_)&_).
  destruct existing; [injection Hrun as <- <-; by rewrite Ht|].
  by eapply Hcreate.
Qed.

Lemma update_product_keeps_nonneg (product : Product.t money) w r w' :
  inventory_service.update_product product w = (r, w') →
  stock_nonneg (tables w) → stock_nonneg (tables w').
Proof.
  unfold inventory_service.update_product, require_permission.
  intros Hrun Hinv.
  destruct (auth.check_permission _ _); [|by injection Hrun as <- <-].
  destruct (product_repo.falsy_id _); [by injection Hrun as <- <-|].
  case_decide; [by injection Hrun as <- <-|].
  destruct (money_ltb _ _); [by injection Hrun as <- <-|].
  case_bool_decide as Hq; [by injection Hrun as <- <-|].
  assert (∀ w1 r1 w2, tables w1 = tables w →
            product_repo.update product w1 = (r1, w2) →
            stock_nonneg (tables w2)) as Hupdate.
  { intros w1 r1 w2 Ht [Ht'|(k&Ht')]%update_inv; rewrite Ht', Ht; [done|].
    apply stock_nonneg_insert; [done|simpl; lia]. }
  destruct (inventory_service.truthy _) as [code|]; [|by eapply Hupdate].
  apply bind_inv in Hrun as [(e&Hget&_)|(existing&w1&Hget&Hrun)].
  { apply get_by_barcode_quiet in Hget as ((Ht&_)&_). by rewrite Ht. }
  apply get_by_barcode_quiet in Hget as ((Ht&_)&_).
  destruct existing as [e|]; [|by eapply Hupdate].
  case_decide; [injection Hrun as <- <-; by rewrite Ht|].
  by eapply Hupdate.
Qed.

Lemma sold_absent (items : list (SaleItem.t money)) product_id :
  product_id ∉ SaleItem.product_id <$> items → sold items product_id = 0.
Proof.
  induction items as [|item rest IH]; [done|].
  rewrite fmap_cons, not_elem_of_cons, sold_cons. intros [Hne Hrest].
  rewrite decide_False by done. rewrite IH by done. lia.
Qed.

Lemma sold_renamed (items items' : list (SaleItem.t money)) product_id :
  Forall2 renamed items items' →
  sold items' product_id = sold items product_id.
Proof.
  induction 1 as [|a b rest rest' Hab _ IH]; [done|].
  rewrite !sold_cons, IH. by rewrite Hab.
Qed.

(** With one line per product, and every line within its product's
    stock, no product sells more than it has. *)
Lemma sold_within_stock t (items : list (SaleItem.t money)) product_id q :
  NoDup (SaleItem.product_id <$> items) →
  Forall (λ item, ¬ line_fails t item) items →
  stock t product_id = Some q → 0 ≤ q →
  sold items product_id ≤ q.
Proof.
  intros Hdistinct Hpass Hstock Hq.
  induction Hpass as [|item rest Hitem _ IH]; [simpl; lia|].
  rewrite fmap_cons in Hdistinct.
  apply list.NoDup_cons in Hdistinct as [Hnew Hrest].
  rewrite sold_cons. destruct (decide (SaleItem.product_id item = product_id))
    as [Heq|Hne].
  - rewrite Heq in Hnew. rewrite sold_absent by done.
    unfold line_fails in Hitem. rewrite Heq, Hstock in Hitem. lia.
  - specialize (IH Hrest). lia.
Qed.

Lemma create_sale_keeps_nonneg (sale : Sale.t money) w r w' :
  lines_distinct sale →
  sales_service.create_sale sale w = (r, w') →
  stock_nonneg (tables w) → stock_nonneg (tables w').
Proof.
  intros Hdistinct Hrun Hinv.
  apply create_sale_inv in Hrun
    as [(_&_&->)|[(_&_&(Ht&_))|(_&session&items'&_&Hren&Hpass&_&Hrec)]];
    [done|by rewrite Ht|].
  destruct Hrec as (_&_&_&_&_&Hstock).
  intros p r' Hr'. rewrite Hstock in Hr'. simpl in Hr'.
  destruct (tbl_products (tables w) !! p) as [row|] eqn:Hrow; [|done].
  injection Hr' as <-. simpl.
  rewrite (sold_renamed _ _ _ Hren).
  pose proof (Hinv p row Hrow) as Hq. simpl in Hq.
  pose proof (sold_within_stock (tables w) (Sale.items sale) p
                (products.quantity row) Hdistinct Hpass) as Hsold.
  unfold stock in Hsold. rewrite Hrow in Hsold.
  specialize (Hsold eq_refl Hq). lia.
Qed.

(** X28. Every core operation keeps the stock non-negative, whatever the
    storage does, as long as a committed draft has one line per product
    (which the cart's merge provides). *)
Lemma core_op_keeps_stock_nonneg (op : core_op) w :
  one_line_per_product op →
  stock_nonneg (tables w) →
  stock_nonneg (tables (run_core_op op w)).
Proof.
  destruct op as [product|product|p d|sale]; simpl; intros Hop Hinv.
  - destruct (inventory_service.create_product product w) as [r w'] eqn:Hrun.
    by eapply create_product_keeps_nonneg.
  - destruct (inventory_service.update_product product w) as [r w'] eqn:Hrun.
    by eapply update_product_keeps_nonneg.
  - destruct (inventory_service.update_stock p d w) as [r w'] eqn:Hrun.
    by eapply update_stock_keeps_nonneg.
  - destruct (sales_service.create_sale sale w) as [r w'] eqn:Hrun.
    by eapply create_sale_keeps_nonneg.
Qed.

(** The cart operations keep one line per product. *)
Lemma merge_line_ids (items items' : list (SaleItem.t money)) product_id q :
  sales_service.merge_line items product_id q = Some items' →
  SaleItem.product_id <$> items' = SaleItem.product_id <$> items.
Proof.
  revert items'. induction items as [|item rest IH]; intros items'; simpl;
    [done|].
  case_decide.
  - by intros [= <-].
  - destruct (sales_service.merge_line rest _ _) as [rest'|]; [|done].
    intros [= <-]. simpl. f_equal. by apply IH.
Qed.

Lemma merge_line_None (items : list (SaleItem.t money)) product_id q :
  sales_service.merge_line items product_id q = None →
  product_id ∉ SaleItem.product_id <$> items.
Proof.
  induction items as [|item rest IH]; simpl; [intros _; apply not_elem_of_nil|].
  case_decide; [done|].
  destruct (sales_service.merge_line rest _ _) as [rest'|]; [done|].
  intros _. rewrite not_elem_of_cons. split; [done|by apply IH].
Qed.

Lemma remove_line_ids (items items' : list (SaleItem.t money)) product_id q :
  sales_service.remove_line items product_id q = Some items' →
  SaleItem.product_id <$> items' `sublist_of` SaleItem.product_id <$> items.
Proof.
  revert items'. induction items as [|item rest IH]; intros items'; simpl;
    [done|].
  case_decide.
  - destruct q as [q|]; [case_bool_decide|]; intros [= <-]; simpl;
      try by apply sublist_cons. done.
  - destruct (sales_service.remove_line rest _ _) as [rest'|]; [|done].
    intros [= <-]. simpl. apply sublist_skip. by apply IH.
Qed.

Lemma run_cart_op_distinct op (sale : Sale.t money) w b sale' w' :
  lines_distinct sale →
  run_cart_op op sale w = (Returned (b, sale'), w') →
  lines_distinct sale'.
Proof.
  unfold lines_distinct. destruct op as [p q|p q]; simpl; intros Hd Hrun.
  - unfold sales_service.add_product_to_sale, require_permission in Hrun.
    destruct (auth.check_permission _ _); [|done].
    apply bind_inv in Hrun as [(e&_&[=])|(pr&w1&_&Hrun)].
    destruct pr as [pr|]; [|by injection Hrun as <- <- <-].
    case_bool_decide; [by injection Hrun as <- <- <-|].
    destruct (sales_service.merge_line _ _ _) as [items|] eqn:Hmerge;
      injection Hrun as <- <- <-; simpl.
    + by rewrite (merge_line_ids _ _ _ _ Hmerge).
    + rewrite fmap_app. simpl. apply list.NoDup_app. split; [done|].
      split; [|apply NoDup_singleton].
      intros x Hx ->%list_elem_of_singleton.
      by apply merge_line_None in Hmerge.
  - unfold sales_service.remove_product_from_sale, require_permission in Hrun.
    destruct (auth.check_permission _ _); [|done].
    destruct (sales_service.remove_line _ _ _) as [items|] eqn:Hrem;
      injection Hrun as <- <- <-; [|done].
    apply (sublist_NoDup _ (SaleItem.product_id <$> Sale.items sale));
      [done|by eapply remove_line_ids].
Qed.

(** X22. A cart built by the cart functions from an empty cart never holds
    two lines for one product, whatever quantities were added or
    removed. *)
Lemma cart_lines_stay_distinct P (sale0 sale : Sale.t money) :
  Sale.items sale0 = [] →
  cart_reaches P sale0 sale →
  lines_distinct sale.
Proof.
  intros Hempty Hreach. induction Hreach as [|s op w b s' w' _ IH _ Hrun].
  - unfold lines_distinct. rewrite Hempty. apply NoDup_nil_2.
  - by eapply run_cart_op_distinct.
Qed.
End runs.

(** ** The model at work *)

Section shop.
Import storage runtime properties examples.

Lemma shelves_nonneg : stock_nonneg shelves.
Proof.
  unfold stock_nonneg, shelves. simpl.
  apply map_Forall_insert_2; [simpl; lia|].
  apply map_Forall_insert_2; [simpl; lia|].
  apply map_Forall_empty.
Defined.

(** Scenario A of the spec: three packets out of five are sold for
    30.00, two are left. *)
Example scenario_a :
  let run := sales_service.create_sale (cart_of [line 1 "tea" 3 1000]) shop in
  answer run.1 = Returned (true, Some 1)
  ∧ stock (tables run.2) 1 = Some 2
  ∧ sales.total_amount <$> tbl_sales (tables run.2) !! 1 = Some 3000.
Proof. vm_compute. by repeat split. Qed.

(** Scenario B: six packets cannot be added to the cart. *)
Example scenario_b :
  sales_service.add_product_to_sale empty_cart 1 6 shop
  = (Returned (false, empty_cart), shop).
Proof. vm_compute. reflexivity. Qed.

(** Scenario D: the mugs ran out; neither line is committed. *)
Example scenario_d :
  let run :=
    sales_service.create_sale
      (cart_of [line 1 "tea" 2 1000; line 2 "mug" 3 450]) shop in
  answer run.1 = Returned (false, None) ∧ tables run.2 = shelves.
Proof. vm_compute. by repeat split. Qed.

(** A transaction whose [commit] raises (the seventh call that goes to
    the server) leaves the rows as they were, though it has consumed a
    sale id. *)
Example commit_aborted :
  let run :=
    sales_repo.create_sale_with_items (cart_of [line 1 "tea" 3 1000])
      (shop_with [false; false; false; false; false; false; true]) in
  run.1 = Returned (false, None)
  ∧ tables run.2 = shelves
  ∧ next_sale_id (counters run.2) = 2.
Proof. vm_compute. by repeat split. Qed.

(** *** A sale that is committed and not reported *)



(** *** Oversold stock *)

(** C2. A draft with two lines for the same product passes the
    per-line stock check of [create_sale] twice and is committed; the
    two decrements together take the quantity-on-hand below zero.  The
    stock was non-negative before and is not afterwards. *)
Theorem create_sale_duplicate_lines_oversell :
  let sale := cart_of [line 1 "tea" 3 1000; line 1 "tea" 3 1000] in
  let run := sales_service.create_sale sale shop in
  stock_nonneg (tables shop)
  ∧ answer run.1 = Returned (true, Some 1)
  ∧ stock (tables run.2) 1 = Some (-1)
  ∧ ¬ stock_nonneg (tables run.2).
Proof.
  split; [apply shelves_nonneg|].
  split; [by vm_compute|]. split; [by vm_compute|].
  intros Hinv.
  specialize (Hinv 1 (products.mk (Some "111") "tea" 1000 (-1))).
  assert (0 ≤ -1) as Hq by (apply Hinv; by vm_compute). lia.
Qed.

(** *** A delta of zero *)

(** C6. The product exists and [5 + 0] is not negative, yet
    [update_stock(1, 0)] answers [False]: the [UPDATE] stores the value
    the row already has, the server reports zero affected rows, and
    [update_quantity] takes that for a missing product. *)
Theorem update_stock_zero_delta_rejected :
  stock (tables shop) 1 = Some 5
  ∧ found_rows shop = false
  ∧ inventory_service.update_stock 1 0 shop = (Returned false, shop).
Proof. by vm_compute. Qed.

(** *** A merge beyond the stock *)

(** C7. The cart holds three packets of tea and five are in stock;
    adding three more succeeds and leaves one line of six: only the
    added quantity is compared with the stock. *)
Theorem add_product_to_sale_merge_exceeds_stock :
  stock (tables shop) 1 = Some 5
  ∧ sales_service.add_product_to_sale (cart_of [line 1 "tea" 3 1000]) 1 3 shop
    = (Returned (true, cart_of [line 1 "tea" 6 1000]), shop).
Proof. by vm_compute. Qed.

(** *** Two terminals, one product *)

(** C3 fails as stated.  Five packets are in stock; one terminal takes
    three off, the other four.  Each delta alone passes the check, the
    two together would leave [-2].  When both calls read before either
    writes, both succeed, and the stock ends at [1]. *)
Lemma update_stock_race_both_succeed :
  let s :=
    interleaving.run false
      [interleaving.First; interleaving.Second;
       interleaving.First; interleaving.Second;
       interleaving.First; interleaving.Second]
      (interleaving.mkSystem shelves
         (interleaving.start 1 (-3)) (interleaving.start 1 (-4))) in
  stock shelves 1 = Some 5
  ∧ 0 ≤ 5 + -3 ∧ 0 ≤ 5 + -4 ∧ 5 + -3 + -4 < 0
  ∧ interleaving.succeeded (interleaving.first s) = true
  ∧ interleaving.succeeded (interleaving.second s) = true
  ∧ stock (interleaving.rows s) 1 = Some 1.
Proof. vm_compute. repeat split; congruence. Qed.

Lemma interleaved_update_stock_keeps_stock_nonneg_witness :
  stock_nonneg
    (interleaving.rows
       (interleaving.run false
          [interleaving.First; interleaving.Second;
           interleaving.First; interleaving.Second;
           interleaving.First; interleaving.Second]
          (interleaving.mkSystem shelves
             (interleaving.start 1 (-3)) (interleaving.start 1 (-4))))).
Proof.
  apply (interleaved_update_stock_keeps_stock_nonneg (money:=Z)).
  apply shelves_nonneg.
Defined.

(** *** Validation at commit time *)

Lemma create_sale_revalidates_witness :
  let run := sales_service.create_sale (cart_of [line 2 "mug" 3 450]) shop in
  nothing_written shop run.2
  ∧ (run.1 = Raised PermissionError ∧ run.2 = shop
     ∨ failed run.1
       ∧ run.2
         = (sales_service.validate_items [line 2 "mug" 3 450] shop).2).
Proof.
  apply (create_sale_revalidates (money:=Z) (cart_of [line 2 "mug" 3 450]) shop).
  - apply surjective_pairing.
  - apply Exists_cons_hd. vm_compute. reflexivity.
Defined.


(** *** What a failed commit tells the caller *)

(** C9 fails as stated.  A product that does not exist, a product that
    is short of stock, a storage that cannot be reached when the
    transaction opens (the sixth call, after the five of the validation
    read) and a [commit] that is aborted (the twelfth) all hand the
    caller the same pair [(False, None)]. *)
Lemma create_sale_failures_look_alike :
  let missing := cart_of [line 9 "gone" 1 100] in
  let short := cart_of [line 2 "mug" 3 450] in
  let fine := cart_of [line 1 "tea" 1 1000] in
  let unreachable := shop_with [false; false; false; false; false; true] in
  let aborted :=
    shop_with [false; false; false; false; false; false; false; false;
               false; false; false; true] in
  stock shelves 9 = None
  ∧ stock shelves 2 = Some 2
  ∧ stock shelves 1 = Some 5
  ∧ answer (sales_service.create_sale missing shop).1
    = Returned (false, None)
  ∧ answer (sales_service.create_sale short shop).1
    = Returned (false, None)
  ∧ answer (sales_service.create_sale fine unreachable).1
    = Returned (false, None)
  ∧ answer (sales_service.create_sale fine aborted).1
    = Returned (false, None)
  ∧ answer (sales_service.create_sale fine shop).1
    = Returned (true, Some 1).
Proof. vm_compute. by repeat split. Qed.

(** The [commit] is aborted, the ping of the [except] block goes
    through and its [conn.rollback()] fails: the exception of the
    rollback reaches the caller of [create_sale]. *)
Example rollback_failure_escapes :
  (sales_service.create_sale (cart_of [line 1 "tea" 1 1000])
     (shop_with [false; false; false; false; false; false; false; false;
                 false; false; false; true; false; true])).1
  = Raised DatabaseError.
Proof. vm_compute. reflexivity. Qed.

Lemma create_sale_failure_is_untyped_witness :
  let sale := cart_of [line 1 "tea" 1 1000] in
  let w :=
    shop_with [false; false; false; false; false; false; false; false;
               false; false; false; true; false; true] in
  let run := sales_service.create_sale sale w in
  (answer run.1 = Returned (false, None)
   ∨ answer run.1 = Returned (true, Some (next_sale_id (counters w)))
   ∨ escaped (answer run.1))
  ∧ (Sale.items sale = []
     ∨ Exists (line_fails (tables w)) (Sale.items sale) →
     answer run.1 = Returned (false, None))
  ∧ (storage_up w → ¬ escaped (answer run.1)).
Proof.
  apply (create_sale_failure_is_untyped (money:=Z)
           (cart_of [line 1 "tea" 1 1000])
           (shop_with [false; false; false; false; false; false; false;
                       false; false; false; false; true; false; true])
           _ (sales_service.create_sale (cart_of [line 1 "tea" 1 1000])
                (shop_with [false; false; false; false; false; false;
                            false; false; false; false; false; true;
                            false; true])).2).
  - vm_compute. reflexivity.
  - apply surjective_pairing.
Defined.

(** *** The cart *)

Lemma remove_product_from_sale_spec_witness :
  let cart := cart_of [line 1 "tea" 3 1000; line 2 "mug" 2 450] in
  (Forall (λ item, SaleItem.product_id item ≠ 2) (Sale.items cart) →
     sales_service.remove_product_from_sale cart 2 (Some 1) shop
     = (Returned (false, cart), shop))
  ∧ (∀ before item after,
       Sale.items cart = before ++ item :: after →
       Forall (λ item, SaleItem.product_id item ≠ 2) before →
       SaleItem.product_id item = 2 →
       ∃ lines,
         sales_service.remove_product_from_sale cart 2 (Some 1) shop
         = (Returned (true, Sale.set_items cart lines), shop)
         ∧ (Some 1 = None → lines = before ++ after)
         ∧ (∀ q, Some 1 = Some q → q < SaleItem.quantity item →
              lines = before
                      ++ SaleItem.set_quantity item (SaleItem.quantity item - q)
                      :: after)
         ∧ (∀ q, Some 1 = Some q → SaleItem.quantity item ≤ q →
              lines = before ++ after)).
Proof.
  apply (remove_product_from_sale_spec (money:=Z)
           (cart_of [line 1 "tea" 3 1000; line 2 "mug" 2 450]) 2 (Some 1) shop).
  vm_compute. reflexivity.
Defined.

(** Scenario E of the spec, and the two other ways of removing. *)
Example scenario_e :
  let cart := cart_of [line 1 "tea" 3 1000; line 2 "mug" 2 450] in
  sales_service.remove_product_from_sale cart 1 None shop
  = (Returned (true, cart_of [line 2 "mug" 2 450]), shop)
  ∧ sales_service.remove_product_from_sale cart 1 (Some 1) shop
    = (Returned (true, cart_of [line 1 "tea" 2 1000; line 2 "mug" 2 450]),
       shop)
  ∧ sales_service.remove_product_from_sale cart 1 (Some 3) shop
    = (Returned (true, cart_of [line 2 "mug" 2 450]), shop)
  ∧ sales_service.remove_product_from_sale cart 9 None shop
    = (Returned (false, cart), shop).
Proof. by vm_compute. Qed.

(** C10 fails as stated.  [add_product_to_sale] with a quantity of zero
    succeeds on a product in stock and leaves a line of quantity zero. *)
Lemma cart_line_with_quantity_zero :
  cart_reaches (λ _, True) empty_cart (cart_of [line 1 "tea" 0 1000])
  ∧ ¬ lines_positive (cart_of [line 1 "tea" 0 1000]).
Proof.
  split.
  - apply (cart_next _ _ empty_cart (AddProduct 1 0) shop true _ shop);
      [apply cart_start|done|by vm_compute].
  - unfold lines_positive. intros [Hq _]%Forall_cons_1. simpl in Hq. lia.
Qed.

Lemma cart_lines_stay_positive_witness :
  lines_positive (cart_of [line 1 "tea" 2 1000]).
Proof.
  apply (cart_lines_stay_positive (money:=Z) empty_cart).
  - reflexivity.
  - apply (cart_next _ _ (cart_of [line 1 "tea" 3 1000])
             (RemoveProduct 1 (Some 1)) shop true _ shop).
    + apply (cart_next _ _ empty_cart (AddProduct 1 3) shop true _ shop).
      * apply cart_start.
      * simpl. lia.
      * vm_compute. reflexivity.
    + exact I.
    + vm_compute. reflexivity.
Defined.
End shop.

(** * The rest of the services *)

Section coverage.
Import storage runtime properties conventions.
Context `{Money money} `{Collation}.

Implicit Types (w : World money) (t : Tables money) (conn : Conn money).

#[local] Instance nothing_committed_po :
  PreOrder (nothing_committed (money:=money)).
Proof.
  split; [by intros w|].
  intros w1 w2 w3 (?&?&?) (?&?&?). repeat split; congruence.
Qed.

#[local] Instance nothing_written_po :
  PreOrder (nothing_written (money:=money)).
Proof.
  split; [by intros w|].
  intros w1 w2 w3 [? ?] [? ?]. split; [by etrans|congruence].
Qed.

#[local] Instance calm_po : PreOrder (calm (money:=money)).
Proof.
  split.
  - by intros w Hup.
  - intros w1 w2 w3 H12 H23 Hup. by apply H23, H12.
Qed.

(** ** Exceptions stop at the repositories *)

Lemma never_raises_ret {A} (a : A) : never_raises (mret a : M money A).
Proof. by intros w e w'. Qed.

Lemma never_raises_bind {A B} (m : M money A) (f : A → M money B) :
  never_raises m → (∀ a, never_raises (f a)) → never_raises (m ≫= f).
Proof.
  intros Hm Hf w e w' Hrun.
  apply bind_inv in Hrun as [(e'&Hrun&_)|(a&w1&_&Hrun)].
  - by apply Hm in Hrun.
  - by apply Hf in Hrun.
Qed.

(** A [try] whose handler returns a value lets nothing out. *)
Lemma never_raises_try_except {A} (body : M money A) handler :
  (∀ e, never_raises (handler e)) → never_raises (try_except body handler).
Proof.
  intros Hh w e w' Hrun.
  apply try_except_inv in Hrun as [(a&_&[=])|(e'&w1&_&Hrun)].
  by apply Hh in Hrun.
Qed.

Lemma never_raises_get_world : never_raises (get_world (money:=money)).
Proof. by intros w e w'. Qed.

Lemma never_raises_validate_items (items : list (SaleItem.t money)) :
  never_raises (sales_service.validate_items items).
Proof.
  intros w e w' Hrun. by apply validate_items_inv in Hrun as (_&?&?&[=]&_).
Qed.

Lemma guarded_require_permission {A} permission (m : M money A) :
  never_raises m → guarded permission (require_permission permission m).
Proof.
  intros Hm w. unfold permitted, require_permission.
  destruct (auth.check_permission _ _); split; try done.
  intros _. destruct (m w) as [[a|e] w'] eqn:Hrun; [eauto|].
  by apply Hm in Hrun.
Qed.

Ltac caught :=
  apply never_raises_try_except; intros; apply never_raises_ret.

Lemma repositories_never_raise :
  (∀ product_id, never_raises (product_repo.get_by_id (money:=money) product_id))
  ∧ (∀ code, never_raises (product_repo.get_by_barcode (money:=money) code))
  ∧ never_raises (product_repo.get_all (money:=money))
  ∧ (∀ product, never_raises (product_repo.create (money:=money) product))
  ∧ (∀ product, never_raises (product_repo.update (money:=money) product))
  ∧ (∀ product_id delta,
       never_raises (product_repo.update_quantity (money:=money) product_id delta))
  ∧ (∀ product_id, never_raises (product_repo.delete (money:=money) product_id))
  ∧ (∀ sale_id, never_raises (sales_repo.get_by_id (money:=money) sale_id)).
Proof. repeat apply conj; intros; caught. Qed.

(** X1. Without the permission the wrapper raises [PermissionError] and
    the function body is not entered: the world is exactly as it was.
    With the permission every service function but [create_sale]
    returns, whatever the storage does: a storage exception is caught
    in the repository and turned into [None], [False], [(False, None)]
    or an empty list by an [except] block that only logs.
    [create_sale] returns as well when the storage is up; under storage
    faults it returns or lets out an exception of the [except] block of
    [create_sale_with_items], which is not a [PermissionError]. *)
Theorem services_behind_require_permission :
  (∀ product,
     guarded auth.Permission.INVENTORY_EDIT
       (inventory_service.create_product (money:=money) product))
  ∧ (∀ product,
       guarded auth.Permission.INVENTORY_EDIT
         (inventory_service.update_product (money:=money) product))
  ∧ (∀ product_id delta,
       guarded auth.Permission.INVENTORY_EDIT
         (inventory_service.update_stock (money:=money) product_id delta))
  ∧ (∀ product_id,
       guarded auth.Permission.INVENTORY_EDIT
         (inventory_service.delete_product (money:=money) product_id))
  ∧ guarded auth.Permission.INVENTORY_VIEW
      (inventory_service.get_all_products (money:=money))
  ∧ (∀ product_id,
       guarded auth.Permission.INVENTORY_VIEW
         (inventory_service.get_product_by_id (money:=money) product_id))
  ∧ (∀ code,
       guarded auth.Permission.INVENTORY_VIEW
         (inventory_service.get_product_by_barcode (money:=money) code))
  ∧ (∀ threshold,
       guarded auth.Permission.INVENTORY_VIEW
         (inventory_service.get_low_stock_products (money:=money) threshold))
  ∧ (∀ sale,
       guarded_unless_faults auth.Permission.SALES_CREATE
         (sales_service.create_sale (money:=money) sale))
  ∧ (∀ sale product_id quantity,
       guarded auth.Permission.SALES_CREATE
         (sales_service.add_product_to_sale (money:=money)
            sale product_id quantity))
  ∧ (∀ sale product_id quantity,
       guarded auth.Permission.SALES_CREATE
         (sales_service.remove_product_from_sale (money:=money)
            sale product_id quantity))
  ∧ (∀ sale_id,
       guarded auth.Permission.SALES_VIEW
         (sales_service.get_sale_by_id (money:=money) sale_id)).
Proof.
  destruct repositories_never_raise
    as (Hget&Hbar&Hall&Hcreate&Hupdate&Hqty&Hdelete&Hread).
  repeat apply conj; intros;
    try (apply guarded_require_permission).
  - case_decide; [apply never_raises_ret|].
    destruct (money_ltb _ _); [apply never_raises_ret|].
    case_bool_decide; [apply never_raises_ret|].
    destruct (inventory_service.truthy _) as [code|]; [|apply Hcreate].
    apply never_raises_bind; [apply Hbar|]. intros [existing|];
      [apply never_raises_ret|apply Hcreate].
  - destruct (product_repo.falsy_id _); [apply never_raises_ret|].
    case_decide; [apply never_raises_ret|].
    destruct (money_ltb _ _); [apply never_raises_ret|].
    case_bool_decide; [apply never_raises_ret|].
    destruct (inventory_service.truthy _) as [code|]; [|apply Hupdate].
    apply never_raises_bind; [apply Hbar|]. intros [existing|];
      [|apply Hupdate].
    case_decide; [apply never_raises_ret|apply Hupdate].
  - apply never_raises_bind; [apply Hget|]. intros [p|];
      [|apply never_raises_ret].
    case_bool_decide; [apply never_raises_ret|apply Hqty].
  - apply Hdelete.
  - apply Hall.
  - apply Hget.
  - apply Hbar.
  - apply never_raises_bind; [apply Hall|]. intros. apply never_raises_ret.
  - intros w. split.
    + intros Hperm.
      destruct (sales_service.create_sale sale w) as [[a|e] w'] eqn:Hrun;
        [left; eauto|right].
      exists e, w'. split; [done|]. split.
      * apply create_sale_inv in Hrun
          as [(Hno&_)
             |[(_&[(?&[=])|(e'&[= <-]&He)]&_)
              |(_&?&?&_&_&_&[[=]|[(?&[=])|(e'&[= <-]&He)]]&_)]]; done.
      * intros Hup.
        by destruct (create_sale_returns sale w _ _ Hperm Hup Hrun) as [a [=]].
    + unfold permitted, sales_service.create_sale, require_permission.
      by destruct (auth.check_permission _ _).
  - apply never_raises_bind; [apply Hget|]. intros [p|];
      [|apply never_raises_ret].
    case_bool_decide; [apply never_raises_ret|].
    destruct (sales_service.merge_line _ _ _); apply never_raises_ret.
  - destruct (sales_service.remove_line _ _ _); apply never_raises_ret.
  - apply Hread.
Qed.

(** ** Sessions and roles *)

Lemma permitted_login user w permission :
  permitted permission (login user w).2
  ↔ permission ∈ auth.ROLE_PERMISSIONS (User.role user).
Proof.
  unfold permitted, login. simpl. by rewrite bool_decide_eq_true.
Qed.

Ltac by_role user :=
  unfold auth.ROLE_PERMISSIONS, auth.Permission.SALES_CREATE,
    auth.Permission.SALES_VIEW, auth.Permission.INVENTORY_VIEW,
    auth.Permission.INVENTORY_EDIT, auth.Permission.USER_MANAGE,
    auth.Permission.SETTINGS_EDIT;
  destruct (decide (User.role user = "cashier")) as [Hc|Hc];
  [rewrite ?Hc
  |destruct (decide (User.role user = "manager")) as [Hm|Hm];
   [rewrite ?Hm
   |destruct (decide (User.role user = "admin")) as [Ha|Ha];
    [rewrite ?Ha|]]];
  cbv iota; rewrite ?elem_of_cons, ?elem_of_nil;
  intuition (try discriminate; try congruence).

(** X2. What a login grants depends on the role alone: every known role may
    view and create sales and view the inventory; editing the inventory
    takes a manager or an admin, managing users an admin; a role the
    table does not list gets nothing.  After [logout] nothing is
    permitted. *)
Theorem login_grants_by_role user w :
  let known := User.role user ∈ ["cashier"; "manager"; "admin"] in
  let w1 := (login user w).2 in
  (permitted auth.Permission.SALES_CREATE w1 ↔ known)
  ∧ (permitted auth.Permission.SALES_VIEW w1 ↔ known)
  ∧ (permitted auth.Permission.INVENTORY_VIEW w1 ↔ known)
  ∧ (permitted auth.Permission.INVENTORY_EDIT w1
     ↔ User.role user = "manager" ∨ User.role user = "admin")
  ∧ (permitted auth.Permission.USER_MANAGE w1 ↔ User.role user = "admin")
  ∧ (∀ permission : string, permitted permission w1 → known)
  ∧ (∀ permission : string, ¬ permitted permission (logout w1).2).
Proof.
  intros known w1. unfold known, w1.
  rewrite !permitted_login.
  repeat apply conj;
    [by_role user .. | intros permission; rewrite permitted_login; by_role user
    | intros permission; by unfold permitted, logout].
Qed.

(** X29. A password is accepted against a stored hash exactly when it
    is the password the hash was made from: [hash_password] loses
    nothing, two passwords never share a hash, and the stored hash is
    itself accepted as a password. *)
Theorem verify_password_accepts_exactly_the_password password attempt :
  (auth.verify_password attempt (auth.hash_password password) = true
   ↔ attempt = password)
  ∧ auth.verify_password (auth.hash_password password)
      (auth.hash_password password) = true.
Proof.
  unfold auth.verify_password, auth.hash_password.
  by rewrite bool_decide_eq_true, bool_decide_eq_true_2.
Qed.

(** ** Products: create, read back *)

Lemma execute_insert_up conn tb stmt t' w :
  storage_up w →
  stmt (next_id tb (counters w)) (view conn) = Some t' →
  ∃ w', execute_insert conn tb stmt w
        = (Returned (mkConn t', next_id tb (counters w)), w')
        ∧ nothing_committed w w'
        ∧ counters w' = bump tb (counters w)
        ∧ storage_up w'.
Proof.
  intros (w1&Hcall&((Ht&Hfr&Hs)&Hc)&Hup)%storage_call_up Hstmt.
  exists (set_counters w1 (bump tb (counters w1))).
  unfold execute_insert. rewrite bind_run, Hcall, bind_run. simpl.
  rewrite Hc, Hstmt. by repeat split.
Qed.

Lemma filter_none {A} (P : A → Prop) `{!∀ x, Decision (P x)} (l : list A) :
  (∀ x, x ∈ l → ¬ P x) → filter P l = [].
Proof.
  induction l as [|x l IH]; intros Hl; [done|].
  rewrite filter_cons, decide_False by (apply Hl; left).
  apply IH. intros y Hy. apply Hl. by right.
Qed.

Lemma select_product_by_barcode_Some code t k (r : products.row money) :
  select_product_by_barcode code t = Some (k, r) →
  tbl_products t !! k = Some r ∧ products.barcode r = Some code.
Proof.
  unfold select_product_by_barcode. intros Hhead.
  apply head_Some_elem_of, list_elem_of_filter in Hhead as [Hcode Hin].
  by apply elem_of_map_to_list in Hin.
Qed.

Lemma select_product_by_barcode_None code t :
  select_product_by_barcode code t = None ↔
  map_Forall (λ _ (r : products.row money), products.barcode r ≠ Some code)
    (tbl_products t).
Proof.
  unfold select_product_by_barcode. rewrite head_None. split.
  - intros Hnil k r Hkr Hcode.
    assert ((k, r) ∈ filter (λ kr, products.barcode kr.2 = Some code)
                       (map_to_list (tbl_products t))) as Hin.
    { apply list_elem_of_filter. split; [done|]. by apply elem_of_map_to_list. }
    rewrite Hnil in Hin. by apply elem_of_nil in Hin.
  - intros Hfree. apply filter_none. intros [k r] Hin%elem_of_map_to_list.
    by apply (Hfree k r).
Qed.

Lemma get_by_barcode_up code w :
  storage_up w →
  ∃ w', product_repo.get_by_barcode code w
        = (Returned ((λ kr, product_repo.of_row kr.1 kr.2)
                       <$> select_product_by_barcode code (tables w)), w')
        ∧ nothing_written w w' ∧ storage_up w'.
Proof.
  intros Hup. unfold product_repo.get_by_barcode, try_except.
  edestruct (connect_up (money:=money) (A:=option (Product.t money)))
    as (w1&->&Hnw1&Hup1); [exact Hup|].
  destruct (execute_query_up (mkConn (tables w))
              (select_product_by_barcode code) w1 Hup1) as (w2&Hq&Hnw2&Hup2).
  rewrite bind_run, Hq.
  edestruct (release_up (money:=money) (A:=option (Product.t money)))
    as (w3&->&Hnw3&Hup3); [exact Hup2|].
  exists w3. split; [|split; [by etrans; [|etrans]|done]].
  simpl. by destruct (select_product_by_barcode code (tables w)) as [[k r]|].
Qed.

Lemma barcode_taken_false t self code :
  barcode_taken t self code = false ↔ barcode_free t self code.
Proof.
  unfold barcode_taken, barcode_free. destruct code as [c|].
  - rewrite negb_false_iff, bool_decide_eq_true. split.
    + by intros Hfree c' [= <-].
    + intros Hfree. by apply Hfree.
  - split; [by intros _ c [=]|done].
Qed.

(** An [INSERT INTO products] that the server accepts: the key was
    free, no product carried the barcode, and exactly the row is added. *)
Lemma insert_product_inv (row : products.row money) k t t' :
  insert_product row k t = Some t' →
  tbl_products t !! k = None
  ∧ barcode_free t None (products.barcode row)
  ∧ t' = set_products t (<[k := row]> (tbl_products t)).
Proof.
  unfold insert_product. case_bool_decide as Hkey; [done|].
  destruct (barcode_taken _ _ _) eqn:Htaken; [done|]. intros [= <-].
  split; [by apply eq_None_not_Some|].
  split; [by apply barcode_taken_false|done].
Qed.

(** The product as it is read back under the key [k]. *)
Lemma of_row_to_row k (product : Product.t money) :
  product_repo.of_row k (product_repo.to_row product)
  = Product.mk (Some k) (Product.barcode product) (Product.name product)
      (Product.price product) (Product.quantity product).
Proof. done. Qed.

(** X3. [create_product] refuses an empty name, a negative price and a
    negative quantity before it talks to the storage: the answer is
    [(False, None)] and the world is exactly as it was. *)
Theorem create_product_rejects_invalid_fields (product : Product.t money) w :
  permitted auth.Permission.INVENTORY_EDIT w →
  Product.name product = ""
  ∨ money_ltb (Product.price product) (money_of_int 0) = true
  ∨ Product.quantity product < 0 →
  inventory_service.create_product product w = (Returned (false, None), w).
Proof.
  unfold permitted, inventory_service.create_product, require_permission.
  intros -> Hbad.
  case_decide as Hname; [done|].
  destruct (money_ltb _ _) eqn:Hprice; [done|].
  case_bool_decide as Hq; [done|].
  destruct Hbad as [?|[?|?]]; [done|congruence|lia].
Qed.

(** X4. However [create_product] ends, whatever the storage did: either
    the answer is [(False, None)] and no row has changed; or the fields
    were valid, [id], the next key of the table, was not a product
    before, no product carried the barcode, and the store has gained
    exactly the row of the product under [id].  In the second case the
    answer is [(True, id)], unless [cursor.close()] or [conn.close()]
    raised after the [commit]: then it is [(False, None)] although the
    product is stored, which takes a storage fault. *)
Theorem create_product_sound (product : Product.t money) w r w' :
  permitted auth.Permission.INVENTORY_EDIT w →
  inventory_service.create_product product w = (r, w') →
  (r = Returned (false, None) ∧ tables w' = tables w)
  ∨ (valid_fields product
     ∧ tbl_products (tables w) !! next_product_id (counters w) = None
     ∧ barcode_free (tables w) None (Product.barcode product)
     ∧ tables w'
       = set_products (tables w)
           (<[next_product_id (counters w) := product_repo.to_row product]>
              (tbl_products (tables w)))
     ∧ (r = Returned (true, Some (next_product_id (counters w)))
        ∨ r = Returned (false, None) ∧ ¬ storage_up w)).
Proof.
  unfold permitted, inventory_service.create_product, require_permission.
  intros -> Hrun.
  case_decide as Hname; [injection Hrun as <- <-; by left|].
  destruct (money_ltb _ _) eqn:Hprice; [injection Hrun as <- <-; by left|].
  case_bool_decide as Hq; [injection Hrun as <- <-; by left|].
  assert (∀ w1, nothing_written w w1 → calm w w1 →
            product_repo.create product w1 = (r, w') →
            (r = Returned (false, None) ∧ tables w' = tables w)
            ∨ (valid_fields product
               ∧ tbl_products (tables w) !! next_product_id (counters w) = None
               ∧ barcode_free (tables w) None (Product.barcode product)
               ∧ tables w'
                 = set_products (tables w)
                     (<[next_product_id (counters w)
                        := product_repo.to_row product]>
                        (tbl_products (tables w)))
               ∧ (r = Returned (true, Some (next_product_id (counters w)))
                  ∨ r = Returned (false, None) ∧ ¬ storage_up w)))
    as Hcreate.
  { intros w1 ((Ht&_)&Hc) Hcalm [(->&Ht')|(Hins&Hr)]%create_result.
    - left. split; [done|congruence].
    - right. rewrite Hc, Ht in *.
      apply insert_product_inv in Hins as (Hnew&Hfree&Ht').
      split; [repeat split; try done; lia|].
      split; [done|]. split; [done|]. split; [done|].
      destruct Hr as [->|[-> Hdown]]; [by left|right].
      split; [done|]. intros Hup. by apply Hdown, Hcalm. }
  destruct (inventory_service.truthy _) as [code|];
    [|by eapply (Hcreate w)].
  apply bind_inv in Hrun as [(e&Hget&_)|(existing&w1&Hget&Hrun)].
  { by apply repositories_never_raise in Hget. }
  pose proof (get_by_barcode_calm _ _ _ _ Hget) as Hcalm.
  apply get_by_barcode_quiet in Hget.
  destruct existing; [|by eapply Hcreate].
  injection Hrun as <- <-. left. split; [done|]. by destruct Hget as ((?&_)&_).
Qed.

(** X5. [create_product] refuses a barcode that a product already carries:
    on a storage that is up the answer is [(False, None)] and nothing is
    written. *)
Theorem create_product_rejects_taken_barcode
    (product : Product.t money) code k row w :
  permitted auth.Permission.INVENTORY_EDIT w →
  storage_up w →
  Product.barcode product = Some code → code ≠ "" →
  tbl_products (tables w) !! k = Some row →
  products.barcode row = Some code →
  ∃ w', inventory_service.create_product product w
        = (Returned (false, None), w')
        ∧ nothing_written w w'.
Proof.
  unfold permitted, inventory_service.create_product, require_permission.
  intros -> Hup Hcode Hne Hrow Hsame.
  case_decide; [by exists w|]. destruct (money_ltb _ _); [by exists w|].
  case_bool_decide; [by exists w|].
  rewrite Hcode. simpl. rewrite decide_False by done.
  destruct (get_by_barcode_up code w Hup) as (w1&Hget&Hnw&_).
  exists w1. rewrite bind_run, Hget.
  destruct (select_product_by_barcode code (tables w)) as [[k' r']|] eqn:Hsel;
    [done|].
  apply select_product_by_barcode_None in Hsel. by destruct (Hsel k row Hrow).
Qed.

Lemma create_up (product : Product.t money) w :
  storage_up w →
  tbl_products (tables w) !! next_product_id (counters w) = None →
  barcode_free (tables w) None (Product.barcode product) →
  ∃ w',
    product_repo.create product w
    = (Returned (true, Some (next_product_id (counters w))), w')
    ∧ tables w'
      = set_products (tables w)
          (<[next_product_id (counters w) := product_repo.to_row product]>
             (tbl_products (tables w)))
    ∧ current_session w' = current_session w
    ∧ storage_up w'.
Proof.
  intros Hup Hnew Hfree. unfold product_repo.create, try_except.
  edestruct (connect_up (money:=money) (A:=bool * option Z))
    as (w1&->&((Ht1&_&Hs1)&Hc1)&Hup1); [exact Hup|].
  set (k := next_product_id (counters w)) in *.
  set (t := set_products (tables w)
              (<[k := product_repo.to_row product]> (tbl_products (tables w)))).
  destruct (execute_insert_up (mkConn (tables w)) Products
              (insert_product (product_repo.to_row product)) t w1 Hup1)
    as (w2&Hins&(_&_&Hs2)&_&Hup2).
  { rewrite Hc1. unfold insert_product. simpl. fold k.
    rewrite bool_decide_eq_false_2 by (rewrite Hnew; by intros [? ?]).
    by rewrite (proj2 (barcode_taken_false _ _ _) Hfree). }
  destruct (commit_up (mkConn t) w2 Hup2) as (w3&Hcommit&Ht3&_&_&Hs3&Hup3).
  rewrite bind_run, Hins, Hc1, bind_run, Hcommit.
  edestruct (release_up (money:=money) (A:=bool * option Z))
    as (w4&->&((Ht4&_&Hs4)&_)&Hup4); [exact Hup3|].
  exists w4. split; [done|]. split; [by rewrite Ht4, Ht3|].
  split; [congruence|done].
Qed.

Lemma select_product_by_barcode_inserted code t k (row : products.row money) :
  tbl_products t !! k = None →
  map_Forall (λ _ r, products.barcode r ≠ Some code) (tbl_products t) →
  products.barcode row = Some code →
  select_product_by_barcode code
    (set_products t (<[k := row]> (tbl_products t)))
  = Some (k, row).
Proof.
  intros Hnew Hfree Hcode. unfold select_product_by_barcode. simpl.
  assert (filter (λ kr, products.barcode kr.2 = Some code)
            (map_to_list (<[k := row]> (tbl_products t))) = [(k, row)])
    as ->; [|done].
  apply Permutation_singleton_r.
  rewrite map_to_list_insert by done.
  rewrite filter_cons, decide_True by done.
  rewrite filter_none; [done|].
  intros [k' r'] Hin%elem_of_map_to_list. by apply (Hfree k' r').
Qed.

(** X6. A product that [create_product] has created can be read back.  On a
    storage that is up, with valid fields, a barcode no product carries
    and a fresh key, the answer is [(True, id)]; afterwards
    [get_product_by_id(id)] returns the product with its fields, and so
    does [get_product_by_barcode] for its barcode; the products that
    were there are unchanged. *)
Theorem create_product_then_read (product : Product.t money) w :
  permitted auth.Permission.INVENTORY_EDIT w →
  permitted auth.Permission.INVENTORY_VIEW w →
  storage_up w →
  valid_fields product →
  barcode_free (tables w) None (Product.barcode product) →
  tbl_products (tables w) !! next_product_id (counters w) = None →
  let k := next_product_id (counters w) in
  let stored :=
    Product.mk (Some k) (Product.barcode product) (Product.name product)
      (Product.price product) (Product.quantity product) in
  ∃ w',
    inventory_service.create_product product w
    = (Returned (true, Some k), w')
    ∧ (inventory_service.get_product_by_id k w').1 = Returned (Some stored)
    ∧ (∀ code, Product.barcode product = Some code → code ≠ "" →
         (inventory_service.get_product_by_barcode code w').1
         = Returned (Some stored))
    ∧ (∀ other, other ≠ k →
         (inventory_service.get_product_by_id other w').1
         = (inventory_service.get_product_by_id other w).1).
Proof.
  intros Hedit Hview Hup (Hname&Hprice&Hq) Hfree Hnew k stored.
  unfold permitted in Hedit, Hview.
  assert (∃ w1, nothing_written w w1 ∧ storage_up w1
                ∧ inventory_service.create_product product w
                  = product_repo.create product w1) as (w1&Hnw&Hup1&Hrun).
  { unfold inventory_service.create_product, require_permission.
    rewrite Hedit, decide_False, Hprice, bool_decide_eq_false_2 by (done || lia).
    destruct (inventory_service.truthy _) as [code|] eqn:Htruthy;
      [|by exists w].
    destruct (get_by_barcode_up code w Hup) as (w1&Hget&Hnw&Hup1).
    exists w1. split; [done|]. split; [done|]. rewrite bind_run, Hget.
    assert (select_product_by_barcode code (tables w) = None) as ->; [|done].
    apply select_product_by_barcode_None. intros k' r' Hr'.
    assert (Product.barcode product = Some code) as Hcode.
    { unfold inventory_service.truthy in Htruthy.
      destruct (Product.barcode product) as [c|]; [|done].
      by case_decide; simplify_eq. }
    by destruct (Hfree code Hcode k' r' Hr'). }
  destruct Hnw as ((Ht&_&Hs)&Hc).
  destruct (create_up product w1 Hup1) as (w2&Hcreate&Ht2&Hs2&Hup2).
  { by rewrite Ht, Hc. }
  { by rewrite Ht. }
  rewrite Hc in Hcreate. rewrite Hc, Ht in Ht2. fold k in Hcreate, Ht2.
  exists w2. rewrite Hrun. split; [done|].
  assert (auth.check_permission (current_session w2)
            auth.Permission.INVENTORY_VIEW = true) as Hview2
    by (by rewrite Hs2, Hs).
  split; [|split].
  - unfold inventory_service.get_product_by_id, require_permission.
    rewrite Hview2.
    destruct (get_by_id_up k w2 Hup2) as (w3&->&_). simpl.
    by rewrite Ht2; simpl; rewrite lookup_insert_eq.
  - intros code Hcode Hne.
    unfold inventory_service.get_product_by_barcode, require_permission.
    rewrite Hview2.
    destruct (get_by_barcode_up code w2 Hup2) as (w3&->&_). simpl.
    rewrite Ht2, (select_product_by_barcode_inserted code); [done|done| |].
    + intros k' r' Hr'. by destruct (Hfree code Hcode k' r' Hr').
    + done.
  - intros other Hother.
    unfold inventory_service.get_product_by_id, require_permission.
    rewrite Hview2, Hview.
    destruct (get_by_id_up other w2 Hup2) as (w3&->&_).
    destruct (get_by_id_up other w Hup) as (w4&->&_). simpl.
    rewrite Ht2. simpl. by rewrite lookup_insert_ne.
Qed.

(** ** Products: update, adjust, delete *)

(** A repository function that sends one writing statement, commits,
    closes and answers by the row count.  However it ends: no row has
    changed and the answer is [False]; or the statement ran on the
    committed rows and its result is committed, and then the answer
    tells whether the row count was positive, unless closing failed
    after the [commit]. *)
Lemma single_statement_result
    (stmt : bool → Tables money → option (Tables money * Z)) w r w' :
  try_except
    (conn ← get_connection;
     cursor conn ;;
     '(conn, affected_rows) ← execute_update conn stmt;
     commit conn ;;
     cursor_close conn ;;
     close conn ;;
     if bool_decide (0 < affected_rows) then mret true else mret false)
    (λ e, mret false) w = (r, w') →
  (r = Returned false ∧ tables w' = tables w)
  ∨ (∃ t n, stmt (found_rows w) (tables w) = Some (t, n)
            ∧ tables w' = t
            ∧ (r = Returned (bool_decide (0 < n))
               ∨ r = Returned false ∧ ¬ storage_up w)).
Proof.
  intros Hrun.
  apply try_except_pure_inv in Hrun as (r0&Hrun&Hr).
  apply connect_inv in Hrun
    as [(He&(Ht&_)&_)|(conn&w1&Hv&((Ht1&Hfr1&_)&_)&Hcalm1&Hrun)].
  { left. split; [|done]. by destruct Hr as [(a&->&_)|(_&->)];
      [destruct He as [e [=]]|]. }
  apply update_commit_release_inv in Hrun
    as [(He&(Ht3&_)&_)|(t&n&Hstmt&Hend)].
  { left. split; [|congruence]. by destruct Hr as [(a&->&_)|(_&->)];
      [destruct He as [e [=]]|]. }
  rewrite Hv, Hfr1 in Hstmt.
  right. exists t, n. split; [done|].
  destruct Hend as [(Ht&He&Hdown)|(w3&Ht&Hk)].
  - split; [done|]. right. split.
    + by destruct Hr as [(a&->&_)|(_&->)]; [destruct He as [e [=]]|].
    + intros Hup. by apply Hdown, Hcalm1.
  - assert (r0 = Returned (bool_decide (0 < n)) ∧ w3 = w') as [-> <-]
      by (by case_bool_decide; injection Hk as <- <-).
    split; [done|]. left. by destruct Hr as [(a&[= <-]&->)|((e&[=])&_)].
Qed.

(** The same function on a storage that is up. *)
Lemma single_statement_up
    (stmt : bool → Tables money → option (Tables money * Z)) t n w :
  storage_up w →
  stmt (found_rows w) (tables w) = Some (t, n) →
  ∃ w',
    try_except
      (conn ← get_connection;
       cursor conn ;;
       '(conn, affected_rows) ← execute_update conn stmt;
       commit conn ;;
       cursor_close conn ;;
       close conn ;;
       if bool_decide (0 < affected_rows) then mret true else mret false)
      (λ e, mret false) w = (Returned (bool_decide (0 < n)), w')
    ∧ tables w' = t
    ∧ current_session w' = current_session w
    ∧ storage_up w'.
Proof.
  intros Hup Hstmt. unfold try_except.
  edestruct (connect_up (money:=money) (A:=bool))
    as (w1&->&((Ht1&Hfr1&Hs1)&Hc1)&Hup1); [exact Hup|].
  destruct (execute_update_up (mkConn (tables w)) stmt t n w1 Hup1)
    as (w2&Hupd&((_&_&Hs2)&_)&Hup2); [by rewrite Hfr1|].
  destruct (commit_up (mkConn t) w2 Hup2) as (w3&Hcommit&Ht3&_&_&Hs3&Hup3).
  rewrite bind_run, Hupd, bind_run, Hcommit.
  edestruct (release_up (money:=money) (A:=bool))
    as (w4&->&((Ht4&_&Hs4)&_)&Hup4); [exact Hup3|].
  exists w4.
  split; [by case_bool_decide|]. split; [by rewrite Ht4, Ht3|].
  split; [congruence|done].
Qed.

Lemma set_products_same t (row : products.row money) k :
  tbl_products t !! k = Some row →
  set_products t (<[k := row]> (tbl_products t)) = t.
Proof. intros Hrow. destruct t. unfold set_products. simpl in *. by rewrite insert_id. Qed.

Lemma affected_rows_positive fr (old new : products.row money) :
  bool_decide (0 < affected_rows fr old new)
  = fr || bool_decide (old ≠ new).
Proof.
  unfold affected_rows. destruct fr; [done|]. simpl.
  destruct (decide (old = new)).
  - by rewrite bool_decide_eq_false_2, bool_decide_eq_false_2 by (lia || naive_solver).
  - by rewrite bool_decide_eq_true_2, bool_decide_eq_true_2 by (lia || done).
Qed.

(** X7. However [update_product] ends, whatever the storage did: either
    the answer is [False] and no row has changed; or the fields were
    valid, the product existed, no other product carried its barcode,
    and its row now holds exactly the given fields, every other row
    being as before.  In the second case the answer is [True], unless
    [cursor.close()] or [conn.close()] raised after the [commit]: then
    it is [False] although the row is rewritten, which takes a storage
    fault. *)
Theorem update_product_sound (product : Product.t money) w r w' :
  permitted auth.Permission.INVENTORY_EDIT w →
  inventory_service.update_product product w = (r, w') →
  (r = Returned false ∧ tables w' = tables w)
  ∨ (valid_fields product
     ∧ ∃ k old,
         Product.id product = Some k
         ∧ tbl_products (tables w) !! k = Some old
         ∧ barcode_free (tables w) (Some k) (Product.barcode product)
         ∧ tables w'
           = set_products (tables w)
               (<[k := product_repo.to_row product]>
                  (tbl_products (tables w)))
         ∧ (r = Returned true ∨ r = Returned false ∧ ¬ storage_up w)).
Proof.
  unfold permitted, inventory_service.update_product, require_permission.
  intros -> Hrun.
  destruct (product_repo.falsy_id _); [injection Hrun as <- <-; by left|].
  case_decide as Hname; [injection Hrun as <- <-; by left|].
  destruct (money_ltb _ _) eqn:Hprice; [injection Hrun as <- <-; by left|].
  case_bool_decide as Hq; [injection Hrun as <- <-; by left|].
  assert (∀ w1, nothing_written w w1 → calm w w1 →
            product_repo.update product w1 = (r, w') →
            (r = Returned false ∧ tables w' = tables w)
            ∨ (valid_fields product
               ∧ ∃ k old,
                   Product.id product = Some k
                   ∧ tbl_products (tables w) !! k = Some old
                   ∧ barcode_free (tables w) (Some k) (Product.barcode product)
                   ∧ tables w'
                     = set_products (tables w)
                         (<[k := product_repo.to_row product]>
                            (tbl_products (tables w)))
                   ∧ (r = Returned true
                      ∨ r = Returned false ∧ ¬ storage_up w))) as Hupdate.
  { intros w1 ((Ht&_)&_) Hcalm
      [(->&Ht')|(k&old&Hid&_&Hold&Hfree&Ht'&Hr)]%update_result.
    - left. split; [done|congruence].
    - right. rewrite Ht in *.
      split; [repeat split; try done; lia|]. exists k, old.
      split; [done|]. split; [done|].
      split; [by apply barcode_taken_false|]. split; [done|].
      destruct Hr as [->|[-> Hdown]]; [by left|right].
      split; [done|]. intros Hup. by apply Hdown, Hcalm. }
  destruct (inventory_service.truthy _) as [code|];
    [|by eapply (Hupdate w)].
  apply bind_inv in Hrun as [(e&Hget&_)|(existing&w1&Hget&Hrun)].
  { by apply repositories_never_raise in Hget. }
  pose proof (get_by_barcode_calm _ _ _ _ Hget) as Hcalm.
  apply get_by_barcode_quiet in Hget.
  destruct existing as [e|]; [|by eapply Hupdate].
  case_decide; [|by eapply Hupdate].
  injection Hrun as <- <-. left. split; [done|]. by destruct Hget as ((?&_)&_).
Qed.

(** X8. The answer of [update_product] on a storage that is up.  For valid
    fields, an existing product and a barcode no other product carries,
    the row is replaced by the given fields; the answer is [True] when
    that changes the row or when the connection counts matched rows, and
    [False] when every field already had the given value: the server
    then reports no affected row. *)
Theorem update_product_answer (product : Product.t money) k old w :
  permitted auth.Permission.INVENTORY_EDIT w →
  storage_up w →
  valid_fields product →
  Product.id product = Some k → k ≠ 0 →
  tbl_products (tables w) !! k = Some old →
  barcode_free (tables w) (Some k) (Product.barcode product) →
  ∃ w',
    inventory_service.update_product product w
    = (Returned (found_rows w
                 || bool_decide (old ≠ product_repo.to_row product)), w')
    ∧ tables w'
      = set_products (tables w)
          (<[k := product_repo.to_row product]> (tbl_products (tables w))).
Proof.
  intros Hedit Hup (Hname&Hprice&Hq) Hid Hk Hold Hfree.
  unfold permitted in Hedit.
  assert (∀ w1, nothing_written w w1 → storage_up w1 →
            ∃ w',
              product_repo.update product w1
              = (Returned (found_rows w
                           || bool_decide (old ≠ product_repo.to_row product)),
                 w')
              ∧ tables w'
                = set_products (tables w)
                    (<[k := product_repo.to_row product]>
                       (tbl_products (tables w)))) as Hupdate.
  { intros w1 ((Ht&Hfr&_)&_) Hup1. unfold product_repo.update.
    rewrite Hid. simpl. rewrite bool_decide_eq_false_2 by done.
    destruct (single_statement_up
                (λ fr, update_product fr (product_repo.to_row product) k)
                (set_products (tables w)
                   (<[k := product_repo.to_row product]>
                      (tbl_products (tables w))))
                (affected_rows (found_rows w) old (product_repo.to_row product))
                w1 Hup1) as (w2&Hrun&Ht2&_).
    { unfold update_product. rewrite Ht, Hfr, Hold.
      change (products.barcode (product_repo.to_row product))
        with (Product.barcode product).
      by rewrite (proj2 (barcode_taken_false _ _ _) Hfree). }
    exists w2. by rewrite Hrun, affected_rows_positive. }
  unfold inventory_service.update_product, require_permission.
  rewrite Hedit, Hid. simpl.
  rewrite bool_decide_eq_false_2, decide_False, Hprice,
    bool_decide_eq_false_2 by (done || lia).
  destruct (inventory_service.truthy _) as [code|] eqn:Htruthy;
    [|by apply Hupdate].
  destruct (get_by_barcode_up code w Hup) as (w1&Hget&Hnw&Hup1).
  rewrite bind_run, Hget.
  destruct (select_product_by_barcode code (tables w)) as [[k' r']|] eqn:Hsel;
    simpl; [|by apply Hupdate].
  apply select_product_by_barcode_Some in Hsel as [Hr' Hcode'].
  assert (Product.barcode product = Some code) as Hcode.
  { unfold inventory_service.truthy in Htruthy.
    destruct (Product.barcode product) as [c|]; [|done].
    by case_decide; simplify_eq. }
  destruct (Hfree code Hcode k' r' Hr') as [[= ->]|Hne]; [|done].
  rewrite decide_False by (by intros Hne; apply Hne).
  by apply Hupdate.
Qed.

(** X9. However [update_stock] ends, whatever the storage did: either
    the answer is [False] and no row has changed; or the product
    existed, its stock plus the change was not negative, and its row now
    holds exactly that sum, every other column and row being as before.
    In the second case the answer is [True], unless [cursor.close()] or
    [conn.close()] raised after the [commit]: then it is [False]
    although the stock is changed, which takes a storage fault. *)
Theorem update_stock_sound product_id delta w r w' :
  permitted auth.Permission.INVENTORY_EDIT w →
  inventory_service.update_stock product_id delta w = (r, w') →
  (r = Returned false ∧ tables w' = tables w)
  ∨ ∃ row,
      tbl_products (tables w) !! product_id = Some row
      ∧ 0 ≤ products.quantity row + delta
      ∧ tables w'
        = set_products (tables w)
            (<[product_id :=
                 products.set_quantity row (products.quantity row + delta)]>
               (tbl_products (tables w)))
      ∧ (r = Returned true ∨ r = Returned false ∧ ¬ storage_up w).
Proof.
  unfold permitted, inventory_service.update_stock, require_permission.
  intros -> Hrun.
  apply bind_inv in Hrun as [(e&Hget&_)|(p&w1&Hget&Hrun)].
  { by apply repositories_never_raise in Hget. }
  pose proof (get_by_id_calm _ _ _ _ Hget) as Hcalm.
  apply get_by_id_quiet in Hget as ((Ht&_)&_).
  destruct p as [p|]; [|injection Hrun as <- <-; by left].
  case_bool_decide; [injection Hrun as <- <-; by left|].
  apply update_quantity_result in Hrun
    as [(->&Ht')|(row&Hrow&Hq&Ht'&Hr)].
  - left. split; [done|congruence].
  - right. rewrite Ht in *. exists row.
    split; [done|]. split; [done|]. split; [done|].
    destruct Hr as [->|[-> Hdown]]; [by left|right].
    split; [done|]. intros Hup. by apply Hdown, Hcalm.
Qed.

(** X10. On a storage that is up, [update_stock] with a change other than
    zero that keeps the stock non-negative returns [True] and stores the
    sum. *)
Theorem update_stock_applies product_id delta row w :
  permitted auth.Permission.INVENTORY_EDIT w →
  storage_up w →
  tbl_products (tables w) !! product_id = Some row →
  delta ≠ 0 →
  0 ≤ products.quantity row + delta →
  ∃ w',
    inventory_service.update_stock product_id delta w = (Returned true, w')
    ∧ tbl_products (tables w') !! product_id
      = Some (products.set_quantity row (products.quantity row + delta))
    ∧ ∀ k, k ≠ product_id →
        tbl_products (tables w') !! k = tbl_products (tables w) !! k.
Proof.
  intros Hedit Hup Hrow Hdelta Hq.
  destruct (update_stock_up product_id delta w Hedit Hup) as (w'&_&_&Hrun).
  rewrite Hrow in Hrun. simpl in Hrun.
  rewrite bool_decide_eq_false_2 in Hrun by lia.
  destruct Hrun as [Hrun Ht]. exists w'.
  rewrite Hrun, (bool_decide_eq_true_2 (delta ≠ 0)), orb_true_r by done.
  split; [done|]. rewrite Ht. simpl. split.
  - by rewrite lookup_insert_eq.
  - intros k Hk. by rewrite lookup_insert_ne.
Qed.

Lemma referenced_false product_id (t : Tables money) :
  referenced product_id t = false ↔ unreferenced product_id t.
Proof.
  unfold referenced, unreferenced.
  by rewrite negb_false_iff, bool_decide_eq_true.
Qed.

Lemma delete_result product_id w r w' :
  unreferenced product_id (tables w) →
  product_repo.delete product_id w = (r, w') →
  (r = Returned false ∧ tables w' = tables w)
  ∨ (is_Some (tbl_products (tables w) !! product_id)
     ∧ tables w'
       = set_products (tables w) (delete product_id (tbl_products (tables w)))
     ∧ (r = Returned true ∨ r = Returned false ∧ ¬ storage_up w)).
Proof.
  intros Hfree%referenced_false Hrun. unfold product_repo.delete in Hrun.
  apply single_statement_result in Hrun as [?|(t&n&Hstmt&Ht&Hr)]; [by left|].
  unfold delete_product in Hstmt. rewrite Hfree in Hstmt.
  destruct (tbl_products (tables w) !! product_id) as [row|] eqn:Hrow;
    injection Hstmt as <- <-.
  - right. split; [done|]. split; [done|].
    by rewrite bool_decide_eq_true_2 in Hr by lia.
  - left. rewrite bool_decide_eq_false_2 in Hr by lia.
    split; [by destruct Hr as [->|[-> _]]|done].
Qed.

Lemma delete_up product_id w :
  storage_up w →
  unreferenced product_id (tables w) →
  ∃ w',
    product_repo.delete product_id w
    = (Returned (bool_decide (is_Some (tbl_products (tables w) !! product_id))),
       w')
    ∧ tables w'
      = set_products (tables w) (delete product_id (tbl_products (tables w)))
    ∧ current_session w' = current_session w
    ∧ storage_up w'.
Proof.
  intros Hup Hfree%referenced_false.
  destruct (tbl_products (tables w) !! product_id) as [row|] eqn:Hrow.
  - destruct (single_statement_up (λ _, delete_product product_id)
                (set_products (tables w)
                   (delete product_id (tbl_products (tables w)))) 1 w Hup)
      as (w'&Hrun&Hrest).
    { unfold delete_product. by rewrite Hrow, Hfree. }
    exists w'. unfold product_repo.delete. rewrite Hrun.
    by rewrite bool_decide_eq_true_2, bool_decide_eq_true_2 by (done || lia).
  - destruct (single_statement_up (λ _, delete_product product_id)
                (tables w) 0 w Hup) as (w'&Hrun&Ht&Hrest).
    { unfold delete_product. by rewrite Hrow. }
    exists w'. unfold product_repo.delete. rewrite Hrun.
    rewrite bool_decide_eq_false_2, bool_decide_eq_false_2
      by (by intros [? ?] || lia).
    split; [done|]. split; [|done]. rewrite Ht.
    rewrite delete_id by done. by destruct (tables w).
Qed.

(** X11. Deleting a product no sale line points at, however it ends and
    whatever the storage did: either the answer is [False] and no row
    has changed; or the product existed and exactly its row is gone.  In
    the second case the answer is [True], unless [cursor.close()] or
    [conn.close()] raised after the [commit]: then it is [False]
    although the product is deleted, which takes a storage fault. *)
Theorem delete_product_sound product_id w r w' :
  permitted auth.Permission.INVENTORY_EDIT w →
  unreferenced product_id (tables w) →
  inventory_service.delete_product product_id w = (r, w') →
  (r = Returned false ∧ tables w' = tables w)
  ∨ (is_Some (tbl_products (tables w) !! product_id)
     ∧ tables w'
       = set_products (tables w) (delete product_id (tbl_products (tables w)))
     ∧ (r = Returned true ∨ r = Returned false ∧ ¬ storage_up w)).
Proof.
  unfold permitted, inventory_service.delete_product, require_permission.
  intros -> Hfree Hrun. by eapply delete_result.
Qed.

(** X12. On a storage that is up, a manager who deletes a stored product no
    sale line points at gets [True]; looking the product up afterwards
    gives [None], and deleting it a second time gives [False] and
    changes nothing. *)
Theorem delete_product_then_read product_id row w :
  permitted auth.Permission.INVENTORY_EDIT w →
  permitted auth.Permission.INVENTORY_VIEW w →
  storage_up w →
  tbl_products (tables w) !! product_id = Some row →
  unreferenced product_id (tables w) →
  ∃ w1 w2 w3,
    inventory_service.delete_product product_id w = (Returned true, w1)
    ∧ inventory_service.get_product_by_id product_id w1 = (Returned None, w2)
    ∧ inventory_service.delete_product product_id w2 = (Returned false, w3)
    ∧ tables w3 = tables w1.
Proof.
  intros Hedit Hview Hup Hrow Hfree.
  unfold permitted in Hedit, Hview.
  destruct (delete_up product_id w Hup Hfree) as (w1&Hdel&Ht1&Hs1&Hup1).
  destruct (get_by_id_up product_id w1 Hup1)
    as (w2&Hget&((Ht2&_&Hs2)&_)&Hup2).
  assert (tbl_products (tables w2) !! product_id = None) as Hgone.
  { rewrite Ht2, Ht1. simpl. apply lookup_delete_eq. }
  assert (unreferenced product_id (tables w2)) as Hfree2.
  { by rewrite Ht2, Ht1. }
  destruct (delete_up product_id w2 Hup2 Hfree2) as (w3&Hdel2&Ht3&_).
  exists w1, w2, w3.
  unfold inventory_service.delete_product,
    inventory_service.get_product_by_id, require_permission.
  assert (auth.check_permission (current_session w1)
            auth.Permission.INVENTORY_VIEW = true) as Hview1
    by (by rewrite Hs1).
  assert (auth.check_permission (current_session w2)
            auth.Permission.INVENTORY_EDIT = true) as Hedit2
    by (by rewrite Hs2, Hs1).
  rewrite Hedit, Hview1, Hedit2, Hdel, Hget, Hdel2, Hrow, Hgone.
  rewrite <- Ht2, Hgone. simpl.
  repeat apply conj; try done.
  rewrite Ht3, Ht2. rewrite delete_id; [by destruct (tables w1)|].
  by rewrite <- Ht2.
Qed.

(** ** Products: reading *)

Lemma get_by_barcode_inv code w r w' :
  product_repo.get_by_barcode code w = (r, w') →
  nothing_written w w'
  ∧ (r = Returned None
     ∨ ∃ k row, tbl_products (tables w) !! k = Some row
                ∧ products.barcode row = Some code
                ∧ r = Returned (Some (product_repo.of_row k row))).
Proof.
  intros Hrun. split; [by eapply get_by_barcode_quiet|].
  unfold product_repo.get_by_barcode in Hrun.
  apply try_except_inv in Hrun as [(a&Hrun&->)|(e&w1&Hrun&[= <- <-])];
    [|by left].
  apply connect_returned in Hrun as (conn&w1&Hv&_&Hrun).
  apply bind_inv in Hrun as [(e&_&[=])|(res&w2&Hq&Hrun)].
  apply execute_query_returned in Hq as [-> _].
  apply release_returned in Hrun as (w3&_&Hrun).
  rewrite Hv in Hrun.
  destruct (select_product_by_barcode code (tables w)) as [[k row]|] eqn:Hsel;
    injection Hrun as <- <-; [|by left].
  apply select_product_by_barcode_Some in Hsel as [Hrow Hcode].
  right. by exists k, row.
Qed.

Ltac quiet_done := first [apply keeps_ret | apply keeps_raise]; apply _.

Lemma get_all_quiet :
  keeps nothing_written (product_repo.get_all (money:=money)).
Proof.
  unfold product_repo.get_all.
  apply keeps_try_except; [apply _| |intros; quiet_done].
  apply keeps_bind; [apply _|apply get_connection_quiet|]. intros conn.
  apply keeps_bind; [apply _|apply cursor_quiet|]. intros _.
  apply keeps_bind; [apply _|apply execute_query_quiet|]. intros results.
  apply release_quiet. quiet_done.
Qed.

Lemma get_all_inv w r w' :
  product_repo.get_all w = (r, w') →
  nothing_written w w'
  ∧ (r = Returned []
     ∨ r = Returned ((λ kr, product_repo.of_row kr.1 kr.2)
                       <$> select_products_by_name (tables w))).
Proof.
  intros Hrun. split; [by eapply get_all_quiet|].
  unfold product_repo.get_all in Hrun.
  apply try_except_inv in Hrun as [(a&Hrun&->)|(e&w1&Hrun&[= <- <-])];
    [|by left].
  apply connect_returned in Hrun as (conn&w1&Hv&_&Hrun).
  apply bind_inv in Hrun as [(e&_&[=])|(res&w2&Hq&Hrun)].
  apply execute_query_returned in Hq as [-> _].
  apply release_returned in Hrun as (w3&_&Hrun).
  rewrite Hv in Hrun. injection Hrun as <- <-. by right.
Qed.

Lemma get_all_up w :
  storage_up w →
  ∃ w', product_repo.get_all w
        = (Returned ((λ kr, product_repo.of_row kr.1 kr.2)
                       <$> select_products_by_name (tables w)), w')
        ∧ nothing_written w w' ∧ storage_up w'.
Proof.
  intros Hup. unfold product_repo.get_all, try_except.
  edestruct (connect_up (money:=money) (A:=list (Product.t money)))
    as (w1&->&Hnw1&Hup1); [exact Hup|].
  destruct (execute_query_up (mkConn (tables w))
              select_products_by_name w1 Hup1) as (w2&Hq&Hnw2&Hup2).
  rewrite bind_run, Hq.
  edestruct (release_up (money:=money) (A:=list (Product.t money)))
    as (w3&->&Hnw3&Hup3); [exact Hup2|].
  exists w3. split; [done|]. split; [by etrans; [|etrans]|done].
Qed.

Lemma elem_of_select_products_by_name (t : Tables money) k row :
  (k, row) ∈ select_products_by_name t ↔ tbl_products t !! k = Some row.
Proof.
  unfold select_products_by_name.
  by rewrite merge_sort_Permutation, elem_of_map_to_list.
Qed.

(** X13. The product lookups never invent and never write: whatever the
    storage did, [get_product_by_id] answers [None] or the product
    stored under the id, [get_product_by_barcode] answers [None] or a
    stored product carrying the barcode, and the rows are as before. *)
Theorem product_lookups_sound w :
  permitted auth.Permission.INVENTORY_VIEW w →
  (∀ product_id r w',
     inventory_service.get_product_by_id product_id w = (r, w') →
     tables w' = tables w
     ∧ (r = Returned None
        ∨ ∃ row, tbl_products (tables w) !! product_id = Some row
                 ∧ r = Returned (Some (product_repo.of_row product_id row))))
  ∧ (∀ code r w',
       inventory_service.get_product_by_barcode code w = (r, w') →
       tables w' = tables w
       ∧ (r = Returned None
          ∨ ∃ k row, tbl_products (tables w) !! k = Some row
                     ∧ products.barcode row = Some code
                     ∧ r = Returned (Some (product_repo.of_row k row)))).
Proof.
  unfold permitted, inventory_service.get_product_by_id,
    inventory_service.get_product_by_barcode, require_permission.
  intros ->. split.
  - by intros product_id r w' (((?&_)&_)&?)%get_by_id_inv.
  - by intros code r w' (((?&_)&_)&?)%get_by_barcode_inv.
Qed.

(** X14. On a storage that is up the lookups find what is stored: every
    stored product, with or without a barcode, is found under its id;
    and a product that has a barcode is found under that barcode when no
    other product carries it. *)
Theorem product_lookups_complete product_id row w :
  permitted auth.Permission.INVENTORY_VIEW w →
  storage_up w →
  tbl_products (tables w) !! product_id = Some row →
  (∃ w', inventory_service.get_product_by_id product_id w
         = (Returned (Some (product_repo.of_row product_id row)), w'))
  ∧ (∀ code,
       products.barcode row = Some code →
       barcode_free (tables w) (Some product_id) (Some code) →
       ∃ w', inventory_service.get_product_by_barcode code w
             = (Returned (Some (product_repo.of_row product_id row)), w')).
Proof.
  unfold permitted, inventory_service.get_product_by_id,
    inventory_service.get_product_by_barcode, require_permission.
  intros -> Hup Hrow. split.
  - destruct (get_by_id_up product_id w Hup) as (w'&Hget&_).
    exists w'. by rewrite Hget, Hrow.
  - intros code Hcode Hfree.
    destruct (get_by_barcode_up code w Hup) as (w'&Hget&_).
    exists w'. rewrite Hget.
    destruct (select_product_by_barcode code (tables w)) as [[k r]|] eqn:Hsel.
    + apply select_product_by_barcode_Some in Hsel as [Hr Hc].
      destruct (Hfree code eq_refl k r Hr) as [[= ->]|Hne]; [|done].
      by simplify_eq.
    + apply select_product_by_barcode_None in Hsel.
      by destruct (Hsel product_id row Hrow).
Qed.

(** X15. [get_all_products] on a storage that is up lists every stored
    product exactly once, in the order of the names, and writes
    nothing. *)
Theorem get_all_products_lists_store w :
  permitted auth.Permission.INVENTORY_VIEW w →
  storage_up w →
  Total name_le →
  ∃ l w',
    inventory_service.get_all_products w = (Returned l, w')
    ∧ tables w' = tables w
    ∧ l ≡ₚ (λ kr, product_repo.of_row kr.1 kr.2)
             <$> map_to_list (tbl_products (tables w))
    ∧ Sorted (λ a b, name_le (Product.name a) (Product.name b)) l.
Proof.
  unfold permitted, inventory_service.get_all_products, require_permission.
  intros -> Hup Htotal.
  destruct (get_all_up w Hup) as (w'&Hrun&((Ht&_)&_)&_).
  eexists _, w'. split; [done|]. split; [done|]. split.
  - unfold select_products_by_name. by rewrite merge_sort_Permutation.
  - apply Sorted_fmap with (R1 := by_name); [by intros [] []|].
    apply Sorted_merge_sort. intros a b. apply Htotal.
Qed.

(** X16. [get_low_stock_products] on a storage that is up reports exactly the
    stored products whose quantity is at most the threshold, the
    threshold itself included. *)
Theorem get_low_stock_products_exact threshold w :
  permitted auth.Permission.INVENTORY_VIEW w →
  storage_up w →
  ∃ l w',
    inventory_service.get_low_stock_products threshold w = (Returned l, w')
    ∧ tables w' = tables w
    ∧ ∀ p, p ∈ l ↔
        ∃ k row, tbl_products (tables w) !! k = Some row
                 ∧ products.quantity row ≤ threshold
                 ∧ p = product_repo.of_row k row.
Proof.
  unfold permitted, inventory_service.get_low_stock_products,
    require_permission.
  intros -> Hup.
  destruct (get_all_up w Hup) as (w'&Hrun&((Ht&_)&_)&_).
  eexists _, w'. rewrite bind_run, Hrun. split; [done|]. split; [done|].
  intros p. rewrite list_elem_of_filter, list_elem_of_fmap. split.
  - intros (Hq&[k row]&->&Hin%elem_of_select_products_by_name).
    by exists k, row.
  - intros (k&row&Hrow&Hq&->). split; [done|]. exists (k, row).
    split; [done|]. by apply elem_of_select_products_by_name.
Qed.

(** X17. A read whose first round trip to the server fails does not report
    the failure: the product lists come back empty and the lookups of a
    product or a sale answer [None], as they do when nothing is
    stored. *)
Theorem reads_hide_storage_failure w :
  head (faults w) = Some true →
  permitted auth.Permission.INVENTORY_VIEW w →
  permitted auth.Permission.SALES_VIEW w →
  let w' := set_faults w (tail (faults w)) in
  inventory_service.get_all_products w = (Returned [], w')
  ∧ (∀ threshold,
       inventory_service.get_low_stock_products threshold w
       = (Returned [], w'))
  ∧ (∀ product_id,
       inventory_service.get_product_by_id product_id w = (Returned None, w'))
  ∧ (∀ code,
       inventory_service.get_product_by_barcode code w = (Returned None, w'))
  ∧ (∀ sale_id,
       sales_service.get_sale_by_id sale_id w = (Returned None, w')).
Proof.
  intros Hfault Hinventory Hsales. unfold permitted in Hinventory, Hsales.
  destruct (faults w) as [|[] rest] eqn:Hplan; try done. simpl.
  assert (∀ A (k : Conn money → M money A) (d : A),
            try_except (conn ← get_connection; k conn) (λ e, mret d) w
            = (Returned d, set_faults w rest)) as Hconn.
  { intros A k d. unfold try_except, get_connection.
    rewrite bind_run. unfold storage_call at 1.
    by rewrite bind_run, Hplan. }
  unfold inventory_service.get_all_products,
    inventory_service.get_low_stock_products,
    inventory_service.get_product_by_id,
    inventory_service.get_product_by_barcode,
    sales_service.get_sale_by_id, require_permission.
  rewrite Hinventory, Hsales.
  unfold product_repo.get_all, product_repo.get_by_id,
    product_repo.get_by_barcode, sales_repo.get_by_id.
  repeat apply conj; intros; rewrite ?bind_run, Hconn; done.
Qed.

(** ** The cart *)

(** X18. The cart functions work on the draft alone.  However a call ends, no
    row and no counter of the store has changed; a refused call hands
    the draft back as it was; and an accepted one changes the lines
    only: the draft's [total_amount] is not recomputed. *)
Theorem cart_ops_leave_store op (sale : Sale.t money) w r w' :
  run_cart_op op sale w = (r, w') →
  nothing_written w w'
  ∧ (∀ sale', r = Returned (false, sale') → sale' = sale)
  ∧ (∀ b sale', r = Returned (b, sale') →
       sale' = Sale.set_items sale (Sale.items sale')).
Proof.
  assert (sale = Sale.set_items sale (Sale.items sale)) as Hsame
    by (by destruct sale).
  assert (∀ w1 b sale1,
            nothing_written w w1 →
            (b = false → sale1 = sale) →
            sale1 = Sale.set_items sale (Sale.items sale1) →
            (Returned (b, sale1), w1) = (r, w') →
            nothing_written w w'
            ∧ (∀ sale', r = Returned (false, sale') → sale' = sale)
            ∧ (∀ b sale', r = Returned (b, sale') →
                 sale' = Sale.set_items sale (Sale.items sale'))) as Hdone.
  { intros w1 b sale1 Hnw Hrefused Hlines [= <- <-].
    split; [done|]. split.
    - intros sale' [= -> <-]. by apply Hrefused.
    - by intros b' sale' [= _ <-]. }
  destruct op as [p q|p q]; simpl;
    unfold sales_service.add_product_to_sale,
      sales_service.remove_product_from_sale, require_permission;
    intros Hrun;
    (destruct (auth.check_permission _ _);
     [|injection Hrun as <- <-; split; [done|by split]]).
  - apply bind_inv in Hrun as [(e&Hget&_)|(pr&w1&Hget&Hrun)].
    { by apply repositories_never_raise in Hget. }
    apply get_by_id_quiet in Hget.
    destruct pr as [pr|]; [|(eapply Hdone; [| | |exact Hrun]; by try done)].
    case_bool_decide; [(eapply Hdone; [| | |exact Hrun]; by try done)|].
    destruct (sales_service.merge_line _ _ _) as [items|];
      (eapply Hdone; [| | |exact Hrun]; by try done).
  - destruct (sales_service.remove_line _ _ _) as [items|];
      (eapply Hdone; [| | |exact Hrun]; by try done).
Qed.

(** X19. On a storage that is up, [add_product_to_sale] refuses exactly when
    the product is missing or has less stock than the quantity being
    added; what the cart already holds plays no part. *)
Theorem add_product_to_sale_checks_added_quantity (sale : Sale.t money)
    product_id quantity w :
  permitted auth.Permission.SALES_CREATE w →
  storage_up w →
  ∃ b sale' w',
    sales_service.add_product_to_sale sale product_id quantity w
    = (Returned (b, sale'), w')
    ∧ (b = false ↔
       match stock (tables w) product_id with
       | None => True
       | Some q => q < quantity
       end).
Proof.
  unfold permitted, sales_service.add_product_to_sale, require_permission,
    stock.
  intros -> Hup.
  destruct (get_by_id_up product_id w Hup) as (w1&Hget&_).
  rewrite bind_run, Hget.
  destruct (tbl_products (tables w) !! product_id) as [row|]; simpl.
  2:{ by exists false, sale, w1. }
  case_bool_decide as Hq.
  { by exists false, sale, w1. }
  destruct (sales_service.merge_line _ _ _) as [items|];
    eexists true, _, w1; (split; [done|]); by split.
Qed.

(** X20. A product the cart does not hold yet is added as a new last line
    that carries the product's current name and price and the quantity
    asked; the lines before it are untouched, and the sum of the line
    totals grows by quantity times price. *)
Theorem add_product_to_sale_appends (sale : Sale.t money)
    product_id quantity row w :
  permitted auth.Permission.SALES_CREATE w →
  storage_up w →
  product_id ∉ SaleItem.product_id <$> Sale.items sale →
  tbl_products (tables w) !! product_id = Some row →
  quantity ≤ products.quantity row →
  ∃ w',
    let new_line :=
      SaleItem.mk None None product_id (products.name row) quantity
        (products.price row) in
    sales_service.add_product_to_sale sale product_id quantity w
    = (Returned (true, Sale.set_items sale (Sale.items sale ++ [new_line])),
       w')
    ∧ Sale.items_total (Sale.items sale ++ [new_line])
      = money_add (Sale.items_total (Sale.items sale))
          (money_scale quantity (products.price row)).
Proof.
  unfold permitted, sales_service.add_product_to_sale, require_permission.
  intros -> Hup Hnew Hrow Hq.
  destruct (get_by_id_up product_id w Hup) as (w1&Hget&_).
  exists w1. rewrite bind_run, Hget, Hrow. simpl.
  rewrite bool_decide_eq_false_2 by lia.
  assert (sales_service.merge_line (Sale.items sale) product_id quantity
          = None) as ->.
  { clear -Hnew. induction (Sale.items sale) as [|item rest IH]; [done|].
    simpl in *. apply not_elem_of_cons in Hnew as [Hne Hrest].
    rewrite decide_False by done. by rewrite IH. }
  split; [done|].
  unfold Sale.items_total, Sale.py_sum. by rewrite fmap_app, foldl_app.
Qed.

(** ** Sales: commit on a storage that is up, read back *)

Lemma line_passes (t : Tables money) (item : SaleItem.t money) :
  ¬ line_fails t item →
  ∃ row, tbl_products t !! SaleItem.product_id item = Some row
         ∧ SaleItem.quantity item ≤ products.quantity row.
Proof.
  unfold line_fails, stock.
  destruct (tbl_products t !! SaleItem.product_id item) as [row|];
    simpl; intros Hpass; [|by destruct Hpass].
  exists row. split; [done|lia].
Qed.

Lemma validate_items_up (items : list (SaleItem.t money)) :
  ∀ w,
    storage_up w →
    lines_pass (tables w) items →
    ∃ items' w',
      sales_service.validate_items items w = (Returned (true, items'), w')
      ∧ nothing_written w w'
      ∧ storage_up w'
      ∧ Forall (λ item,
                  ∃ row, tbl_products (tables w) !! SaleItem.product_id item
                         = Some row
                         ∧ SaleItem.product_name item = products.name row)
          items'.
Proof.
  induction items as [|item rest IH]; intros w Hup Hpass.
  - exists [], w. by repeat split.
  - apply Forall_cons_1 in Hpass as [(row&Hrow&Hq)%line_passes Hrest].
    destruct (get_by_id_up (SaleItem.product_id item) w Hup)
      as (w1&Hget&Hnw1&Hup1).
    pose proof Hnw1 as ((Ht1&_)&_).
    destruct (IH w1 Hup1) as (rest'&w2&Hrun&Hnw2&Hup2&Hnames).
    { by rewrite Ht1. }
    exists (SaleItem.set_product_name item (products.name row) :: rest'), w2.
    simpl. rewrite bind_run, Hget, Hrow. simpl.
    rewrite bool_decide_eq_false_2 by lia.
    rewrite bind_run, Hrun. split; [done|]. split; [by etrans|].
    split; [done|]. constructor.
    + by exists row.
    + by rewrite Ht1 in Hnames.
Qed.

Lemma insert_items_up sale_id (items : list (SaleItem.t money)) :
  ∀ conn w,
    storage_up w →
    is_Some (tbl_sales (view conn) !! sale_id) →
    Forall (λ item,
              is_Some (tbl_products (view conn) !! SaleItem.product_id item))
      items →
    (∀ k, next_sale_item_id (counters w) ≤ k →
       tbl_sale_items (view conn) !! k = None) →
    ∃ conn' w',
      sales_repo.insert_items sale_id items conn w = (Returned conn', w')
      ∧ nothing_committed w w'
      ∧ storage_up w'.
Proof.
  induction items as [|item rest IH]; intros conn w Hup Hsale Hproducts Hfresh.
  - by exists conn, w.
  - apply Forall_cons_1 in Hproducts as [[row Hrow] Hrest].
    set (k := next_sale_item_id (counters w)).
    set (line := sale_items.mk sale_id (SaleItem.product_id item)
                   (SaleItem.quantity item) (SaleItem.unit_price item)).
    set (t1 := set_sale_items (view conn)
                 (<[k := line]> (tbl_sale_items (view conn)))).
    destruct (execute_insert_up conn SaleItems (insert_sale_item line) t1 w Hup)
      as (w1&Hins&Hnc1&Hc1&Hup1).
    { unfold insert_sale_item. simpl. fold k.
      rewrite bool_decide_eq_false_2
        by (rewrite Hfresh by (unfold k; lia); by intros [? ?]).
      rewrite bool_decide_eq_true_2 by done.
      by rewrite bool_decide_eq_true_2 by eauto. }
    set (new := products.set_quantity row
                  (products.quantity row - SaleItem.quantity item)).
    set (t2 := set_products t1
                 (<[SaleItem.product_id item := new]> (tbl_products t1))).
    destruct (execute_update_up (mkConn t1)
                (λ fr, update_sub_quantity fr (SaleItem.quantity item)
                         (SaleItem.product_id item))
                t2 (affected_rows (found_rows w1) row new) w1 Hup1)
      as (w2&Hupd&Hnw2&Hup2).
    { unfold update_sub_quantity. simpl. by rewrite Hrow. }
    destruct (IH (mkConn t2) w2 Hup2) as (conn'&w3&Hrun&Hnc3&Hup3).
    + done.
    + eapply Forall_impl; [exact Hrest|]. intros item' [row' Hrow']. simpl.
      destruct (decide (SaleItem.product_id item = SaleItem.product_id item'))
        as [<-|Hne].
      * rewrite lookup_insert_eq. eauto.
      * rewrite lookup_insert_ne by done. eauto.
    + intros k' Hk'. destruct Hnw2 as (_&Hc2). rewrite Hc2, Hc1 in Hk'.
      simpl in Hk'. fold k in Hk'. simpl.
      rewrite lookup_insert_ne by lia. apply Hfresh. fold k. lia.
    + exists conn', w3. simpl. fold line.
      rewrite bind_run, Hins. simpl. rewrite bind_run. fold k t1.
      rewrite Hupd. simpl. fold new t2. rewrite Hrun.
      split; [done|]. split; [|done].
      etrans; [exact Hnc1|]. etrans; [apply Hnw2|done].
Qed.

Lemma create_sale_with_items_up (sale : Sale.t money) w :
  storage_up w →
  counters_fresh w →
  Forall (λ item,
            is_Some (tbl_products (tables w) !! SaleItem.product_id item))
    (Sale.items sale) →
  ∃ w',
    sales_repo.create_sale_with_items sale w
    = (Returned (true, Some (next_sale_id (counters w))), w')
    ∧ current_session w' = current_session w
    ∧ storage_up w'.
Proof.
  intros Hup (_&Hsales&Hlines) Hproducts.
  destruct (get_connection_up w Hup) as (w1&Hconn&((Ht1&_&Hs1)&Hc1)&Hup1).
  destruct (storage_call_up w1 Hup1) as (w1'&Hcur&((_&_&Hs1')&Hc1')&Hup1').
  destruct (storage_call_up w1' Hup1')
    as (w2&Hstart&((Ht2&_&Hs2)&Hc2)&Hup2).
  set (k := next_sale_id (counters w)).
  set (row := sales.mk (Sale.user_id sale) (Sale.total_amount sale)
                (Sale.payment_method sale)).
  set (t1 := set_sales (tables w) (<[k := row]> (tbl_sales (tables w)))).
  destruct (execute_insert_up (mkConn (tables w)) Sales (insert_sale row)
              t1 w2 Hup2) as (w3&Hins&(_&_&Hs3)&Hc3&Hup3).
  { rewrite Hc2, Hc1', Hc1. unfold insert_sale. simpl. fold k.
    by rewrite bool_decide_eq_false_2
      by (rewrite Hsales by (unfold k; lia); by intros [? ?]). }
  destruct (insert_items_up k (Sale.items sale) (mkConn t1) w3 Hup3)
    as (conn'&w4&Hloop&(_&_&Hs4)&Hup4).
  { simpl. rewrite lookup_insert_eq. eauto. }
  { done. }
  { intros k' Hk'. rewrite Hc3, Hc2, Hc1', Hc1 in Hk'. simpl in Hk'. simpl.
    by apply Hlines. }
  destruct (commit_up conn' w4 Hup4) as (w5&Hcommit&_&_&_&Hs5&Hup5).
  destruct (storage_call_up w5 Hup5) as (w6&Hcc&((_&_&Hs6)&_)&Hup6).
  destruct (storage_call_up w6 Hup6) as (w7&Hclose&((_&_&Hs7)&_)&Hup7).
  assert (sales_repo.transaction sale (mkConn (tables w)) w1'
          = (Returned k, w6)) as Htx.
  { unfold sales_repo.transaction, start_transaction.
    rewrite bind_run, Hstart, bind_run. fold row.
    rewrite Hins, Hc2, Hc1', Hc1. simpl. fold k.
    rewrite bind_run, Hloop, bind_run, Hcommit, bind_run.
    unfold cursor_close. by rewrite Hcc. }
  exists w7. unfold sales_repo.create_sale_with_items, catch.
  rewrite Hconn. unfold cursor. rewrite Hcur, Htx. unfold close.
  rewrite Hclose.
  split; [done|]. split; [congruence|done].
Qed.

Lemma create_sale_up (sale : Sale.t money) session w :
  permitted auth.Permission.SALES_CREATE w →
  current_session w = Some session →
  storage_up w →
  counters_fresh w →
  Sale.items sale ≠ [] →
  lines_pass (tables w) (Sale.items sale) →
  ∃ items' w',
    sales_service.create_sale sale w
    = (Returned ((true, Some (next_sale_id (counters w))),
                 prepared sale session items'), w')
    ∧ Forall2 renamed (Sale.items sale) items'
    ∧ sale_recorded (prepared sale session items')
        (next_sale_id (counters w)) (next_sale_item_id (counters w))
        (tables w) (tables w')
    ∧ Forall (λ item,
                ∃ row, tbl_products (tables w) !! SaleItem.product_id item
                       = Some row
                       ∧ SaleItem.product_name item = products.name row)
        items'
    ∧ current_session w' = current_session w
    ∧ storage_up w'.
Proof.
  intros Hperm Hsession Hup Hfresh Hitems Hpass.
  destruct (validate_items_up (Sale.items sale) w Hup Hpass)
    as (items'&w1&Hval&((Ht1&_&Hs1)&Hc1)&Hup1&Hnames).
  pose proof (validate_items_inv _ _ _ _ Hval)
    as (_&ok&its&[= <- <-]&Hrenamed&_).
  destruct (create_sale_with_items_up (prepared sale session items') w1 Hup1)
    as (w2&Hcommit&Hs2&Hup2).
  { unfold counters_fresh. by rewrite Hc1, Ht1. }
  { change (Sale.items (prepared sale session items')) with items'.
    rewrite Ht1. eapply Forall_impl; [exact Hnames|].
    intros item (row&Hrow&_). eauto. }
  exists items', w2.
  rewrite (create_sale_hands_over sale w session items' w1)
    by done.
  rewrite bind_run, Hcommit, Hc1. split; [done|]. split; [done|].
  pose proof (create_sale_with_items_inv _ _ _ _ Hcommit)
    as [([[=]|(e&[=]&_)]&_)|(Hrec&_)].
  rewrite Hc1, Ht1 in Hrec. split; [done|]. split; [done|].
  split; [congruence|done].
Qed.

(** X24. On a storage that is up, with counters past every key in use, a
    draft with at least one line is committed as soon as every line, on
    its own, names a stored product with at least the line's quantity in
    stock.  The caller gets [(True, id)] with the next sale id, and the
    draft handed back carries the operator, the recomputed total and the
    lines of the draft, in their order, each one under the current name
    of its product and otherwise unchanged; the sale is recorded with
    these lines. *)
Theorem create_sale_succeeds (sale : Sale.t money) session w :
  permitted auth.Permission.SALES_CREATE w →
  current_session w = Some session →
  storage_up w →
  counters_fresh w →
  Sale.items sale ≠ [] →
  lines_pass (tables w) (Sale.items sale) →
  ∃ items' w',
    sales_service.create_sale sale w
    = (Returned ((true, Some (next_sale_id (counters w))),
                 prepared sale session items'), w')
    ∧ Forall2 renamed (Sale.items sale) items'
    ∧ Forall (λ item,
                ∃ row, tbl_products (tables w) !! SaleItem.product_id item
                       = Some row
                       ∧ SaleItem.product_name item = products.name row)
        items'
    ∧ sale_recorded (prepared sale session items')
        (next_sale_id (counters w)) (next_sale_item_id (counters w))
        (tables w) (tables w').
Proof.
  intros Hperm Hsession Hup Hfresh Hitems Hpass.
  destruct (create_sale_up sale session w)
    as (items'&w'&Hrun&Hrenamed&Hrec&Hnames&_); try done.
  by exists items', w'.
Qed.

Lemma elem_of_select_sale_items sale_id (t : Tables money) k line name :
  (k, line, name) ∈ select_sale_items sale_id t ↔
  tbl_sale_items t !! k = Some line
  ∧ sale_items.sale_id line = sale_id
  ∧ ∃ p, tbl_products t !! sale_items.product_id line = Some p
         ∧ name = products.name p.
Proof.
  unfold select_sale_items. rewrite list_elem_of_omap. split.
  - intros ([k' line']&Hin%elem_of_map_to_list&Hjoin). simpl in Hjoin.
    case_decide as Hsale; [|done].
    destruct (tbl_products t !! sale_items.product_id line') as [p|] eqn:Hp;
      [|done].
    injection Hjoin as <- <- <-. eauto.
  - intros (Hline&Hsale&p&Hp&->). exists (k, line).
    split; [by apply elem_of_map_to_list|]. simpl.
    by rewrite decide_True, Hp.
Qed.

Lemma elem_of_fetched_items sale_id (t : Tables money) item :
  item ∈ sales_repo.item_of_row <$> select_sale_items sale_id t ↔
  ∃ k line p,
    tbl_sale_items t !! k = Some line
    ∧ sale_items.sale_id line = sale_id
    ∧ tbl_products t !! sale_items.product_id line = Some p
    ∧ item = SaleItem.mk (Some k) (Some sale_id) (sale_items.product_id line)
               (products.name p) (sale_items.quantity line)
               (sale_items.unit_price line).
Proof.
  rewrite list_elem_of_fmap. split.
  - intros ([[k line] name]&->&(Hline&Hsale&p&Hp&->)%elem_of_select_sale_items).
    exists k, line, p. unfold sales_repo.item_of_row. simpl.
    by rewrite Hsale.
  - intros (k&line&p&Hline&Hsale&Hp&->). exists (k, line, products.name p).
    split; [unfold sales_repo.item_of_row; simpl; by rewrite Hsale|].
    apply elem_of_select_sale_items. eauto.
Qed.

Lemma sales_get_by_id_quiet sale_id :
  keeps nothing_written (sales_repo.get_by_id (money:=money) sale_id).
Proof.
  unfold sales_repo.get_by_id.
  apply keeps_try_except; [apply _| |intros; quiet_done].
  apply keeps_bind; [apply _|apply get_connection_quiet|]. intros conn.
  apply keeps_bind; [apply _|apply cursor_quiet|]. intros _.
  apply keeps_bind; [apply _|apply execute_query_quiet|]. intros [row|].
  - apply keeps_bind; [apply _|apply execute_query_quiet|]. intros lines.
    apply release_quiet. quiet_done.
  - apply release_quiet. quiet_done.
Qed.

Lemma sales_get_by_id_inv sale_id w r w' :
  sales_repo.get_by_id sale_id w = (r, w') →
  tables w' = tables w
  ∧ (r = Returned None
     ∨ ∃ row,
         tbl_sales (tables w) !! sale_id = Some row
         ∧ r = Returned
                 (Some (Sale.mk (Some sale_id) (sales.user_id row)
                          (sales.total_amount row) (sales.payment_method row)
                          (sales_repo.item_of_row
                             <$> select_sale_items sale_id (tables w))))).
Proof.
  intros Hrun.
  pose proof (sales_get_by_id_quiet _ _ _ _ Hrun) as ((Ht&_)&_).
  split; [done|]. unfold sales_repo.get_by_id in Hrun.
  apply try_except_inv in Hrun as [(a&Hrun&->)|(e&w1&Hrun&[= <- <-])];
    [|by left].
  apply connect_returned in Hrun as (conn&w1&Hv&_&Hrun).
  apply bind_inv in Hrun as [(e&_&[=])|(res&w2&Hq&Hrun)].
  apply execute_query_returned in Hq as [-> _].
  unfold select_sale in Hrun. rewrite Hv in Hrun.
  destruct (tbl_sales (tables w) !! sale_id) as [row|] eqn:Hrow.
  2:{ apply release_returned in Hrun as (w3&_&[= <- <-]). by left. }
  apply bind_inv in Hrun as [(e&_&[=])|(lines&w4&Hq&Hrun)].
  apply execute_query_returned in Hq as [-> _].
  apply release_returned in Hrun as (w5&_&[= <- <-]).
  rewrite Hv. right. by exists row.
Qed.

Lemma sales_get_by_id_up sale_id w :
  storage_up w →
  ∃ w',
    sales_repo.get_by_id sale_id w
    = (Returned
         ((λ row, Sale.mk (Some sale_id) (sales.user_id row)
                    (sales.total_amount row) (sales.payment_method row)
                    (sales_repo.item_of_row
                       <$> select_sale_items sale_id (tables w)))
            <$> tbl_sales (tables w) !! sale_id), w').
Proof.
  intros Hup. unfold sales_repo.get_by_id, try_except.
  edestruct (connect_up (money:=money) (A:=option (Sale.t money)))
    as (w1&->&Hnw1&Hup1); [exact Hup|].
  destruct (execute_query_up (mkConn (tables w)) (select_sale sale_id) w1 Hup1)
    as (w2&Hq&Hnw2&Hup2).
  rewrite bind_run, Hq. unfold select_sale. simpl.
  destruct (tbl_sales (tables w) !! sale_id) as [row|]; simpl.
  - destruct (execute_query_up (mkConn (tables w)) (select_sale_items sale_id)
                w2 Hup2) as (w3&Hq3&_&Hup3).
    rewrite bind_run, Hq3.
    edestruct (release_up (money:=money) (A:=option (Sale.t money)))
      as (w4&->&_&_); [exact Hup3|].
    by exists w4.
  - edestruct (release_up (money:=money) (A:=option (Sale.t money)))
      as (w4&->&_&_); [exact Hup2|].
    by exists w4.
Qed.

(** X26. What [get_sale_by_id] hands out, whatever the storage did: [None],
    or the stored sale under that id with the stored total (it is not
    recomputed) and, as lines, exactly the stored lines of the sale
    whose product still exists, each under the product's current name.
    Nothing is written. *)
Theorem get_sale_by_id_sound sale_id w r w' :
  permitted auth.Permission.SALES_VIEW w →
  sales_service.get_sale_by_id sale_id w = (r, w') →
  tables w' = tables w
  ∧ (r = Returned None
     ∨ ∃ row sale,
         r = Returned (Some sale)
         ∧ tbl_sales (tables w) !! sale_id = Some row
         ∧ Sale.id sale = Some sale_id
         ∧ Sale.user_id sale = sales.user_id row
         ∧ Sale.total_amount sale = sales.total_amount row
         ∧ Sale.payment_method sale = sales.payment_method row
         ∧ ∀ item,
             item ∈ Sale.items sale ↔
             ∃ k line p,
               tbl_sale_items (tables w) !! k = Some line
               ∧ sale_items.sale_id line = sale_id
               ∧ tbl_products (tables w) !! sale_items.product_id line
                 = Some p
               ∧ item = SaleItem.mk (Some k) (Some sale_id)
                          (sale_items.product_id line) (products.name p)
                          (sale_items.quantity line)
                          (sale_items.unit_price line)).
Proof.
  unfold permitted, sales_service.get_sale_by_id, require_permission.
  intros -> [Ht [->|(row&Hrow&->)]]%sales_get_by_id_inv;
    (split; [done|]); [by left|].
  right. eexists row, _. split; [done|]. repeat apply conj; try done.
  intros item. apply elem_of_fetched_items.
Qed.

Lemma fetched_items_NoDup sale_id (t : Tables money) :
  NoDup (sales_repo.item_of_row <$> select_sale_items sale_id t).
Proof.
  apply (NoDup_fmap_1 SaleItem.id). rewrite <- list_fmap_compose.
  unfold select_sale_items.
  pose proof (NoDup_fst_map_to_list (tbl_sale_items t)) as Hkeys.
  revert Hkeys. generalize (map_to_list (tbl_sale_items t)).
  intros l. induction l as [|[k line] rest IH]; intros Hkeys;
    [apply NoDup_nil_2|].
  apply list.NoDup_cons in Hkeys as [Hk Hrest]. simpl.
  case_decide as Hsale; [|by apply IH].
  destruct (tbl_products t !! sale_items.product_id line) as [p|];
    [|by apply IH].
  simpl. apply list.NoDup_cons. split; [|by apply IH].
  intros Hin. apply Hk.
  apply list_elem_of_fmap in Hin as ([[k' line'] name]&[= <-]&Hin).
  apply list_elem_of_omap in Hin as ([k'' line'']&Hin&Hjoin).
  simpl in Hjoin. case_decide; [|done].
  destruct (tbl_products t !! sale_items.product_id line''); [|done].
  injection Hjoin as <- <- <-.
  apply list_elem_of_fmap. by exists (k'', line'').
Qed.

Lemma persisted_NoDup sale_id first_item (items : list (SaleItem.t money)) :
  NoDup (persisted sale_id first_item items).
Proof.
  apply NoDup_alt. intros i j x. unfold persisted.
  rewrite !list_lookup_imap.
  destruct (items !! i) as [a|]; [|done].
  destruct (items !! j) as [b|]; [|done].
  simpl. intros [= <-] [= Hid _]. lia.
Qed.

(** X27. A sale just committed reads back under its id: the sale carries the
    operator of the session, the payment method of the draft and, as
    total, the sum of the draft's line totals; its lines are the lines
    of the draft handed back by [create_sale], each with its new key and
    the sale's id filled in. *)
Theorem create_sale_then_read (sale : Sale.t money) session w :
  permitted auth.Permission.SALES_CREATE w →
  permitted auth.Permission.SALES_VIEW w →
  current_session w = Some session →
  storage_up w →
  counters_fresh w →
  lines_linked (tables w) →
  Sale.items sale ≠ [] →
  lines_pass (tables w) (Sale.items sale) →
  ∃ sale_id draft w1 stored w2,
    sales_service.create_sale sale w
    = (Returned ((true, Some sale_id), draft), w1)
    ∧ sales_service.get_sale_by_id sale_id w1 = (Returned (Some stored), w2)
    ∧ Sale.id stored = Some sale_id
    ∧ Sale.user_id stored = User.id (auth.user session)
    ∧ Sale.payment_method stored = Sale.payment_method sale
    ∧ Sale.total_amount stored = Sale.items_total (Sale.items sale)
    ∧ Sale.items stored
      ≡ₚ persisted sale_id (next_sale_item_id (counters w)) (Sale.items draft).
Proof.
  intros Hcreate Hview Hsession Hup Hfresh Hlinked Hitems Hpass.
  destruct (create_sale_up sale session w)
    as (items'&w1&Hrun&_&(Hnew&Hsales&Hrows&Hout&_&Hstock)&Hnames&Hs1&Hup1);
    try done.
  set (sale_id := next_sale_id (counters w)) in *.
  set (first_item := next_sale_item_id (counters w)) in *.
  change (Sale.items (prepared sale session items')) with items' in *.
  destruct (sales_get_by_id_up sale_id w1 Hup1) as (w2&Hget).
  rewrite Hsales, lookup_insert_eq in Hget. simpl in Hget.
  eexists sale_id, _, w1, _, w2. split; [exact Hrun|].
  split.
  { unfold sales_service.get_sale_by_id, require_permission.
    unfold permitted in Hview. by rewrite Hs1, Hview, Hget. }
  repeat apply conj; try done. simpl.
  apply NoDup_Permutation;
    [apply fetched_items_NoDup|apply persisted_NoDup|].
  intros x. rewrite elem_of_fetched_items. unfold persisted.
  rewrite elem_of_lookup_imap. split.
  - intros (k&line&p&Hline&Hsale&Hp&->).
    destruct (decide (first_item ≤ k
                      < first_item + Z.of_nat (length items'))) as [Hin|Hnot].
    + destruct (lookup_lt_is_Some_2 items' (Z.to_nat (k - first_item)))
        as [item Hitem]; [lia|].
      destruct (Hrows _ _ Hitem) as [_ Hstored].
      replace (first_item + Z.of_nat (Z.to_nat (k - first_item))) with k
        in Hstored by lia.
      rewrite Hline in Hstored. injection Hstored as ->.
      exists (Z.to_nat (k - first_item)), item. split; [|done].
      replace (first_item + Z.of_nat (Z.to_nat (k - first_item))) with k
        by lia.
      simpl in *. rewrite Hstock in Hp.
      rewrite Forall_forall in Hnames.
      destruct (Hnames item) as (row&Hrow&->);
        [by eapply list_elem_of_lookup_2|].
      rewrite Hrow in Hp. by injection Hp as <-.
    + rewrite Hout in Hline by done.
      destruct (Hlinked k line Hline) as [old Hold].
      rewrite Hsale in Hold. by rewrite Hnew in Hold.
  - intros (i&item&->&Hitem).
    destruct (Hrows _ _ Hitem) as [_ Hstored].
    rewrite Forall_forall in Hnames.
    destruct (Hnames item) as (row&Hrow&Hname);
      [by eapply list_elem_of_lookup_2|].
    exists (first_item + Z.of_nat i), (line_row sale_id item),
      (products.set_quantity row
         (products.quantity row - sold items' (SaleItem.product_id item))).
    split; [done|]. split; [done|]. split.
    + simpl. by rewrite Hstock, Hrow.
    + simpl. by rewrite Hname.
Qed.

(** ** From the cart to the store *)

(** X23. A draft built by the cart functions from an empty cart has one line
    per product, so committing it keeps every stored quantity
    non-negative, whatever the storage does. *)
Theorem cart_checkout_keeps_stock_nonneg P (sale0 sale : Sale.t money)
    w r w' :
  Sale.items sale0 = [] →
  cart_reaches P sale0 sale →
  sales_service.create_sale sale w = (r, w') →
  stock_nonneg (tables w) →
  stock_nonneg (tables w').
Proof.
  intros Hempty Hreach. apply create_sale_keeps_nonneg.
  induction Hreach as [|s op w0 b s' w0' _ IH _ Hrun].
  - unfold lines_distinct. rewrite Hempty. apply NoDup_nil_2.
  - by eapply run_cart_op_distinct.
Qed.
End coverage.
(** ** The added properties at work *)

Section stocked.
Import storage runtime properties conventions examples stockroom.

Lemma shop_counters_fresh : counters_fresh shop.
Proof.
  split; [|split]; intros k Hk; simpl in *.
  - rewrite !lookup_insert_ne by lia. apply lookup_empty.
  - apply lookup_empty.
  - apply lookup_empty.
Qed.

Lemma shelves_barcode_free self code :
  code ≠ "111" → code ≠ "222" → barcode_free shelves self (Some code).
Proof.
  intros Htea Hmug c [= <-]. unfold shelves. simpl.
  apply map_Forall_insert_2; [right; simpl; congruence|].
  apply map_Forall_insert_2; [right; simpl; congruence|].
  apply map_Forall_empty.
Qed.

Lemma tea_barcode_own : barcode_free shelves (Some 1) (Some "111").
Proof.
  intros c [= <-]. unfold shelves. simpl.
  apply map_Forall_insert_2; [by left|].
  apply map_Forall_insert_2; [right; simpl; congruence|].
  apply map_Forall_empty.
Qed.

Lemma tea_cart_reached : cart_reaches (λ _, True) empty_cart tea_cart.
Proof.
  apply (cart_next _ _ empty_cart (AddProduct 1 3) shop true _ shop).
  - apply cart_start.
  - exact I.
  - vm_compute. reflexivity.
Qed.

Lemma tea_cart_passes : lines_pass shelves (Sale.items tea_cart).
Proof.
  apply Forall_cons_2; [|apply Forall_nil_2].
  unfold line_fails. vm_compute. by intros [=].
Qed.

(** A write that is committed and answered [False].  [update_stock]
    takes two packets of tea off the shelf; [conn.close()], the twelfth
    call that goes to the server, raises after the [commit] of
    [update_quantity], whose [except] block answers [False]: the stock
    is down from five to three all the same. *)
Example update_stock_commits_then_fails :
  let run :=
    inventory_service.update_stock 1 (-2)
      (shop_with [false; false; false; false; false; false; false; false;
                  false; false; false; true]) in
  run.1 = Returned false
  ∧ stock shelves 1 = Some 5
  ∧ stock (tables run.2) 1 = Some 3.
Proof. vm_compute. by repeat split. Qed.

Lemma create_product_rejects_invalid_fields_witness :
  inventory_service.create_product nameless shop
  = (Returned (false, None), shop).
Proof.
  apply (create_product_rejects_invalid_fields (money:=Z) nameless shop).
  - reflexivity.
  - left. reflexivity.
Defined.

Lemma create_product_sound_witness :
  let run := inventory_service.create_product jam shop in
  (run.1 = Returned (false, None) ∧ tables run.2 = tables shop)
  ∨ (valid_fields jam
     ∧ tbl_products (tables shop) !! next_product_id (counters shop) = None
     ∧ barcode_free (tables shop) None (Product.barcode jam)
     ∧ tables run.2
       = set_products (tables shop)
           (<[next_product_id (counters shop) := product_repo.to_row jam]>
              (tbl_products (tables shop)))
     ∧ (run.1 = Returned (true, Some (next_product_id (counters shop)))
        ∨ run.1 = Returned (false, None) ∧ ¬ storage_up shop)).
Proof.
  apply (create_product_sound (money:=Z) jam shop).
  - reflexivity.
  - apply surjective_pairing.
Defined.

Lemma create_product_rejects_taken_barcode_witness :
  ∃ w', inventory_service.create_product tea_bags shop
        = (Returned (false, None), w')
        ∧ nothing_written shop w'.
Proof.
  apply (create_product_rejects_taken_barcode (money:=Z)
           tea_bags "111" 1 tea_row shop).
  - reflexivity.
  - apply Forall_nil_2.
  - reflexivity.
  - discriminate.
  - reflexivity.
  - reflexivity.
Defined.

Lemma create_product_then_read_witness :
  let stored := Product.mk (Some 3) (Some "333") "jam" 300 4 in
  ∃ w',
    inventory_service.create_product jam shop = (Returned (true, Some 3), w')
    ∧ (inventory_service.get_product_by_id 3 w').1 = Returned (Some stored)
    ∧ (∀ code, Product.barcode jam = Some code → code ≠ "" →
         (inventory_service.get_product_by_barcode code w').1
         = Returned (Some stored))
    ∧ (∀ other, other ≠ 3 →
         (inventory_service.get_product_by_id other w').1
         = (inventory_service.get_product_by_id other shop).1).
Proof.
  apply (create_product_then_read (money:=Z) jam shop).
  - reflexivity.
  - reflexivity.
  - apply Forall_nil_2.
  - split; [discriminate|split; [reflexivity|simpl; lia]].
  - apply shelves_barcode_free; discriminate.
  - reflexivity.
Defined.

Lemma update_product_sound_witness :
  let run := inventory_service.update_product dearer_tea shop in
  (run.1 = Returned false ∧ tables run.2 = tables shop)
  ∨ (valid_fields dearer_tea
     ∧ ∃ k old,
         Product.id dearer_tea = Some k
         ∧ tbl_products (tables shop) !! k = Some old
         ∧ barcode_free (tables shop) (Some k) (Product.barcode dearer_tea)
         ∧ tables run.2
           = set_products (tables shop)
               (<[k := product_repo.to_row dearer_tea]>
                  (tbl_products (tables shop)))
         ∧ (run.1 = Returned true
            ∨ run.1 = Returned false ∧ ¬ storage_up shop)).
Proof.
  apply (update_product_sound (money:=Z) dearer_tea shop).
  - reflexivity.
  - apply surjective_pairing.
Defined.

Lemma update_product_answer_witness :
  ∃ w',
    inventory_service.update_product dearer_tea shop
    = (Returned (found_rows shop
                 || bool_decide (tea_row ≠ product_repo.to_row dearer_tea)),
       w')
    ∧ tables w'
      = set_products (tables shop)
          (<[1 := product_repo.to_row dearer_tea]>
             (tbl_products (tables shop))).
Proof.
  apply (update_product_answer (money:=Z) (H:=cents) dearer_tea 1 tea_row shop).
  - reflexivity.
  - apply Forall_nil_2.
  - split; [discriminate|split; [reflexivity|simpl; lia]].
  - reflexivity.
  - lia.
  - reflexivity.
  - apply tea_barcode_own.
Defined.

Lemma update_stock_sound_witness :
  let run := inventory_service.update_stock 1 (-2) shop in
  (run.1 = Returned false ∧ tables run.2 = tables shop)
  ∨ ∃ row,
      tbl_products (tables shop) !! 1 = Some row
      ∧ 0 ≤ products.quantity row + -2
      ∧ tables run.2
        = set_products (tables shop)
            (<[1 := products.set_quantity row (products.quantity row + -2)]>
               (tbl_products (tables shop)))
      ∧ (run.1 = Returned true
         ∨ run.1 = Returned false ∧ ¬ storage_up shop).
Proof.
  apply (update_stock_sound (money:=Z) 1 (-2) shop).
  - reflexivity.
  - apply surjective_pairing.
Defined.

Lemma update_stock_applies_witness :
  ∃ w',
    inventory_service.update_stock 1 4 shop = (Returned true, w')
    ∧ tbl_products (tables w') !! 1
      = Some (products.set_quantity tea_row (products.quantity tea_row + 4))
    ∧ ∀ k, k ≠ 1 →
        tbl_products (tables w') !! k = tbl_products (tables shop) !! k.
Proof.
  apply (update_stock_applies (money:=Z) 1 4 tea_row shop).
  - reflexivity.
  - apply Forall_nil_2.
  - reflexivity.
  - lia.
  - simpl. lia.
Defined.

Lemma delete_product_sound_witness :
  let run := inventory_service.delete_product 2 shop in
  (run.1 = Returned false ∧ tables run.2 = tables shop)
  ∨ (is_Some (tbl_products (tables shop) !! 2)
     ∧ tables run.2
       = set_products (tables shop) (delete 2 (tbl_products (tables shop)))
     ∧ (run.1 = Returned true
        ∨ run.1 = Returned false ∧ ¬ storage_up shop)).
Proof.
  apply (delete_product_sound (money:=Z) 2 shop).
  - reflexivity.
  - apply map_Forall_empty.
  - apply surjective_pairing.
Defined.

Lemma delete_product_then_read_witness :
  ∃ w1 w2 w3,
    inventory_service.delete_product 2 shop = (Returned true, w1)
    ∧ inventory_service.get_product_by_id 2 w1 = (Returned None, w2)
    ∧ inventory_service.delete_product 2 w2 = (Returned false, w3)
    ∧ tables w3 = tables w1.
Proof.
  apply (delete_product_then_read (money:=Z) 2 mug_row shop).
  - reflexivity.
  - reflexivity.
  - apply Forall_nil_2.
  - reflexivity.
  - apply map_Forall_empty.
Defined.

Lemma product_lookups_sound_witness :
  (∀ product_id r w',
     inventory_service.get_product_by_id product_id shop = (r, w') →
     tables w' = tables shop
     ∧ (r = Returned None
        ∨ ∃ row, tbl_products (tables shop) !! product_id = Some row
                 ∧ r = Returned (Some (product_repo.of_row product_id row))))
  ∧ (∀ code r w',
       inventory_service.get_product_by_barcode code shop = (r, w') →
       tables w' = tables shop
       ∧ (r = Returned None
          ∨ ∃ k row, tbl_products (tables shop) !! k = Some row
                     ∧ products.barcode row = Some code
                     ∧ r = Returned (Some (product_repo.of_row k row)))).
Proof.
  apply (product_lookups_sound (money:=Z) shop).
  reflexivity.
Defined.

Lemma product_lookups_complete_witness :
  (∃ w', inventory_service.get_product_by_id 1 shop
         = (Returned (Some (product_repo.of_row 1 tea_row)), w'))
  ∧ (∀ code,
       products.barcode tea_row = Some code →
       barcode_free (tables shop) (Some 1) (Some code) →
       ∃ w', inventory_service.get_product_by_barcode code shop
             = (Returned (Some (product_repo.of_row 1 tea_row)), w')).
Proof.
  apply (product_lookups_complete (money:=Z) 1 tea_row shop).
  - reflexivity.
  - apply Forall_nil_2.
  - reflexivity.
Defined.

Lemma get_all_products_lists_store_witness :
  ∃ l w',
    inventory_service.get_all_products shop = (Returned l, w')
    ∧ tables w' = tables shop
    ∧ l ≡ₚ (λ kr, product_repo.of_row kr.1 kr.2)
             <$> map_to_list (tbl_products (tables shop))
    ∧ Sorted (λ a b, name_le (Product.name a) (Product.name b)) l.
Proof.
  apply (get_all_products_lists_store (money:=Z) (H0:=lexicographic) shop).
  - reflexivity.
  - apply Forall_nil_2.
  - intros a b. apply String.leb_total.
Defined.

Lemma get_low_stock_products_exact_witness :
  ∃ l w',
    inventory_service.get_low_stock_products 2 shop = (Returned l, w')
    ∧ tables w' = tables shop
    ∧ ∀ p, p ∈ l ↔
        ∃ k row, tbl_products (tables shop) !! k = Some row
                 ∧ products.quantity row ≤ 2
                 ∧ p = product_repo.of_row k row.
Proof.
  apply (get_low_stock_products_exact (money:=Z) (H0:=lexicographic) 2 shop).
  - reflexivity.
  - apply Forall_nil_2.
Defined.

Lemma reads_hide_storage_failure_witness :
  let w := shop_with [true] in
  let w' := set_faults w (tail (faults w)) in
  inventory_service.get_all_products w = (Returned [], w')
  ∧ (∀ threshold,
       inventory_service.get_low_stock_products threshold w
       = (Returned [], w'))
  ∧ (∀ product_id,
       inventory_service.get_product_by_id product_id w = (Returned None, w'))
  ∧ (∀ code,
       inventory_service.get_product_by_barcode code w = (Returned None, w'))
  ∧ (∀ sale_id,
       sales_service.get_sale_by_id sale_id w = (Returned None, w')).
Proof.
  apply (reads_hide_storage_failure (money:=Z) (H0:=lexicographic)
           (shop_with [true])).
  - reflexivity.
  - reflexivity.
  - reflexivity.
Defined.

Lemma cart_ops_leave_store_witness :
  let run := run_cart_op (AddProduct 2 3) tea_cart shop in
  nothing_written shop run.2
  ∧ (∀ sale', run.1 = Returned (false, sale') → sale' = tea_cart)
  ∧ (∀ b sale', run.1 = Returned (b, sale') →
       sale' = Sale.set_items tea_cart (Sale.items sale')).
Proof.
  apply (cart_ops_leave_store (money:=Z) (AddProduct 2 3) tea_cart shop).
  apply surjective_pairing.
Defined.

Lemma add_product_to_sale_checks_added_quantity_witness :
  ∃ b sale' w',
    sales_service.add_product_to_sale tea_cart 1 3 shop
    = (Returned (b, sale'), w')
    ∧ (b = false ↔
       match stock (tables shop) 1 with
       | None => True
       | Some q => q < 3
       end).
Proof.
  apply (add_product_to_sale_checks_added_quantity (money:=Z)
           tea_cart 1 3 shop).
  - reflexivity.
  - apply Forall_nil_2.
Defined.

Lemma add_product_to_sale_appends_witness :
  ∃ w',
    let new_line :=
      SaleItem.mk None None 2 (products.name mug_row) 1
        (products.price mug_row) in
    sales_service.add_product_to_sale tea_cart 2 1 shop
    = (Returned
         (true, Sale.set_items tea_cart (Sale.items tea_cart ++ [new_line])),
       w')
    ∧ Sale.items_total (Sale.items tea_cart ++ [new_line])
      = money_add (Sale.items_total (Sale.items tea_cart))
          (money_scale 1 (products.price mug_row)).
Proof.
  apply (add_product_to_sale_appends (money:=Z) tea_cart 2 1 mug_row shop).
  - reflexivity.
  - apply Forall_nil_2.
  - simpl. rewrite not_elem_of_cons. split; [lia|apply not_elem_of_nil].
  - reflexivity.
  - simpl. lia.
Defined.

Lemma add_product_to_sale_merges_witness :
  ∃ w',
    sales_service.add_product_to_sale tea_cart 1 1 shop
    = (Returned
         (true,
          Sale.set_items tea_cart
            ([] ++ SaleItem.set_quantity (line 1 "tea" 3 1000)
                     (SaleItem.quantity (line 1 "tea" 3 1000) + 1)
                :: [])), w')
    ∧ nothing_written shop w'.
Proof.
  apply (add_product_to_sale_merges (money:=Z) tea_cart 1 1 shop
           [] (line 1 "tea" 3 1000) [] tea_row).
  - reflexivity.
  - apply Forall_nil_2.
  - reflexivity.
  - apply Forall_nil_2.
  - reflexivity.
  - reflexivity.
  - simpl. lia.
Defined.

Lemma cart_lines_stay_distinct_witness : lines_distinct tea_cart.
Proof.
  apply (cart_lines_stay_distinct (money:=Z) (λ _, True) empty_cart tea_cart).
  - reflexivity.
  - apply tea_cart_reached.
Defined.

Lemma cart_checkout_keeps_stock_nonneg_witness :
  stock_nonneg (tables (sales_service.create_sale tea_cart shop).2).
Proof.
  apply (cart_checkout_keeps_stock_nonneg (money:=Z) (λ _, True)
           empty_cart tea_cart shop
           (sales_service.create_sale tea_cart shop).1).
  - reflexivity.
  - apply tea_cart_reached.
  - apply surjective_pairing.
  - apply shelves_nonneg.
Defined.

Lemma create_sale_succeeds_witness :
  ∃ items' w',
    sales_service.create_sale tea_cart shop
    = (Returned ((true, Some (next_sale_id (counters shop))),
                 prepared tea_cart operator items'), w')
    ∧ Forall2 renamed (Sale.items tea_cart) items'
    ∧ Forall (λ item,
                ∃ row, tbl_products (tables shop) !! SaleItem.product_id item
                       = Some row
                       ∧ SaleItem.product_name item = products.name row)
        items'
    ∧ sale_recorded (prepared tea_cart operator items')
        (next_sale_id (counters shop)) (next_sale_item_id (counters shop))
        (tables shop) (tables w').
Proof.
  apply (create_sale_succeeds (money:=Z) tea_cart operator shop).
  - reflexivity.
  - reflexivity.
  - apply Forall_nil_2.
  - apply shop_counters_fresh.
  - discriminate.
  - apply tea_cart_passes.
Defined.

Lemma get_sale_by_id_sound_witness :
  let run := sales_service.get_sale_by_id 1 shop_after_sale in
  tables run.2 = tables shop_after_sale
  ∧ (run.1 = Returned None
     ∨ ∃ row sale,
         run.1 = Returned (Some sale)
         ∧ tbl_sales (tables shop_after_sale) !! 1 = Some row
         ∧ Sale.id sale = Some 1
         ∧ Sale.user_id sale = sales.user_id row
         ∧ Sale.total_amount sale = sales.total_amount row
         ∧ Sale.payment_method sale = sales.payment_method row
         ∧ ∀ item,
             item ∈ Sale.items sale ↔
             ∃ k line p,
               tbl_sale_items (tables shop_after_sale) !! k = Some line
               ∧ sale_items.sale_id line = 1
               ∧ tbl_products (tables shop_after_sale)
                   !! sale_items.product_id line
                 = Some p
               ∧ item = SaleItem.mk (Some k) (Some 1)
                          (sale_items.product_id line) (products.name p)
                          (sale_items.quantity line)
                          (sale_items.unit_price line)).
Proof.
  apply (get_sale_by_id_sound (money:=Z) 1 shop_after_sale).
  - vm_compute. reflexivity.
  - apply surjective_pairing.
Defined.

Lemma create_sale_then_read_witness :
  ∃ sale_id draft w1 stored w2,
    sales_service.create_sale tea_cart shop
    = (Returned ((true, Some sale_id), draft), w1)
    ∧ sales_service.get_sale_by_id sale_id w1 = (Returned (Some stored), w2)
    ∧ Sale.id stored = Some sale_id
    ∧ Sale.user_id stored = User.id (auth.user operator)
    ∧ Sale.payment_method stored = Sale.payment_method tea_cart
    ∧ Sale.total_amount stored = Sale.items_total (Sale.items tea_cart)
    ∧ Sale.items stored
      ≡ₚ persisted sale_id (next_sale_item_id (counters shop))
           (Sale.items draft).
Proof.
  apply (create_sale_then_read (money:=Z) tea_cart operator shop).
  - reflexivity.
  - reflexivity.
  - reflexivity.
  - apply Forall_nil_2.
  - apply shop_counters_fresh.
  - apply map_Forall_empty.
  - discriminate.
  - apply tea_cart_passes.
Defined.

Lemma core_op_keeps_stock_nonneg_witness :
  stock_nonneg (tables (run_core_op (CreateSale tea_cart) shop)).
Proof.
  apply (core_op_keeps_stock_nonneg (money:=Z) (CreateSale tea_cart) shop).
  - apply NoDup_singleton.
  - apply shelves_nonneg.
Defined.
End stocked.
